(** * Social Media Downloader Pro (main.py): a shallow embedding

    The helpers and request handlers of [main.py] are written as Rocq
    functions over an explicit model of what the program touches:
    Python strings and slices, JSON values, the download folder with
    its history file, and the outcome of the external extraction tool.
    State is passed explicitly; code that can raise returns a [result]. *)

From Stdlib Require Import ZArith NArith List String Ascii Bool Lia.
From Stdlib Require Import DecimalString Permutation Sorted.
Import ListNotations.
Open Scope Z_scope.
Set Warnings "-register-all".

(* ================================================================== *)
(** * Python primitives used by main.py *)
(* ================================================================== *)

Module Py.

(** A Python [str] is a sequence of Unicode code points. *)
Definition char := N.
Definition str := list char.

(** ASCII literals. *)
Definition lit (s : string) : str := map N_of_ascii (list_ascii_of_string s).

Definition len {A} (l : list A) : Z := Z.of_nat (List.length l).

Definition char_in (c : char) (set : str) : bool := existsb (N.eqb c) set.

Fixpoint str_eqb (a b : str) : bool :=
  match a, b with
  | [], [] => true
  | x :: a', y :: b' => N.eqb x y && str_eqb a' b'
  | _, _ => false
  end.

(** [l[i:]] and [l[:i]]: a negative index counts from the end, and
    both ends saturate. *)
Definition clamp (n i : Z) : nat :=
  Z.to_nat (if i <? 0 then Z.max 0 (i + n) else Z.min i n).

Definition slice_from {A} (start : Z) (l : list A) : list A :=
  skipn (clamp (len l) start) l.

Definition slice_to {A} (stop : Z) (l : list A) : list A :=
  firstn (clamp (len l) stop) l.

(** [s.startswith(p)], [s.endswith(p)] and [p in s]. *)
Fixpoint startswith (s p : str) {struct p} : bool :=
  match p, s with
  | [], _ => true
  | a :: p', b :: s' => N.eqb a b && startswith s' p'
  | _ :: _, [] => false
  end.

Definition endswith (s p : str) : bool := startswith (rev s) (rev p).

Fixpoint str_in (needle hay : str) : bool :=
  startswith hay needle ||
  match hay with
  | [] => false
  | _ :: t => str_in needle t
  end.

(** [s.lower()].  Besides A-Z, exactly two code points have a lower
    case form that contains an ASCII letter: U+0130 and U+212A.  Every
    other code point lower-cases to code points outside ASCII; the
    model leaves those in place, which no test against an ASCII
    fragment can tell apart. *)
Definition lower_char (c : char) : str :=
  if (65 <=? c)%N && (c <=? 90)%N then [(c + 32)%N]
  else if (c =? 304)%N then [105%N; 775%N]
  else if (c =? 8490)%N then [107%N]
  else [c].

Definition lower (s : str) : str := flat_map lower_char s.

(** [re.sub('[class]', '', s)]. *)
Definition remove (p : char -> bool) (s : str) : str :=
  filter (fun c => negb (p c)) s.

(** [re.sub('[class]+', r, s)]: every maximal run becomes one [r]
    (emitted when the run ends). *)
Fixpoint sub_runs (p : char -> bool) (r : char) (s : str) : str :=
  match s with
  | [] => []
  | c :: t =>
      if p c then
        match t with
        | [] => [r]
        | c' :: _ => if p c' then sub_runs p r t else r :: sub_runs p r t
        end
      else c :: sub_runs p r t
  end.

(** [s.strip(chars)]. *)
Fixpoint lstrip (p : char -> bool) (s : str) : str :=
  match s with
  | [] => []
  | c :: t => if p c then lstrip p t else s
  end.

Definition rstrip (p : char -> bool) (s : str) : str := rev (lstrip p (rev s)).

Definition strip (p : char -> bool) (s : str) : str := rstrip p (lstrip p s).

(** [s.rfind(c)] for a single character: the last index, or -1. *)
Fixpoint rfind (c : char) (s : str) : Z :=
  match s with
  | [] => -1
  | x :: t =>
      let r := rfind c t in
      if r <? 0 then (if N.eqb x c then 0 else -1) else r + 1
  end.

Definition slash : char := 47%N.
Definition dot : char := 46%N.
Definition underscore : char := 95%N.

(** [os.path.splitext] (posixpath; [genericpath._splitext] with
    sep '/' and extsep '.'): split at the last dot when it lies after
    the last separator and some character between them is not a dot. *)
Definition splitext (p : str) : str * str :=
  let sepIndex := rfind slash p in
  let dotIndex := rfind dot p in
  if dotIndex >? sepIndex then
    let lead := firstn (Z.to_nat (dotIndex - (sepIndex + 1)))
                       (skipn (Z.to_nat (sepIndex + 1)) p) in
    if existsb (fun x => negb (N.eqb x dot)) lead
    then (firstn (Z.to_nat dotIndex) p, skipn (Z.to_nat dotIndex) p)
    else (p, [])
  else (p, []).

(** [os.path.basename] (posixpath): what follows the last '/'. *)
Definition basename (p : str) : str :=
  skipn (Z.to_nat (rfind slash p + 1)) p.

(** [os.path.join(a, b)] (posixpath, two arguments). *)
Definition join (a b : str) : str :=
  if startswith b [slash] then b
  else if match a with [] => true | _ => endswith a [slash] end then a ++ b
  else a ++ slash :: b.

(** [s.rsplit('.', 1)[0]]. *)
Definition rsplit_dot_head (s : str) : str :=
  let i := rfind dot s in
  if i <? 0 then s else firstn (Z.to_nat i) s.

(** Truth value of a string: non-empty. *)
Definition truthy (s : str) : bool :=
  match s with [] => false | _ => true end.

End Py.

Import Py.

(* ================================================================== *)
(** * sanitize_filename *)
(* ================================================================== *)

(** The reserved class of the first [re.sub]: the characters
    < > : / \ | ? * and the double quote (code point 34). *)
Definition reserved_chars : str := lit "<>:" ++ [34%N] ++ lit "/\|?*".
Definition is_reserved (c : char) : bool := char_in c reserved_chars.

(** The class [\x00-\x1f\x7f-\x9f]. *)
Definition is_control (c : char) : bool :=
  (c <=? 31)%N || ((127 <=? c)%N && (c <=? 159)%N).

(** The class [\s] on a [str] pattern: Unicode white space. *)
Definition is_space (c : char) : bool :=
  ((9 <=? c)%N && (c <=? 13)%N) || ((28 <=? c)%N && (c <=? 32)%N) ||
  (c =? 133)%N || (c =? 160)%N || (c =? 5760)%N ||
  ((8192 <=? c)%N && (c <=? 8202)%N) || (c =? 8232)%N || (c =? 8233)%N ||
  (c =? 8239)%N || (c =? 8287)%N || (c =? 12288)%N.

Definition is_dot (c : char) : bool := N.eqb c dot.
Definition is_underscore (c : char) : bool := N.eqb c underscore.
Definition is_dot_or_underscore (c : char) : bool := is_dot c || is_underscore c.

(** The first six statements of [sanitize_filename]: everything before
    the length limit. *)
Definition sanitize_clean (filename : str) : str :=
  let filename := remove is_reserved filename in
  let filename := remove is_control filename in
  let filename := sub_runs is_space underscore filename in
  let filename := sub_runs is_dot dot filename in
  let filename := sub_runs is_underscore underscore filename in
  strip is_dot_or_underscore filename.

(** The [if len(filename) > max_length] statement. *)
Definition limit_length (filename : str) (max_length : Z) : str :=
  if len filename >? max_length then
    let '(name, ext) := splitext filename in
    slice_to (max_length - len ext) name ++ ext
  else filename.

Definition sanitize_filename (filename : str) (max_length : Z) : str :=
  let filename := limit_length (sanitize_clean filename) max_length in
  if truthy filename then filename else lit "download".

Definition default_max_length : Z := 100.

(** A character the first two substitutions let through. *)
Definition safe_char (c : char) : bool := negb (is_reserved c) && negb (is_control c).

(** Two neighbours that both satisfy [p]. *)
Fixpoint has_run (p : char -> bool) (s : str) : bool :=
  match s with
  | a :: (b :: _) as t => (p a && p b) || has_run p t
  | _ => false
  end.

(* ================================================================== *)
(** * get_platform_from_url and get_format_string *)
(* ================================================================== *)

Definition get_platform_from_url (url : str) : str :=
  let url_lower := lower url in
  if str_in (lit "youtube.com") url_lower || str_in (lit "youtu.be") url_lower
  then lit "YouTube"
  else if str_in (lit "tiktok.com") url_lower
  then lit "TikTok"
  else if str_in (lit "instagram.com") url_lower
  then lit "Instagram"
  else if str_in (lit "twitter.com") url_lower || str_in (lit "x.com") url_lower
  then lit "Twitter/X"
  else if str_in (lit "facebook.com") url_lower || str_in (lit "fb.watch") url_lower
  then lit "Facebook"
  else if str_in (lit "vimeo.com") url_lower
  then lit "Vimeo"
  else if str_in (lit "reddit.com") url_lower
  then lit "Reddit"
  else if str_in (lit "twitch.tv") url_lower
  then lit "Twitch"
  else lit "Other".

(** The classifier as the specification words it: a fixed, ordered
    table of labels with their domain fragments, scanned from the top;
    the first label one of whose fragments occurs wins. *)
Definition platform_table : list (str * list str) :=
  [ (lit "YouTube",   [lit "youtube.com"; lit "youtu.be"]);
    (lit "TikTok",    [lit "tiktok.com"]);
    (lit "Instagram", [lit "instagram.com"]);
    (lit "Twitter/X", [lit "twitter.com"; lit "x.com"]);
    (lit "Facebook",  [lit "facebook.com"; lit "fb.watch"]);
    (lit "Vimeo",     [lit "vimeo.com"]);
    (lit "Reddit",    [lit "reddit.com"]);
    (lit "Twitch",    [lit "twitch.tv"]) ].

Definition row_matches (hay : str) (row : str * list str) : bool :=
  existsb (fun fragment => str_in fragment hay) (snd row).

Fixpoint first_match (table : list (str * list str)) (hay : str) : str :=
  match table with
  | [] => lit "Other"
  | row :: rest => if row_matches hay row then fst row else first_match rest hay
  end.

Definition get_format_string (quality format_type : str) : str :=
  if str_eqb format_type (lit "audio") then lit "bestaudio/best"
  else if str_eqb quality (lit "best")
  then lit "bestvideo[ext=mp4]+bestaudio[ext=m4a]/best[ext=mp4]/best"
  else if str_eqb quality (lit "high")
  then lit "bestvideo[height<=1080][ext=mp4]+bestaudio[ext=m4a]/best[height<=1080][ext=mp4]/best"
  else if str_eqb quality (lit "medium")
  then lit "bestvideo[height<=720][ext=mp4]+bestaudio[ext=m4a]/best[height<=720][ext=mp4]/best"
  else if str_eqb quality (lit "low")
  then lit "bestvideo[height<=480][ext=mp4]+bestaudio[ext=m4a]/best[height<=480][ext=mp4]/best"
  else lit "best".

(* ================================================================== *)
(** * JSON values, exceptions, configuration *)
(* ================================================================== *)

(** What [json.load] returns and [json.dump] accepts.  A dict keeps its
    insertion order, so it is an association list.  [JFloat m e] is the
    float that prints as m * 10^e. *)
Inductive json : Type :=
| JNull
| JBool (b : bool)
| JInt (z : Z)
| JFloat (m e : Z)
| JStr (s : str)
| JList (items : list json)
| JDict (fields : list (str * json)).

(** [d[k] = v] on an insertion-ordered dict. *)
Fixpoint dict_set (k : str) (v : json) (d : list (str * json)) : list (str * json) :=
  match d with
  | [] => [(k, v)]
  | (k', v') :: rest =>
      if str_eqb k' k then (k, v) :: rest else (k', v') :: dict_set k v rest
  end.

Fixpoint dict_get (k : str) (d : list (str * json)) : option json :=
  match d with
  | [] => None
  | (k', v) :: rest => if str_eqb k' k then Some v else dict_get k rest
  end.

(** [type(x).__name__]. *)
Definition type_name (x : json) : str :=
  match x with
  | JNull => lit "NoneType"
  | JBool _ => lit "bool"
  | JInt _ => lit "int"
  | JFloat _ _ => lit "float"
  | JStr _ => lit "str"
  | JList _ => lit "list"
  | JDict _ => lit "dict"
  end.

(** The utf-8 codec rejects the surrogate code points U+D800 to
    U+DFFF, which a [str] can hold (a site's JSON may carry half of a
    pair): [encodable] says that no string of a value, key or item,
    holds one. *)
Definition is_surrogate (c : char) : bool := (55296 <=? c)%N && (c <=? 57343)%N.

Definition encodable_str (s : str) : bool :=
  forallb (fun c => negb (is_surrogate c)) s.

Fixpoint encodable (x : json) : bool :=
  match x with
  | JStr s => encodable_str s
  | JList items => forallb encodable items
  | JDict fields =>
      forallb (fun kv => encodable_str (fst kv) && encodable (snd kv)) fields
  | _ => true
  end.

(** Exceptions: the handlers of main.py only tell
    [yt_dlp.utils.DownloadError] from every other [Exception], and use
    [str(e)]. *)
Inductive exn : Type :=
| DownloadError (msg : str)
| OtherError (class_name : str) (msg : str).

Definition exn_str (e : exn) : str :=
  match e with
  | DownloadError msg => msg
  | OtherError _ msg => msg
  end.

Inductive result (A : Type) : Type :=
| Return (a : A)
| Raise (e : exn).
Arguments Return {A} a.
Arguments Raise {A} e.

(** [str(z)] for an int. *)
Definition str_of_int (z : Z) : str := lit (NilZero.string_of_int (Z.to_int z)).

(** [repr] of the float that prints as [m * 10^e]: the digits of [m]
    without trailing zeros, in positional notation when the decimal
    point falls within the digits or up to three zeros before them and
    up to sixteen places in all, in exponent notation otherwise. *)
Definition float_repr (m e : Z) : str :=
  if m =? 0 then lit "0.0" else
  let all := str_of_int (Z.abs m) in
  let digits := rstrip (N.eqb 48) all in
  let n := len digits in
  let decpt := len all + e in
  (if m <? 0 then lit "-" else []) ++
  (if (-4 <? decpt) && (decpt <=? 16) then
     if decpt <=? 0 then lit "0." ++ repeat 48%N (Z.to_nat (- decpt)) ++ digits
     else if n <=? decpt
     then digits ++ repeat 48%N (Z.to_nat (decpt - n)) ++ lit ".0"
     else firstn (Z.to_nat decpt) digits ++ lit "." ++ skipn (Z.to_nat decpt) digits
   else
     firstn 1 digits ++ (if 1 <? n then lit "." ++ skipn 1 digits else []) ++
     lit "e" ++ (if decpt - 1 <? 0 then lit "-" else lit "+") ++
     (if Z.abs (decpt - 1) <? 10 then lit "0" else []) ++
     str_of_int (Z.abs (decpt - 1))).

Definition hex_digit (n : N) : char :=
  if (n <? 10)%N then (48 + n)%N else (87 + n)%N.

(** Four lower-case hex digits. *)
Definition hex4 (c : N) : str :=
  [hex_digit ((c / 4096) mod 16); hex_digit ((c / 256) mod 16);
   hex_digit ((c / 16) mod 16); hex_digit (c mod 16)].

(** The escapes of the JSON encoder with [ensure_ascii=False]: the
    double quote (code point 34), the backslash (92) and the control
    characters below 32; everything else goes out as it is. *)
Definition escape_char (c : char) : str :=
  if (c =? 34)%N then [92%N; 34%N]
  else if (c =? 92)%N then [92%N; 92%N]
  else if (c =? 8)%N then lit "\b"
  else if (c =? 12)%N then lit "\f"
  else if (c =? 10)%N then lit "\n"
  else if (c =? 13)%N then lit "\r"
  else if (c =? 9)%N then lit "\t"
  else if (c <? 32)%N then lit "\u" ++ hex4 c
  else [c].

Definition dumps_str (s : str) : str := 34%N :: flat_map escape_char s ++ [34%N].

Fixpoint join_with (sep : str) (parts : list str) : str :=
  match parts with
  | [] => []
  | [part] => part
  | part :: rest => part ++ sep ++ join_with sep rest
  end.

(** [json.dumps(x, ensure_ascii=False, allow_nan=False, indent=None,
    separators=(',', ':'))]. *)
Fixpoint dumps (x : json) : str :=
  match x with
  | JNull => lit "null"
  | JBool true => lit "true"
  | JBool false => lit "false"
  | JInt z => str_of_int z
  | JFloat m e => float_repr m e
  | JStr s => dumps_str s
  | JList items => lit "[" ++ join_with (lit ",") (map dumps items) ++ lit "]"
  | JDict fields =>
      lit "{" ++
      join_with (lit ",")
        (map (fun kv => dumps_str (fst kv) ++ lit ":" ++ dumps (snd kv)) fields) ++
      lit "}"
  end.

(** The surrogates at the head of a text. *)
Fixpoint surrogate_run (text : str) : Z :=
  match text with
  | c :: t => if is_surrogate c then 1 + surrogate_run t else 0
  | [] => 0
  end.

(** [text.encode('utf-8')] raises [UnicodeEncodeError] at the first
    surrogate: [encode_error text 0] is the [str] of that exception,
    which names the character and its position, or the positions of
    the whole run when several surrogates follow each other; [None]
    when the text can be encoded. *)
Fixpoint encode_error (text : str) (position : Z) : option str :=
  match text with
  | [] => None
  | c :: t =>
      if is_surrogate c then
        Some (lit "'utf-8' codec can't encode character" ++
              (if surrogate_run t =? 0
               then lit " '\u" ++ hex4 c ++ lit "' in position " ++
                    str_of_int position
               else lit "s in position " ++ str_of_int position ++ lit "-" ++
                    str_of_int (position + surrogate_run t)) ++
              lit ": surrogates not allowed")
      else encode_error t (position + 1)
  end.

(** [JSONResponse(body)]: the constructor renders the body at once,
    as [json.dumps(...)] above followed by [.encode('utf-8')]. *)
Definition render (body : json) : result str :=
  match encode_error (dumps body) 0 with
  | None => Return (dumps body)
  | Some msg => Raise (OtherError (lit "UnicodeEncodeError") msg)
  end.

(** The three settings read from the environment at import time. *)
Record config : Type := {
  DOWNLOAD_FOLDER : str;
  MAX_FILE_AGE_DAYS : Z;
  MAX_HISTORY_ITEMS : Z
}.

Definition default_config : config :=
  {| DOWNLOAD_FOLDER := lit "downloads";
     MAX_FILE_AGE_DAYS := 1;
     MAX_HISTORY_ITEMS := 100 |}.

Definition HISTORY_NAME : str := lit ".history.json".

Definition HISTORY_FILE (cfg : config) : str :=
  join (DOWNLOAD_FOLDER cfg) HISTORY_NAME.

(** One reading of the clock: [datetime.now()] in microseconds, its
    [isoformat()], and the eight hex digits main.py derives from it
    for the entry id. *)
Record instant : Type := {
  micros : Z;
  isoformat : str;
  hex_id : str
}.

(* ================================================================== *)
(** * The file system as main.py sees it *)
(* ================================================================== *)

Module FS.

(** A file body is a JSON document (any text [json.load] parses to
    [doc], in particular what [json.dump doc] writes), or bytes that
    [json.load] rejects, or what a [json.dump doc] that raised midway
    left behind: the beginning of its text for [doc], short of the
    closing bracket, which [json.load] rejects as well. *)
Inductive content : Type :=
| Doc (doc : json)
| Blob (bytes : list N)
| Truncated (doc : json).

(** A regular file.  The three flags say whether [open(.., 'r')],
    [open(.., 'w')] and [unlink] succeed on it; main.py wraps each of
    these calls in a handler. *)
Record file : Type := {
  body : content;
  st_mtime : Z;
  readable : bool;
  writable : bool;
  removable : bool
}.

Inductive node : Type :=
| RegularFile (f : file)
| Directory.

(** A path after the kernel has walked it: [ups] parent steps above the
    starting directory (relative paths only), then the components,
    innermost first. *)
Record npath : Type := {
  absolute : bool;
  ups : nat;
  rcomps : list str
}.

Fixpoint split_on (c : char) (s : str) : list str :=
  match s with
  | [] => [[]]
  | x :: t =>
      if N.eqb x c then [] :: split_on c t
      else match split_on c t with
           | h :: r => (x :: h) :: r
           | [] => [[x]]
           end
  end.

Definition parent (p : npath) : npath :=
  match rcomps p with
  | _ :: r => {| absolute := absolute p; ups := ups p; rcomps := r |}
  | [] => if absolute p then p
          else {| absolute := false; ups := S (ups p); rcomps := [] |}
  end.

Definition child (p : npath) (name : str) : npath :=
  {| absolute := absolute p; ups := ups p; rcomps := name :: rcomps p |}.

(** One component of a path walk. *)
Definition walk (p : npath) (component : str) : npath :=
  if str_eqb component [] || str_eqb component (lit ".") then p
  else if str_eqb component (lit "..") then parent p
  else child p component.

Definition resolve (path : str) : npath :=
  fold_left walk (split_on slash path)
            {| absolute := startswith path [slash]; ups := 0; rcomps := [] |}.

Fixpoint strs_eqb (a b : list str) : bool :=
  match a, b with
  | [], [] => true
  | x :: a', y :: b' => str_eqb x y && strs_eqb a' b'
  | _, _ => false
  end.

Definition npath_eqb (p q : npath) : bool :=
  Bool.eqb (absolute p) (absolute q) && Nat.eqb (ups p) (ups q)
  && strs_eqb (rcomps p) (rcomps q).

(** [q] is [d] or one of its ancestors. *)
Definition above_or_self (q d : npath) : bool :=
  Bool.eqb (absolute q) (absolute d) &&
  (if Nat.eqb (ups q) (ups d)
   then strs_eqb (rcomps q)
                 (skipn (List.length (rcomps d) - List.length (rcomps q)) (rcomps d))
        && Nat.leb (List.length (rcomps q)) (List.length (rcomps d))
   else Nat.ltb (ups d) (ups q) &&
        match rcomps q with [] => true | _ => false end).

(** The download folder with its entries in the order [glob] yields
    them, and the regular files everywhere else. *)
Record world : Type := {
  folder : list (str * node);
  elsewhere : list (npath * file)
}.

(** Where a path leads, seen from the download folder. *)
Inductive place : Type :=
| Above                 (* the folder itself or a directory above it *)
| Child (name : str)    (* an entry of the folder *)
| Other (at_ : npath).  (* anywhere else *)

Definition locate (cfg : config) (path : str) : place :=
  let d := resolve (DOWNLOAD_FOLDER cfg) in
  let q := resolve path in
  if above_or_self q d then Above
  else match rcomps q with
       | name :: r =>
           if npath_eqb {| absolute := absolute q; ups := ups q; rcomps := r |} d
           then Child name else Other q
       | [] => Other q
       end.

Fixpoint lookup (name : str) (entries : list (str * node)) : option node :=
  match entries with
  | [] => None
  | (n, x) :: rest => if str_eqb n name then Some x else lookup name rest
  end.

Fixpoint lookup_at (q : npath) (files : list (npath * file)) : option file :=
  match files with
  | [] => None
  | (p, f) :: rest => if npath_eqb p q then Some f else lookup_at q rest
  end.

Definition node_at (cfg : config) (w : world) (path : str) : option node :=
  match locate cfg path with
  | Above => Some Directory
  | Child name => lookup name (folder w)
  | Other q => option_map RegularFile (lookup_at q (elsewhere w))
  end.

Definition os_error (what path : str) : exn :=
  OtherError (lit "OSError") (what ++ lit ": '" ++ path ++ lit "'").

(** [os.path.exists]. *)
Definition exists_ (cfg : config) (w : world) (path : str) : bool :=
  match node_at cfg w path with Some _ => true | None => false end.

(** [open(path, 'r')] followed by reading the whole file. *)
Definition read (cfg : config) (w : world) (path : str) : result content :=
  match node_at cfg w path with
  | None => Raise (os_error (lit "[Errno 2] No such file or directory") path)
  | Some Directory => Raise (os_error (lit "[Errno 21] Is a directory") path)
  | Some (RegularFile f) =>
      if readable f then Return (body f)
      else Raise (os_error (lit "[Errno 13] Permission denied") path)
  end.

Definition new_file (now : Z) (c : content) : file :=
  {| body := c; st_mtime := now; readable := true; writable := true;
     removable := true |}.

Definition rewrite_file (now : Z) (c : content) (f : file) : file :=
  {| body := c; st_mtime := now; readable := readable f;
     writable := writable f; removable := removable f |}.

Fixpoint put (name : str) (x : node) (entries : list (str * node)) : list (str * node) :=
  match entries with
  | [] => [(name, x)]
  | (n, y) :: rest =>
      if str_eqb n name then (n, x) :: rest else (n, y) :: put name x rest
  end.

Fixpoint put_at (q : npath) (f : file) (files : list (npath * file)) : list (npath * file) :=
  match files with
  | [] => [(q, f)]
  | (p, g) :: rest =>
      if npath_eqb p q then (p, f) :: rest else (p, g) :: put_at q f rest
  end.

(** Removing a name from a listing. *)
Definition drop (name : str) (entries : list (str * node)) : list (str * node) :=
  filter (fun e => negb (str_eqb (fst e) name)) entries.

Definition drop_at (q : npath) (files : list (npath * file)) : list (npath * file) :=
  filter (fun e => negb (npath_eqb (fst e) q)) files.

(** [with open(path, 'w') as f:] and the writes of its block.  [open]
    raises on a directory and on a file that cannot be written, and
    then nothing changes; otherwise it creates the file or empties it,
    and [c] is what the block has written when it is left, whether it
    ends or raises. *)
Definition write (cfg : config) (now : Z) (w : world) (path : str) (c : content)
  : result world :=
  match locate cfg path with
  | Above => Raise (os_error (lit "[Errno 21] Is a directory") path)
  | Child name =>
      match lookup name (folder w) with
      | None =>
          Return {| folder := folder w ++ [(name, RegularFile (new_file now c))];
                    elsewhere := elsewhere w |}
      | Some Directory => Raise (os_error (lit "[Errno 21] Is a directory") path)
      | Some (RegularFile f) =>
          if writable f
          then Return {| folder := put name (RegularFile (rewrite_file now c f)) (folder w);
                         elsewhere := elsewhere w |}
          else Raise (os_error (lit "[Errno 13] Permission denied") path)
      end
  | Other q =>
      match lookup_at q (elsewhere w) with
      | None =>
          Return {| folder := folder w;
                    elsewhere := elsewhere w ++ [(q, new_file now c)] |}
      | Some f =>
          if writable f
          then Return {| folder := folder w;
                         elsewhere := put_at q (rewrite_file now c f) (elsewhere w) |}
          else Raise (os_error (lit "[Errno 13] Permission denied") path)
      end
  end.

(** [os.remove(path)]. *)
Definition remove_path (cfg : config) (w : world) (path : str) : result world :=
  match locate cfg path with
  | Above => Raise (os_error (lit "[Errno 21] Is a directory") path)
  | Child name =>
      match lookup name (folder w) with
      | None => Raise (os_error (lit "[Errno 2] No such file or directory") path)
      | Some Directory => Raise (os_error (lit "[Errno 21] Is a directory") path)
      | Some (RegularFile f) =>
          if removable f
          then Return {| folder := drop name (folder w); elsewhere := elsewhere w |}
          else Raise (os_error (lit "[Errno 13] Permission denied") path)
      end
  | Other q =>
      match lookup_at q (elsewhere w) with
      | None => Raise (os_error (lit "[Errno 2] No such file or directory") path)
      | Some f =>
          if removable f
          then Return {| folder := folder w; elsewhere := drop_at q (elsewhere w) |}
          else Raise (os_error (lit "[Errno 13] Permission denied") path)
      end
  end.

End FS.

Import FS.

(* ================================================================== *)
(** * Download history *)
(* ================================================================== *)

Definition json_load (c : content) : result json :=
  match c with
  | Doc j => Return j
  | Blob _ => Raise (OtherError (lit "JSONDecodeError") (lit "Expecting value"))
  | Truncated _ => Raise (OtherError (lit "JSONDecodeError") (lit "Expecting value"))
  end.

(** The [try] block of [load_history]: [None] stands for falling
    through the [if]. *)
Definition load_history_try (cfg : config) (w : world) : result (option json) :=
  if exists_ cfg w (HISTORY_FILE cfg) then
    match read cfg w (HISTORY_FILE cfg) with
    | Return c =>
        match json_load c with
        | Return j => Return (Some j)
        | Raise e => Raise e
        end
    | Raise e => Raise e
    end
  else Return None.

Definition load_history (cfg : config) (w : world) : json :=
  match load_history_try cfg w with
  | Return (Some j) => j
  | Return None => JList []
  | Raise _ => JList []
  end.

(** [json.dump(doc, f, indent=2, ensure_ascii=False)] on a file opened
    with [encoding='utf-8']: what the file holds when the call is
    over.  The text goes out piece by piece; a string with a surrogate
    code point cannot be encoded, so the piece that holds it raises
    [UnicodeEncodeError] and the file keeps only what was written
    before. *)
Definition json_dump (doc : json) : content :=
  if encodable doc then Doc doc else Truncated doc.

(** [save_history]: the whole body sits in one [try] whose handler
    logs the exception and returns.  When [open] raises the world is
    as it was; when [json.dump] raises the file has already been
    emptied and stays cut short. *)
Definition save_history (cfg : config) (now : Z) (history : list json) (w : world)
  : world :=
  let history := slice_from (- MAX_HISTORY_ITEMS cfg) history in
  match write cfg now w (HISTORY_FILE cfg) (json_dump (JList history)) with
  | Return w' => w'
  | Raise _ => w
  end.

(** The dict [add_to_history] appends: [data] with the two clock
    fields set. *)
Definition history_entry (t : instant) (data : list (str * json)) : json :=
  JDict (dict_set (lit "id") (JStr (hex_id t))
           (dict_set (lit "timestamp") (JStr (isoformat t)) data)).

(** [add_to_history] has no handler of its own: when what was loaded
    is not a list, [history.append] raises. *)
Definition add_to_history (cfg : config) (t : instant) (data : list (str * json))
  (w : world) : result world :=
  match load_history cfg w with
  | JList history =>
      Return (save_history cfg (micros t) (history ++ [history_entry t data]) w)
  | other =>
      Raise (OtherError (lit "AttributeError")
               (lit "'" ++ type_name other ++ lit "' object has no attribute 'append'"))
  end.

(* ================================================================== *)
(** * clean_old_files *)
(* ================================================================== *)

Definition microseconds_per_day : Z := 86400000000.

(** Times are counted in microseconds of the server's local time from
    1970-01-01T00:00:00, the clock and the modification times of the
    files alike.  A [datetime] spans the years 1 to 9999. *)
Definition datetime_min : Z := - 62135596800000000.
Definition datetime_max : Z := 253402300799999999.

(** [timedelta(days=d)]: beyond 999999999 days either way it raises
    [OverflowError]. *)
Definition timedelta_days (d : Z) : option Z :=
  if Z.abs d <=? 999999999 then Some (d * microseconds_per_day) else None.

(** [t - delta] on a [datetime]: [OverflowError] when the result is no
    date of the years 1 to 9999. *)
Definition datetime_sub (t delta : Z) : option Z :=
  if (datetime_min <=? t - delta) && (t - delta <=? datetime_max)
  then Some (t - delta) else None.

(** [datetime.fromtimestamp(t)]: the local date of a time stamp.  It
    raises ([ValueError], [OverflowError] or [OSError]) when that date
    is outside the years 1 to 9999, and also within the first day of
    year 1, because it looks at the date one day earlier. *)
Definition fromtimestamp (t : Z) : option Z :=
  if (datetime_min + microseconds_per_day <=? t) && (t <=? datetime_max)
  then Some t else None.

(** [now - timedelta(days=MAX_FILE_AGE_DAYS)]; [None] when it raises. *)
Definition cutoff (cfg : config) (now : Z) : option Z :=
  match timedelta_days (MAX_FILE_AGE_DAYS cfg) with
  | Some delta => datetime_sub now delta
  | None => None
  end.

(** [file_path.is_file() and not file_path.name.startswith('.')]. *)
Definition listed (e : str * node) : bool :=
  match snd e with
  | RegularFile _ => negb (startswith (fst e) (lit "."))
  | Directory => false
  end.

(** [datetime.fromtimestamp(file_path.stat().st_mtime)].  The entry
    was listed and found to be a file a moment before, and the model
    serves one request at a time, so [stat] itself does not fail. *)
Definition file_time (e : str * node) : option Z :=
  match snd e with
  | RegularFile f => fromtimestamp (st_mtime f)
  | Directory => None
  end.

(** Whether [file_path.unlink()] succeeds. *)
Definition unlink_ok (e : str * node) : bool :=
  match snd e with
  | RegularFile f => removable f
  | Directory => false
  end.

(** One turn of the loop on the entry [e]: [Some true] when the file
    is unlinked, [Some false] when it is passed over, [None] when
    [fromtimestamp] or [unlink] raises. *)
Definition sweep_entry (cut : Z) (e : str * node) : option bool :=
  if listed e then
    match file_time e with
    | Some t =>
        if t <? cut then (if unlink_ok e then Some true else None)
        else Some false
    | None => None
    end
  else Some false.

(** The [for] loop over [glob] of the folder: the entries that remain,
    and the count of deletions, or [None] when an exception ended the
    loop.  (The handler of [clean_old_files] only logs the exception,
    so its class and text are not kept.) *)
Fixpoint sweep (cut : Z) (entries : list (str * node)) (deleted_count : Z)
  : list (str * node) * option Z :=
  match entries with
  | [] => ([], Some deleted_count)
  | e :: rest =>
      match sweep_entry cut e with
      | Some true => sweep cut rest (deleted_count + 1)
      | Some false =>
          let '(kept, outcome) := sweep cut rest deleted_count in
          (e :: kept, outcome)
      | None => (e :: rest, None)
      end
  end.

(** [clean_old_files]: when the cutoff cannot be computed the loop is
    never entered; otherwise whatever the loop did stays done.  The
    handler only logs. *)
Definition clean_old_files (cfg : config) (now : Z) (w : world) : world :=
  match cutoff cfg now with
  | Some cut =>
      {| folder := fst (sweep cut (folder w) 0); elsewhere := elsewhere w |}
  | None => w
  end.

(* ================================================================== *)
(** * Responses and the history endpoints *)
(* ================================================================== *)

Inductive response : Type :=
| Json (body : json)                            (* 200, JSON body *)
| HTTPException (status_code : Z) (detail : str)
| FileResponse (path filename : str) (sent : content)
| SendFailed.                                   (* the file could not be sent *)

Definition py_truthy (x : json) : bool :=
  match x with
  | JNull => false
  | JBool b => b
  | JInt z => negb (z =? 0)
  | JFloat m _ => negb (m =? 0)
  | JStr s => truthy s
  | JList l => match l with [] => false | _ => true end
  | JDict d => match d with [] => false | _ => true end
  end.

Definition type_error (what : str) (x : json) : exn :=
  OtherError (lit "TypeError") (lit "'" ++ type_name x ++ lit "' " ++ what).

(** [len(x)]. *)
Definition py_len (x : json) : result Z :=
  match x with
  | JStr s => Return (len s)
  | JList l => Return (len l)
  | JDict d => Return (len d)
  | _ => Raise (type_error (lit "has no len()") x)
  end.

(** [x[-1]]. *)
Definition py_last (x : json) : result json :=
  match x with
  | JStr s =>
      match rev s with
      | c :: _ => Return (JStr [c])
      | [] => Raise (OtherError (lit "IndexError") (lit "string index out of range"))
      end
  | JList l =>
      match rev l with
      | y :: _ => Return y
      | [] => Raise (OtherError (lit "IndexError") (lit "list index out of range"))
      end
  | JDict _ => Raise (OtherError (lit "KeyError") (lit "-1"))
  | _ => Raise (type_error (lit "object is not subscriptable") x)
  end.

(** [x[key]] for a string key. *)
Definition py_getitem (x : json) (key : str) : result json :=
  match x with
  | JDict d =>
      match dict_get key d with
      | Some v => Return v
      | None => Raise (OtherError (lit "KeyError") (lit "'" ++ key ++ lit "'"))
      end
  | JStr _ => Raise (OtherError (lit "TypeError") (lit "string indices must be integers"))
  | JList _ => Raise (OtherError (lit "TypeError") (lit "list indices must be integers or slices, not str"))
  | _ => Raise (type_error (lit "object is not subscriptable") x)
  end.

(** [x[-limit:][::-1]]. *)
Definition py_latest (limit : Z) (x : json) : result json :=
  match x with
  | JList l => Return (JList (rev (slice_from (- limit) l)))
  | JStr s => Return (JStr (rev (slice_from (- limit) s)))
  | JDict _ => Raise (OtherError (lit "TypeError") (lit "unhashable type: 'slice'"))
  | _ => Raise (type_error (lit "object is not subscriptable") x)
  end.

Definition get_history (cfg : config) (limit : Z) (w : world) : response :=
  match py_latest limit (load_history cfg w) with
  | Return latest => Json (JDict [(lit "history", latest)])
  | Raise _ => Json (JDict [(lit "history", JList [])])
  end.

(** [clear_history]: [save_history] never raises, so the handler's
    [except] branch with its status 500 cannot be reached. *)
Definition clear_history (cfg : config) (now : Z) (w : world) : response * world :=
  let w' := save_history cfg now [] w in
  (Json (JDict [(lit "success", JBool true);
                (lit "message", JStr (lit "History cleared successfully"))]),
   w').

(** [get_stats], without the two sizes it derives from [stat] and
    [statvfs] (rounded floats that do not depend on the history). *)
Record stats : Type := {
  total_downloads : Z;
  history_count : Z;
  last_download : json
}.

Definition stats_on_error : stats :=
  {| total_downloads := 0; history_count := 0; last_download := JNull |}.

Definition get_stats (cfg : config) (w : world) : stats :=
  let total_files := len (filter listed (folder w)) in
  let history := load_history cfg w in
  match py_len history with
  | Raise _ => stats_on_error
  | Return count =>
      let last :=
        if py_truthy history then
          match py_last history with
          | Return entry => py_getitem entry (lit "timestamp")
          | Raise e => Raise e
          end
        else Return JNull in
      match last with
      | Raise _ => stats_on_error
      | Return stamp =>
          {| total_downloads := total_files;
             history_count := count;
             last_download := stamp |}
      end
  end.

(* ================================================================== *)
(** * POST /download *)
(* ================================================================== *)

(** The options main.py passes to the extraction tool that depend on
    the request; the remaining ones are constants. *)
Record ydl_opts : Type := {
  opt_format : str;
  opt_outtmpl : str;
  opt_postprocessor : str
}.

(** The fields main.py reads from the dict [extract_info] returns. *)
Record info : Type := {
  title : option str;
  uploader : option str;
  duration : option Z;
  thumbnail : option str;
  view_count : option Z;
  height : option Z;
  width : option Z;
  fps : option Z;
  filesize : option Z;
  filesize_approx : option Z
}.

(** The extraction tool, an opaque collaborator: given the URL and the
    options it may change the world (it downloads into the folder) and
    either returns the info dict with the prepared file name or
    raises. *)
Definition extractor : Type :=
  str -> ydl_opts -> world -> result (info * str) * world.

(** [x or default]. *)
Definition str_or (x : option str) (default : str) : str :=
  match x with
  | Some s => if truthy s then s else default
  | None => default
  end.

Definition int_or (x : option Z) (default : Z) : Z :=
  match x with
  | Some z => if z =? 0 then default else z
  | None => default
  end.

(** [round(n / d, 2)] as the number of hundredths, ties to even. *)
Definition round_hundredths (n d : Z) : Z :=
  let q := (100 * n) / d in
  let r := (100 * n) mod d in
  if 2 * r >? d then q + 1
  else if 2 * r =? d then (if Z.even q then q else q + 1)
  else q.

Definition quality_info_of (format_type : str) (i : info) : str :=
  if str_eqb format_type (lit "video") then
    let h := int_or (height i) 0 in
    let w := int_or (width i) 0 in
    let f := int_or (fps i) 0 in
    if negb (h =? 0) && negb (w =? 0) then
      str_of_int w ++ lit "x" ++ str_of_int h ++
      (if negb (f =? 0) then lit " @" ++ str_of_int f ++ lit "fps" else [])
    else lit "Unknown"
  else lit "MP3 Audio (192kbps)".

Definition filesize_of (i : info) : Z :=
  int_or (filesize i) (int_or (filesize_approx i) 0).

Definition filesize_mb_of (size : Z) : json :=
  if size >? 0 then JFloat (round_hundredths size (1024 * 1024)) (-2) else JInt 0.

Definition make_opts (cfg : config) (t : instant) (quality format_type : str)
  : ydl_opts :=
  let timestamp := Z.quot (micros t) 1000000 in
  let filename_template := str_of_int timestamp ++ lit "_%(title).100s.%(ext)s" in
  {| opt_format := get_format_string quality format_type;
     opt_outtmpl := join (DOWNLOAD_FOLDER cfg) filename_template;
     opt_postprocessor :=
       if str_eqb format_type (lit "audio") then lit "FFmpegExtractAudio"
       else lit "FFmpegVideoConvertor" |}.

(** [basename] as the handler computes it from the prepared file
    name (the [.mp3] name for audio), sanitized. *)
Definition saved_basename (format_type prepared : str) : str :=
  let filename :=
    if str_eqb format_type (lit "audio")
    then rsplit_dot_head prepared ++ lit ".mp3"
    else prepared in
  sanitize_filename (basename filename) default_max_length.

Definition title_of (i : info) : str :=
  slice_to 150 (str_or (title i) (lit "Unknown")).

Definition uploader_of (i : info) : str :=
  slice_to 100 (str_or (uploader i) (lit "Unknown")).

(** The dict handed to [add_to_history]. *)
Definition download_entry (url format_type platform : str) (i : info)
  (prepared : str) : list (str * json) :=
  [ (lit "url", JStr url);
    (lit "title", JStr (title_of i));
    (lit "filename", JStr (saved_basename format_type prepared));
    (lit "platform", JStr platform);
    (lit "quality", JStr (quality_info_of format_type i));
    (lit "format", JStr format_type);
    (lit "size_mb", filesize_mb_of (filesize_of i));
    (lit "duration", JInt (int_or (duration i) 0)) ].

(** The dict of the success answer. *)
Definition download_answer (format_type platform : str) (i : info)
  (prepared : str) : json :=
  JDict
    [ (lit "success", JBool true);
      (lit "message", JStr (lit "Download completed successfully"));
      (lit "filename", JStr (saved_basename format_type prepared));
      (lit "download_url",
       JStr (lit "/media/" ++ saved_basename format_type prepared));
      (lit "metadata", JDict
         [ (lit "title", JStr (title_of i));
           (lit "uploader", JStr (uploader_of i));
           (lit "duration", JInt (int_or (duration i) 0));
           (lit "thumbnail", JStr (str_or (thumbnail i) []));
           (lit "quality", JStr (quality_info_of format_type i));
           (lit "format_type", JStr format_type);
           (lit "filesize", JInt (filesize_of i));
           (lit "platform", JStr platform);
           (lit "views", JInt (int_or (view_count i) 0)) ]) ].

(** The statements of the [try] block that follow a successful
    extraction, with the world they leave: the entry is handed to
    [add_to_history], then the answer is built, and [JSONResponse]
    renders it on the spot.  An exception leaves whatever was done
    before it. *)
Definition after_extraction (cfg : config) (t_done : instant)
  (url format_type platform : str) (i : info) (prepared : str) (w : world)
  : result response * world :=
  match add_to_history cfg t_done
          (download_entry url format_type platform i prepared) w with
  | Raise e => (Raise e, w)
  | Return w' =>
      match render (download_answer format_type platform i prepared) with
      | Return _ => (Return (Json (download_answer format_type platform i prepared)), w')
      | Raise e => (Raise e, w')
      end
  end.

(** The [try] block: extraction, then the statements above. *)
Definition download_try (cfg : config) (t_start t_done : instant) (ydl : extractor)
  (url quality format_type platform : str) (w : world)
  : result response * world :=
  match ydl url (make_opts cfg t_start quality format_type) w with
  | (Raise e, w1) => (Raise e, w1)
  | (Return (i, prepared), w1) =>
      after_extraction cfg t_done url format_type platform i prepared w1
  end.

Definition download_media (cfg : config) (t_start t_done : instant) (ydl : extractor)
  (url quality format_type : str) (w : world) : response * world :=
  if negb (startswith url (lit "http://") || startswith url (lit "https://")) then
    (HTTPException 400 (lit "URL must start with http:// or https://"), w)
  else
    let platform := get_platform_from_url url in
    match download_try cfg t_start t_done ydl url quality format_type platform w with
    | (Return resp, w') => (resp, w')
    | (Raise (DownloadError msg), w') =>
        (HTTPException 400 (lit "Download failed: " ++ msg), w')
    | (Raise e, w') =>
        (HTTPException 500 (lit "An unexpected error occurred: " ++ exn_str e), w')
    end.

(* ================================================================== *)
(** * GET and DELETE /media/{filename} *)
(* ================================================================== *)

Definition media_path (cfg : config) (filename : str) : str :=
  join (DOWNLOAD_FOLDER cfg) (basename filename).

(** [serve_media]: [FileResponse] opens the path when the response is
    sent; a path that cannot be read as a regular file fails there. *)
Definition serve_media (cfg : config) (filename : str) (w : world) : response :=
  let filename := basename filename in
  let file_path := join (DOWNLOAD_FOLDER cfg) filename in
  if negb (exists_ cfg w file_path) then
    HTTPException 404 (lit "File not found")
  else
    match read cfg w file_path with
    | Return c => FileResponse file_path filename c
    | Raise _ => SendFailed
    end.

Definition delete_media (cfg : config) (filename : str) (w : world)
  : response * world :=
  let filename := basename filename in
  let file_path := join (DOWNLOAD_FOLDER cfg) filename in
  if negb (exists_ cfg w file_path) then
    (HTTPException 404 (lit "File not found"), w)
  else
    match remove_path cfg w file_path with
    | Return w' =>
        (Json (JDict [(lit "success", JBool true);
                      (lit "message", JStr (lit "File deleted successfully"))]),
         w')
    | Raise e => (HTTPException 500 (exn_str e), w)
    end.

(* ================================================================== *)
(** * POST /cleanup and GET /list *)
(* ================================================================== *)

(** [cleanup_old_files]: [clean_old_files] never raises, so the
    handler's [except] branch with its status 500 cannot be reached. *)
Definition cleanup_old_files (cfg : config) (now : Z) (w : world) : response * world :=
  (Json (JDict [(lit "success", JBool true);
                (lit "message", JStr (lit "Cleanup completed"))]),
   clean_old_files cfg now w).

(** What [file_path.stat()] reports beside the modification time: the
    size in bytes and the change time, the latter already as the
    [isoformat()] of its local datetime. *)
Record stat_result : Type := {
  st_size : Z;
  st_ctime_iso : str
}.

(** [a < b] on [str]: lexicographic, by code point. *)
Fixpoint str_ltb (a b : str) : bool :=
  match a, b with
  | _, [] => false
  | [], _ :: _ => true
  | x :: a', y :: b' =>
      if (x <? y)%N then true
      else if (y <? x)%N then false
      else str_ltb a' b'
  end.

(** [sorted(l, key=key, reverse=True)]: descending by key, items with
    equal keys in their original order. *)
Fixpoint insert_desc {A} (key : A -> str) (x : A) (l : list A) : list A :=
  match l with
  | [] => [x]
  | y :: l' =>
      if str_ltb (key x) (key y) then y :: insert_desc key x l' else x :: l
  end.

Definition sorted_desc {A} (key : A -> str) (l : list A) : list A :=
  fold_right (insert_desc key) [] l.

(** The dict [list_downloads] builds for one file. *)
Definition file_record (stat : str * node -> stat_result) (e : str * node) : json :=
  JDict [ (lit "filename", JStr (fst e));
          (lit "size_mb", JFloat (round_hundredths (st_size (stat e)) (1024 * 1024)) (-2));
          (lit "created", JStr (st_ctime_iso (stat e)));
          (lit "download_url", JStr (lit "/media/" ++ fst e)) ].

(** [x['created']] of such a dict, the sort key. *)
Definition created_of (x : json) : str :=
  match x with
  | JDict d =>
      match dict_get (lit "created") d with
      | Some (JStr s) => s
      | _ => []
      end
  | _ => []
  end.

(** [list_downloads], with [stat] taken as never raising. *)
Definition list_downloads (stat : str * node -> stat_result) (w : world) : response :=
  Json (JDict [(lit "files",
                JList (sorted_desc created_of
                         (map (file_record stat) (filter listed (folder w)))))]).

(* ================================================================== *)
(** * Vocabulary of the statements *)
(* ================================================================== *)

(** The sanitizer in the words of the specification.  White space
    becomes the separator [_]; a run of dots or of underscores is
    squeezed to one by dropping every dot or underscore that the same
    character follows. *)
Definition as_separator (c : char) : char := if is_space c then underscore else c.

Fixpoint squeeze (s : str) : str :=
  match s with
  | a :: (b :: _) as t =>
      if is_dot_or_underscore a && N.eqb a b then squeeze t else a :: squeeze t
  | _ => s
  end.

(** The input without its reserved and control characters, white
    space turned into separators, runs of separators collapsed. *)
Definition collapsed (filename : str) : str :=
  squeeze (map as_separator (filter safe_char filename)).

(** The classifier in the words of the specification: the search is
    made in the URL itself, letter case aside.  [same_letter c d] says
    that [c] is the character [d] of a fragment or a capital of it:
    the letter 32 code points below, or the Kelvin sign U+212A for
    the letter k. *)
Definition same_letter (c d : char) : bool :=
  (c =? d)%N
  || ((65 <=? c)%N && (c <=? 90)%N && (c + 32 =? d)%N)
  || ((c =? 8490)%N && (d =? 107)%N).

Fixpoint starts_ci (s p : str) {struct p} : bool :=
  match p, s with
  | [], _ => true
  | d :: p', c :: s' => same_letter c d && starts_ci s' p'
  | _ :: _, [] => false
  end.

Fixpoint occurs_ci (fragment url : str) : bool :=
  starts_ci url fragment ||
  match url with
  | [] => false
  | _ :: t => occurs_ci fragment t
  end.

Fixpoint classify (table : list (str * list str)) (url : str) : str :=
  match table with
  | [] => lit "Other"
  | row :: rest =>
      if existsb (fun fragment => occurs_ci fragment url) (snd row)
      then fst row else classify rest url
  end.

(** A fragment as the table has them: every character is its own
    lower case and none is the combining dot U+0307, with which the
    lower case of U+0130 ends, and the last one is not the letter i,
    with which it begins. *)
Definition plain_fragment (fragment : str) : bool :=
  forallb (fun d => str_eqb (lower_char d) [d] && negb (d =? 775)%N) fragment
  && negb (last fragment 0 =? 105)%N.

(** The test the handler makes on the URL before anything else. *)
Definition valid_scheme (url : str) : bool :=
  startswith url (lit "http://") || startswith url (lit "https://").

(** The names a path walk does not descend into: the empty name, [.]
    and [..]. *)
Definition dot_name (b : str) : bool :=
  str_eqb b [] || str_eqb b (lit ".") || str_eqb b (lit "..").

(** No '/' in a name. *)
Definition slash_free (s : str) : Prop := Forall (fun c => c <> slash) s.

(** The node under the history file's name in the folder. *)
Definition history_node (w : world) : option node := lookup HISTORY_NAME (folder w).

(** The entries the history file holds, whether or not it can be
    read: those of a JSON list, none otherwise. *)
Definition stored_entries (w : world) : list json :=
  match history_node w with
  | Some (RegularFile f) =>
      match body f with
      | Doc (JList entries) => entries
      | _ => []
      end
  | _ => []
  end.

(** A file whose modification time is a date before the cutoff. *)
Definition expired (cut : Z) (e : str * node) : bool :=
  match file_time e with
  | Some t => t <? cut
  | None => false
  end.

(** The entries of the folder the sweep is meant to delete. *)
Definition sweepable (cut : Z) (e : str * node) : bool := listed e && expired cut e.

(** A listed file whose modification time [fromtimestamp] rejects. *)
Definition undated (e : str * node) : bool :=
  listed e && match file_time e with Some _ => false | None => true end.

(** An entry at which the loop does not raise: its date can be read,
    and it can be removed if it is to be deleted. *)
Definition passable (cut : Z) (e : str * node) : Prop :=
  undated e = false /\ (sweepable cut e = true -> unlink_ok e = true).


(** The operations of the system that can change the world, and the
    world each leaves behind.  (The read-only handlers return a
    response and no world; POST /download is the extraction tool's
    run followed, on success, by [add_to_history].) *)
Inductive operation : Type :=
| AddToHistory (t : instant) (data : list (str * json))
| ClearHistory (now : Z)
| CleanOldFiles (now : Z)
| DeleteMedia (filename : str).

Definition run (cfg : config) (op : operation) (w : world) : world :=
  match op with
  | AddToHistory t data =>
      match add_to_history cfg t data w with
      | Return w' => w'
      | Raise _ => w
      end
  | ClearHistory now => snd (clear_history cfg now w)
  | CleanOldFiles now => clean_old_files cfg now w
  | DeleteMedia filename => snd (delete_media cfg filename w)
  end.

(** The history file is absent, or a regular file that can be both
    read and written. *)
Definition history_usable (w : world) : Prop :=
  history_node w = None
  \/ exists f, history_node w = Some (RegularFile f)
               /\ readable f = true /\ writable f = true.

(** A name a folder can list: not empty, no separator. *)
Definition entry_name (name : str) : Prop := name <> [] /\ slash_free name.

(** One step of an append-only, trimmed log: at most one entry is
    added at the end, and what is kept is a tail of the result, each
    entry as it was. *)
Definition history_step (before after : list json) : Prop :=
  exists new k, (List.length new <= 1)%nat /\ after = skipn k (before ++ new).

(* ================================================================== *)
(** * Sample values for the concrete cases *)
(* ================================================================== *)

Definition empty_world : world := {| folder := []; elsewhere := [] |}.

Definition zero_cap_config : config :=
  {| DOWNLOAD_FOLDER := lit "downloads";
     MAX_FILE_AGE_DAYS := 1;
     MAX_HISTORY_ITEMS := 0 |}.

Definition first_instant : instant :=
  {| micros := 1700000000000000;
     isoformat := lit "2023-11-14T22:13:20.000000";
     hex_id := lit "0a1b2c3d" |}.

Definition second_instant : instant :=
  {| micros := 1700000060000000;
     isoformat := lit "2023-11-14T22:14:20.000000";
     hex_id := lit "4e5f6071" |}.

Definition sample_data (name : string) : list (str * json) :=
  [(lit "url", JStr (lit "https://youtu.be/" ++ lit name));
   (lit "title", JStr (lit name))].

Definition first_entry : json := history_entry first_instant (sample_data "one").
Definition second_entry : json := history_entry second_instant (sample_data "two").

(** A folder that holds only a history file with the given entries. *)
Definition history_only (entries : list json) (can_write : bool) : world :=
  {| folder :=
       [(HISTORY_NAME,
         RegularFile {| body := Doc (JList entries); st_mtime := 0;
                        readable := true; writable := can_write;
                        removable := true |})];
     elsewhere := [] |}.

(** A media file of the given age. *)
Definition media_file (mtime : Z) (can_remove : bool) : node :=
  RegularFile {| body := Blob [0%N; 1%N; 2%N]; st_mtime := mtime;
                 readable := true; writable := true;
                 removable := can_remove |}.

(** Two days after the epoch, with the default age of one day: the
    cutoff is day one. *)
Definition day : Z := microseconds_per_day.

(** Two expired media files, the first of which cannot be removed. *)
Definition stuck_folder : world :=
  {| folder := [(lit "a.mp4", media_file 0 false);
                (lit "b.mp4", media_file 0 true)];
     elsewhere := [] |}.

(** A file stamped with a time beyond the year 9999, then an expired
    file. *)
Definition undated_folder : world :=
  {| folder := [(lit "future.mp4", media_file (400000000000 * 1000000) true);
                (lit "old.mp4", media_file 0 true)];
     elsewhere := [] |}.

(** An age of minus three million days. *)
Definition far_future_config : config :=
  {| DOWNLOAD_FOLDER := lit "downloads";
     MAX_FILE_AGE_DAYS := - 3000000;
     MAX_HISTORY_ITEMS := 100 |}.

(** An expired file, a fresh file, a hidden file and the history. *)
Definition mixed_folder : world :=
  {| folder := [(lit "old.mp4", media_file 0 true);
                (lit "new.mp4", media_file (2 * day) true);
                (lit ".hidden", media_file 0 true);
                (HISTORY_NAME,
                 RegularFile {| body := Doc (JList [first_entry]); st_mtime := 0;
                                readable := true; writable := true;
                                removable := true |})];
     elsewhere := [] |}.

(** A folder with one media file, and a file outside the folder. *)
Definition outside_path : npath :=
  {| absolute := false; ups := 0; rcomps := [lit "secret.txt"] |}.

Definition guarded_world : world :=
  {| folder := [(lit "clip.mp4", media_file 0 true)];
     elsewhere := [(outside_path,
                    {| body := Blob [7%N]; st_mtime := 0; readable := true;
                       writable := true; removable := true |})] |}.


Definition sample_info : info :=
  {| title := Some (lit "clip"); uploader := None; duration := Some 12;
     thumbnail := None; view_count := None; height := Some 720;
     width := Some 1280; fps := Some 30; filesize := Some 1572864;
     filesize_approx := None |}.

Definition working_extractor : extractor :=
  fun _ _ w =>
    (Return (sample_info, lit "downloads/1700000000_clip.mp4"),
     {| folder := folder w ++ [(lit "1700000000_clip.mp4", media_file 0 true)];
        elsewhere := elsewhere w |}).

(** A download whose uploader name holds half of a surrogate pair
    (U+D83D, the first half of an emoji), as the JSON of a site can
    carry it. *)
Definition surrogate_info : info :=
  {| title := Some (lit "clip"); uploader := Some [55357%N]; duration := Some 12;
     thumbnail := None; view_count := None; height := Some 720;
     width := Some 1280; fps := Some 30; filesize := Some 1572864;
     filesize_approx := None |}.

Definition surrogate_extractor : extractor :=
  fun _ _ w =>
    (Return (surrogate_info, lit "downloads/1700000000_clip.mp4"),
     {| folder := folder w ++ [(lit "1700000000_clip.mp4", media_file 0 true)];
        elsewhere := elsewhere w |}).

(** The data of a download whose title holds a lone surrogate. *)
Definition surrogate_data : list (str * json) :=
  [(lit "url", JStr (lit "https://youtu.be/two"));
   (lit "title", JStr [55357%N])].

(** A history file that holds a JSON object instead of a list. *)
Definition object_history : world :=
  {| folder :=
       [(HISTORY_NAME,
         RegularFile {| body := Doc (JDict [(lit "note", JStr (lit "by hand"))]);
                        st_mtime := 0; readable := true; writable := true;
                        removable := true |})];
     elsewhere := [] |}.

(* ================================================================== *)
(** * Facts about the Python primitives *)
(* ================================================================== *)


Lemma len_nonneg {A} (l : list A) : 0 <= len l.
Proof. unfold len. lia. Qed.

Lemma len_app {A} (a b : list A) : len (a ++ b) = len a + len b.
Proof. unfold len. rewrite length_app. lia. Qed.

Lemma clamp_le (n i : Z) : 0 <= n -> Z.of_nat (clamp n i) <= n.
Proof.
  intros Hn. unfold clamp.
  destruct (i <? 0) eqn:E; [apply Z.ltb_lt in E | apply Z.ltb_ge in E]; lia.
Qed.

(** [l[-k:]] for a positive [k] is the last [k] items, or all of them. *)
Lemma slice_from_last {A} (k : Z) (l : list A) :
  0 < k ->
  slice_from (- k) l = skipn (List.length l - Z.to_nat k) l.
Proof.
  intros Hk. unfold slice_from, clamp, len.
  destruct (- k <? 0) eqn:E; [| apply Z.ltb_ge in E; lia].
  f_equal. lia.
Qed.

(** [l[-0:]] is the whole list. *)
Lemma slice_from_zero {A} (l : list A) : slice_from (- 0) l = l.
Proof.
  unfold slice_from, clamp. cbn [Z.opp Z.ltb Z.compare].
  rewrite Z.min_l by apply len_nonneg. reflexivity.
Qed.

Lemma slice_from_nil {A} (i : Z) : slice_from i (@nil A) = [].
Proof. unfold slice_from. apply skipn_nil. Qed.

(** Every [l[i:]] is a tail of [l]. *)
Lemma slice_from_tail {A} (i : Z) (l : list A) :
  exists k, slice_from i l = skipn k l.
Proof. unfold slice_from. eauto. Qed.

Lemma slice_to_length {A} (i : Z) (l : list A) :
  0 <= i -> len (slice_to i l) <= i.
Proof.
  intros Hi. unfold slice_to, len, clamp.
  rewrite length_firstn.
  destruct (i <? 0) eqn:E; [apply Z.ltb_lt in E; lia |]. lia.
Qed.

Lemma slice_from_last_snoc {A} (k : Z) (l : list A) (e : A) :
  0 < k -> exists l', slice_from (- k) (l ++ [e]) = l' ++ [e].
Proof.
  intros Hk. rewrite (slice_from_last k _ Hk).
  exists (skipn (List.length (l ++ [e]) - Z.to_nat k) l).
  rewrite skipn_app, length_app. cbn [List.length].
  replace (List.length l + 1 - Z.to_nat k - List.length l)%nat with 0%nat by lia.
  reflexivity.
Qed.

Lemma str_eqb_eq (a b : str) : str_eqb a b = true <-> a = b.
Proof.
  revert b. induction a as [| x a IH]; intros [| y b]; simpl;
    try (split; [discriminate | discriminate]); [tauto |].
  rewrite andb_true_iff, N.eqb_eq, IH.
  split; [intros [-> ->]; reflexivity | intros E; inversion E; tauto].
Qed.

Lemma str_eqb_refl (a : str) : str_eqb a a = true.
Proof. apply str_eqb_eq. reflexivity. Qed.

Lemma str_eqb_neq (a b : str) : a <> b -> str_eqb a b = false.
Proof.
  intros Hne. destruct (str_eqb a b) eqn:E; [| reflexivity].
  apply str_eqb_eq in E. contradiction.
Qed.

(** The last occurrence of a character, if there is one. *)
Lemma rfind_spec (c : char) (s : str) :
  (rfind c s = -1 /\ Forall (fun x => x <> c) s)
  \/ (exists a b, s = a ++ c :: b /\ Forall (fun x => x <> c) b /\ rfind c s = len a).
Proof.
  induction s as [| x t IH]; simpl.
  - left. split; [reflexivity | constructor].
  - destruct IH as [[Hr Hfree] | (a & b & Hs & Hfree & Hr)].
    + rewrite Hr. simpl.
      destruct (N.eqb x c) eqn:E.
      * apply N.eqb_eq in E. subst x. right. exists [], t. auto.
      * apply N.eqb_neq in E. left. split; [reflexivity | constructor; assumption].
    + right. exists (x :: a), b. subst t. split; [reflexivity |]. split; [exact Hfree |].
      rewrite Hr. pose proof (len_nonneg a) as Hn.
      destruct (len a <? 0) eqn:E; [apply Z.ltb_lt in E; lia |].
      unfold len. simpl List.length. lia.
Qed.

Lemma rfind_lower (c : char) (s : str) : -1 <= rfind c s.
Proof.
  destruct (rfind_spec c s) as [[-> _] | (a & b & _ & _ & ->)]; [lia |].
  pose proof (len_nonneg a). lia.
Qed.

Lemma first_match_none (table : list (str * list str)) (hay : str) :
  (forall row, In row table -> row_matches hay row = false) ->
  first_match table hay = lit "Other".
Proof.
  induction table as [| row rest IH]; intros Hnone; simpl.
  - reflexivity.
  - rewrite (Hnone row (or_introl eq_refl)).
    apply IH. intros r Hr. apply Hnone. right. exact Hr.
Qed.

Lemma first_match_hit (pre post : list (str * list str)) (row : str * list str)
  (hay : str) :
  (forall r, In r pre -> row_matches hay r = false) ->
  row_matches hay row = true ->
  first_match (pre ++ row :: post) hay = fst row.
Proof.
  induction pre as [| r pre IH]; intros Hpre Hrow; simpl.
  - rewrite Hrow. reflexivity.
  - rewrite (Hpre r (or_introl eq_refl)).
    apply IH; [| exact Hrow]. intros r' Hr'. apply Hpre. right. exact Hr'.
Qed.

Lemma get_platform_scan (url : str) :
  get_platform_from_url url = first_match platform_table (lower url).
Proof.
  unfold get_platform_from_url, platform_table.
  cbn [first_match row_matches existsb snd fst].
  rewrite !orb_false_r. reflexivity.
Qed.

(* ================================================================== *)
(** * The platform classifier *)
(* ================================================================== *)

Lemma classify_none (table : list (str * list str)) (url : str) :
  (forall row fragment, In row table -> In fragment (snd row) ->
     occurs_ci fragment url = false) ->
  classify table url = lit "Other".
Proof.
  induction table as [| row rest IH]; intros Hnone; cbn [classify].
  - reflexivity.
  - destruct (existsb _ (snd row)) eqn:E.
    + apply existsb_exists in E as (fragment & Hin & Hocc).
      rewrite (Hnone row fragment (or_introl eq_refl) Hin) in Hocc. discriminate.
    + apply IH. intros r f Hr. apply Hnone. right. exact Hr.
Qed.

Lemma classify_hit (pre post : list (str * list str)) (row : str * list str)
  (fragment url : str) :
  (forall r f, In r pre -> In f (snd r) -> occurs_ci f url = false) ->
  In fragment (snd row) ->
  occurs_ci fragment url = true ->
  classify (pre ++ row :: post) url = fst row.
Proof.
  intros Hpre Hin Hocc.
  induction pre as [| r pre IH]; cbn [app classify].
  - assert (E : existsb (fun f => occurs_ci f url) (snd row) = true)
      by (apply existsb_exists; eauto).
    rewrite E. reflexivity.
  - destruct (existsb _ (snd r)) eqn:E.
    + apply existsb_exists in E as (f & Hf & Hocc').
      rewrite (Hpre r f (or_introl eq_refl) Hf) in Hocc'. discriminate.
    + apply IH. intros r' f Hr'. apply Hpre. right. exact Hr'.
Qed.

(** What the search letter case aside finds: a piece of the URL that
    matches the fragment character by character. *)
Lemma starts_ci_spec (p s : str) :
  starts_ci s p = true
  <-> exists v post, s = v ++ post /\ Forall2 (fun c d => same_letter c d = true) v p.
Proof.
  revert s. induction p as [| d p IH]; intros s.
  - split; [| reflexivity]. intros _. exists [], s. split; [reflexivity | constructor].
  - destruct s as [| c s]; cbn [starts_ci].
    + split; [discriminate |].
      intros (v & post & Hs & Hv). inversion Hv; subst. discriminate.
    + rewrite andb_true_iff, IH. split.
      * intros (Hc & v & post & -> & Hv). exists (c :: v), post.
        split; [reflexivity | constructor; assumption].
      * intros (v & post & Hs & Hv). inversion Hv as [| c' d' v' p' Hc Hv']; subst.
        inversion Hs; subst. eauto.
Qed.

Lemma occurs_ci_spec (fragment url : str) :
  occurs_ci fragment url = true
  <-> exists pre v post,
        url = pre ++ v ++ post
        /\ Forall2 (fun c d => same_letter c d = true) v fragment.
Proof.
  induction url as [| c t IH]; cbn [occurs_ci].
  - rewrite orb_false_r, starts_ci_spec. split.
    + intros (v & post & Hs & Hv). exists [], v, post. auto.
    + intros (pre & v & post & Hs & Hv).
      destruct pre; [| discriminate]. exists v, post. split; assumption.
  - rewrite orb_true_iff, starts_ci_spec, IH. split.
    + intros [(v & post & Hs & Hv) | (pre & v & post & -> & Hv)].
      * exists [], v, post. auto.
      * exists (c :: pre), v, post. auto.
    + intros (pre & v & post & Hs & Hv). destruct pre as [| c' pre].
      * left. exists v, post. split; assumption.
      * right. inversion Hs; subst. exists pre, v, post. split; [reflexivity | assumption].
Qed.

Lemma lower_char_fixed (d : char) :
  lower_char d = [d] ->
  ((d < 65)%N \/ (90 < d)%N) /\ d <> 304%N /\ d <> 8490%N.
Proof.
  unfold lower_char.
  destruct (65 <=? d)%N eqn:E1; destruct (d <=? 90)%N eqn:E2; cbn [andb];
    try apply N.leb_le in E1; try apply N.leb_gt in E1;
    try apply N.leb_le in E2; try apply N.leb_gt in E2;
    try (intros H; inversion H; lia);
    (destruct (d =? 304)%N eqn:E3; [discriminate |]; apply N.eqb_neq in E3;
     destruct (d =? 8490)%N eqn:E4;
     [apply N.eqb_eq in E4; subst d; discriminate | apply N.eqb_neq in E4];
     intros _; repeat split; auto).
Qed.

(** A character of a plain fragment is met, letter case aside, by
    exactly the characters whose lower case it is. *)
Lemma same_letter_lower (c d x : char) :
  lower_char d = [d] -> lower_char c = [x] -> (d =? x)%N = same_letter c d.
Proof.
  intros Hd Hc. apply lower_char_fixed in Hd as (Hrange & H304 & H8490).
  unfold lower_char in Hc. unfold same_letter.
  destruct (65 <=? c)%N eqn:E1; destruct (c <=? 90)%N eqn:E2; cbn [andb] in *;
    try apply N.leb_le in E1; try apply N.leb_gt in E1;
    try apply N.leb_le in E2; try apply N.leb_gt in E2.
  1: { inversion Hc. subst x.
       destruct (c =? d)%N eqn:Ecd; [apply N.eqb_eq in Ecd; lia |].
       destruct (c =? 8490)%N eqn:Ek; [apply N.eqb_eq in Ek; lia |].
       cbn [orb andb]. rewrite orb_false_r. apply N.eqb_sym. }
  all: destruct (c =? 304)%N; [discriminate |];
       destruct (c =? 8490)%N eqn:Ek;
       [ apply N.eqb_eq in Ek; subst c; inversion Hc; subst x;
         destruct (8490 =? d)%N eqn:Ed; [apply N.eqb_eq in Ed; congruence |];
         reflexivity
       | inversion Hc; subst x; cbn [andb]; rewrite !orb_false_r;
         apply N.eqb_sym ].
Qed.

(** The capital dotted I lower-cases to two characters and meets no
    character of a plain fragment. *)
Lemma same_letter_dotted (d : char) :
  lower_char d = [d] -> same_letter 304%N d = false.
Proof.
  intros Hd. apply lower_char_fixed in Hd as (_ & H304 & _).
  unfold same_letter. change ((65 <=? 304)%N && (304 <=? 90)%N) with false.
  change (304 =? 8490)%N with false. cbn [andb]. rewrite !orb_false_r.
  apply N.eqb_neq. congruence.
Qed.

Lemma plain_fragment_cons (d : char) (p : str) :
  plain_fragment (d :: p) = true ->
  lower_char d = [d] /\ d <> 775%N
  /\ (p = [] -> d <> 105%N)
  /\ (p <> [] -> plain_fragment p = true).
Proof.
  unfold plain_fragment. cbn [forallb]. intros H.
  apply andb_true_iff in H as [H Hlast].
  apply andb_true_iff in H as [Hd Hp].
  apply andb_true_iff in Hd as [Hfix H775].
  apply str_eqb_eq in Hfix. apply negb_true_iff, N.eqb_neq in H775.
  apply negb_true_iff, N.eqb_neq in Hlast.
  split; [exact Hfix |]. split; [exact H775 |]. split.
  - intros ->. exact Hlast.
  - intros Hne. rewrite Hp. cbn [andb]. apply negb_true_iff, N.eqb_neq.
    destruct p; [congruence | exact Hlast].
Qed.

(** At the head of the lower-cased URL a plain fragment is found
    exactly when it is found, letter case aside, at the head of the
    URL. *)
Lemma startswith_lower (p s : str) :
  plain_fragment p = true -> startswith (lower s) p = starts_ci s p.
Proof.
  revert s. induction p as [| d p IH]; intros s Hp; [reflexivity |].
  destruct (plain_fragment_cons d p Hp) as (Hfix & H775 & Hlast & Htail).
  assert (IH' : forall s', startswith (lower s') p = starts_ci s' p).
  { intros s'. destruct p as [| d' p']; [reflexivity |].
    apply IH, Htail. discriminate. }
  destruct s as [| c s]; [reflexivity |].
  unfold lower. cbn [flat_map]. fold (lower s). cbn [starts_ci].
  destruct (c =? 304)%N eqn:E304.
  - apply N.eqb_eq in E304. subst c.
    change (lower_char 304%N) with [105%N; 775%N]. cbn [app startswith].
    rewrite (same_letter_dotted d Hfix). cbn [andb].
    destruct p as [| d' p'].
    + cbn [startswith]. rewrite andb_true_r. apply N.eqb_neq. auto.
    + destruct (plain_fragment_cons d' p' (Htail ltac:(discriminate)))
        as (_ & H775' & _).
      cbn [startswith]. apply N.eqb_neq in H775'. rewrite H775'.
      cbn [andb]. apply andb_false_r.
  - assert (Hx : exists x, lower_char c = [x]).
    { unfold lower_char. rewrite E304.
      destruct (_ && _); [eauto |]. destruct (c =? 8490)%N; eauto. }
    destruct Hx as [x Hx]. rewrite Hx. cbn [app startswith].
    rewrite (same_letter_lower c d x Hfix Hx), IH'. reflexivity.
Qed.

(** The test of the code, made on the lower-cased URL, is the search
    letter case aside in the URL itself. *)
Lemma str_in_lower (fragment url : str) :
  plain_fragment fragment = true ->
  str_in fragment (lower url) = occurs_ci fragment url.
Proof.
  intros Hp. induction url as [| c t IH].
  - cbn [lower flat_map str_in occurs_ci].
    rewrite <- (startswith_lower fragment [] Hp). reflexivity.
  - cbn [occurs_ci]. rewrite <- IH, <- (startswith_lower fragment (c :: t) Hp).
    unfold lower. cbn [flat_map]. fold (lower t).
    destruct (c =? 304)%N eqn:E304.
    + apply N.eqb_eq in E304. subst c.
      change (lower_char 304%N) with [105%N; 775%N]. cbn [app str_in].
      destruct fragment as [| d p]; [reflexivity |].
      destruct (plain_fragment_cons d p Hp) as (_ & H775 & _).
      cbn [startswith]. apply N.eqb_neq in H775. rewrite H775.
      cbn [andb orb]. reflexivity.
    + assert (Hx : exists x, lower_char c = [x]).
      { unfold lower_char. rewrite E304.
        destruct (_ && _); [eauto |]. destruct (c =? 8490)%N; eauto. }
      destruct Hx as [x ->]. reflexivity.
Qed.

(** The classifier searches the URL itself, letter case aside. *)
Lemma get_platform_classify (url : str) :
  get_platform_from_url url = classify platform_table url.
Proof.
  unfold get_platform_from_url, platform_table.
  cbn [classify existsb snd fst].
  rewrite !str_in_lower by reflexivity.
  rewrite !orb_false_r. reflexivity.
Qed.

(** C3.  [get_platform_from_url] searches the URL itself, letter case
    aside, for the fragments of the fixed table YouTube, TikTok,
    Instagram, Twitter/X, Facebook, Vimeo, Reddit, Twitch, from the top:
    a fragment is found when a piece of the URL matches it character by
    character, each character being the fragment's own or a capital of
    it; the first row with a fragment that is found gives the label,
    and when no fragment of any row is found the label is Other.  The
    code makes the search in the lower-cased URL, so URLs with the same
    lower-case form get the same label. *)
Theorem get_platform_from_url_first_match (url : str) :
  get_platform_from_url url = first_match platform_table (lower url)
  /\ (forall url', lower url' = lower url ->
        get_platform_from_url url' = get_platform_from_url url)
  /\ (forall pre row post,
        platform_table = pre ++ row :: post ->
        (forall r, In r pre -> row_matches (lower url) r = false) ->
        row_matches (lower url) row = true ->
        get_platform_from_url url = fst row)
  /\ ((forall row, In row platform_table -> row_matches (lower url) row = false) ->
        get_platform_from_url url = lit "Other")
  /\ get_platform_from_url url = classify platform_table url
  /\ (forall row fragment,
        In row platform_table -> In fragment (snd row) ->
        str_in fragment (lower url) = occurs_ci fragment url)
  /\ (forall fragment,
        occurs_ci fragment url = true
        <-> exists before piece after,
              url = before ++ piece ++ after
              /\ Forall2 (fun c d => same_letter c d = true) piece fragment)
  /\ (forall pre row post fragment before piece after,
        platform_table = pre ++ row :: post ->
        In fragment (snd row) ->
        url = before ++ piece ++ after ->
        Forall2 (fun c d => same_letter c d = true) piece fragment ->
        (forall r f, In r pre -> In f (snd r) -> occurs_ci f url = false) ->
        get_platform_from_url url = fst row)
  /\ ((forall row fragment, In row platform_table -> In fragment (snd row) ->
         occurs_ci fragment url = false) ->
        get_platform_from_url url = lit "Other").
Proof.
  split; [apply get_platform_scan |].
  split.
  { intros url' Hcase. rewrite !get_platform_scan, Hcase. reflexivity. }
  split.
  { intros pre row post Htable Hpre Hrow.
    rewrite get_platform_scan, Htable.
    apply first_match_hit; assumption. }
  split.
  { intros Hnone. rewrite get_platform_scan.
    apply first_match_none. exact Hnone. }
  split; [apply get_platform_classify |].
  split.
  { intros row fragment Hrow Hfragment. apply str_in_lower.
    unfold platform_table in Hrow. cbn [In] in Hrow.
    repeat (destruct Hrow as [<- | Hrow];
            [cbn [snd In] in Hfragment;
             repeat (destruct Hfragment as [<- | Hfragment]; [reflexivity |]);
             destruct Hfragment |]).
    destruct Hrow. }
  split; [intros fragment; apply occurs_ci_spec |].
  split.
  { intros pre row post fragment before piece after Htable Hin Hurl Hpiece Hpre.
    rewrite get_platform_classify, Htable.
    apply (classify_hit pre post row fragment url Hpre Hin).
    apply occurs_ci_spec. exists before, piece, after. auto. }
  intros Hnone. rewrite get_platform_classify.
  apply classify_none. exact Hnone.
Qed.

(** A mixed-case TikTok address that also mentions a later platform:
    the piece [TikTok.com] of the URL matches the fragment of the
    TikTok row, and no fragment of the YouTube row above it is found. *)
Lemma get_platform_from_url_first_match_witness :
  get_platform_from_url (lit "https://WWW.TikTok.com/@u?ref=vimeo.com") = lit "TikTok".
Proof.
  destruct (get_platform_from_url_first_match
              (lit "https://WWW.TikTok.com/@u?ref=vimeo.com"))
    as (_ & _ & _ & _ & _ & _ & _ & Hhit & _).
  apply (Hhit [(lit "YouTube", [lit "youtube.com"; lit "youtu.be"])]
              (lit "TikTok", [lit "tiktok.com"])
              (skipn 2 platform_table)
              (lit "tiktok.com")
              (lit "https://WWW.") (lit "TikTok.com") (lit "/@u?ref=vimeo.com")).
  - reflexivity.
  - left. reflexivity.
  - reflexivity.
  - repeat constructor.
  - intros r f [<- | []] [<- | [<- | []]]; vm_compute; reflexivity.
Defined.

(** Letter case aside goes by the lower case of Python: the Kelvin
    sign counts as the letter k, and the capital dotted I, whose lower
    case is two characters, does not count as the letter i. *)
Lemma get_platform_from_url_letters :
  get_platform_from_url (lit "https://ti" ++ [8490%N] ++ lit "tok.com/") = lit "TikTok"
  /\ get_platform_from_url (lit "https://" ++ [304%N] ++ lit "nstagram.com/")
     = lit "Other"
  /\ get_platform_from_url (lit "https://example.org/") = lit "Other".
Proof. repeat split; vm_compute; reflexivity. Qed.

(* ================================================================== *)
(** * The filename sanitizer *)
(* ================================================================== *)

Lemma Forall_sub_runs (Q : char -> Prop) (p : char -> bool) (r : char) (s : str) :
  Q r -> Forall Q s -> Forall Q (sub_runs p r s).
Proof.
  intros Hr. induction s as [| c t IH]; intros Hs; simpl.
  - constructor.
  - inversion Hs as [| ? ? Hc Ht]; subst.
    destruct (p c).
    + destruct t as [| c' t']; [constructor; [exact Hr | constructor] |].
      destruct (p c'); [apply IH; exact Ht |].
      constructor; [exact Hr | apply IH; exact Ht].
    + constructor; [exact Hc | apply IH; exact Ht].
Qed.

Lemma lstrip_tail (p : char -> bool) (s : str) :
  exists a, s = a ++ lstrip p s.
Proof.
  induction s as [| c t [a Ha]]; simpl.
  - exists []. reflexivity.
  - destruct (p c).
    + exists (c :: a). simpl. f_equal. exact Ha.
    + exists []. reflexivity.
Qed.

(** What [strip] returns is a contiguous piece of its argument. *)
Lemma strip_segment (p : char -> bool) (s : str) :
  exists a b, s = a ++ strip p s ++ b.
Proof.
  unfold strip, rstrip.
  destruct (lstrip_tail p s) as [a Ha].
  destruct (lstrip_tail p (rev (lstrip p s))) as [b Hb].
  exists a, (rev b).
  rewrite <- rev_app_distr, <- Hb, rev_involutive. exact Ha.
Qed.

Lemma lstrip_head (p : char -> bool) (s : str) :
  lstrip p s = [] \/ exists c t, lstrip p s = c :: t /\ p c = false.
Proof.
  induction s as [| c t IH]; cbn [lstrip]; [left; reflexivity |].
  destruct (p c) eqn:E; [exact IH | right; eauto].
Qed.

(** What [strip] returns is empty, or begins and ends with a
    character outside the stripped class. *)
Lemma strip_ends (p : char -> bool) (s : str) :
  strip p s = []
  \/ (exists c t, strip p s = c :: t /\ p c = false)
     /\ (exists u d, strip p s = u ++ [d] /\ p d = false).
Proof.
  unfold strip, rstrip.
  destruct (lstrip_head p (rev (lstrip p s))) as [-> | (d & t & Hv & Hd)];
    [left; reflexivity |].
  right. rewrite Hv. cbn [rev]. split; [| eauto].
  destruct (lstrip_tail p (rev (lstrip p s))) as [a Ha].
  rewrite Hv in Ha. apply (f_equal (@rev char)) in Ha.
  rewrite rev_involutive, rev_app_distr in Ha. cbn [rev] in Ha.
  destruct (lstrip_head p s) as [Hnil | (c & u & Hu & Hc)].
  - rewrite Hnil in Ha. destruct (rev t); discriminate.
  - rewrite Hu in Ha.
    destruct (rev t ++ [d]) as [| c' u'] eqn:Ert;
      [destruct (rev t); discriminate |].
    cbn [app] in Ha. inversion Ha. subst c'. eauto.
Qed.

Lemma Forall_strip (Q : char -> Prop) (p : char -> bool) (s : str) :
  Forall Q s -> Forall Q (strip p s).
Proof.
  intros Hs. destruct (strip_segment p s) as (a & b & Hab).
  rewrite Hab in Hs.
  apply Forall_app in Hs as [_ Hs]. apply Forall_app in Hs as [Hs _]. exact Hs.
Qed.

Lemma has_run_app (p : char -> bool) (a b : str) :
  has_run p (a ++ b) = false -> has_run p a = false /\ has_run p b = false.
Proof.
  induction a as [| x a IH]; intros H.
  - split; [reflexivity | exact H].
  - destruct a as [| y a'].
    + split; [reflexivity |].
      destruct b as [| z b']; [reflexivity |].
      simpl in H. apply orb_false_iff in H as [_ H]. exact H.
    + change (((p x && p y) || has_run p ((y :: a') ++ b)) = false) in H.
      apply orb_false_iff in H as [Hxy H].
      destruct (IH H) as [Ha Hb].
      split; [| exact Hb].
      change (((p x && p y) || has_run p (y :: a')) = false).
      rewrite Hxy, Ha. reflexivity.
Qed.

Lemma has_run_strip (q p : char -> bool) (s : str) :
  has_run q s = false -> has_run q (strip p s) = false.
Proof.
  intros Hs. destruct (strip_segment p s) as (a & b & Hab).
  rewrite Hab in Hs.
  apply has_run_app in Hs as [_ Hs]. apply has_run_app in Hs as [Hs _]. exact Hs.
Qed.

Lemma sub_runs_head (p : char -> bool) (r c : char) (t : str) :
  exists t', sub_runs p r (c :: t) = (if p c then r else c) :: t'.
Proof.
  revert c. induction t as [| c' t IH]; intros c.
  - simpl. destruct (p c); eauto.
  - destruct (IH c') as [t' Ht'].
    change (sub_runs p r (c :: c' :: t))
      with (if p c then (if p c' then sub_runs p r (c' :: t)
                         else r :: sub_runs p r (c' :: t))
            else c :: sub_runs p r (c' :: t)).
    destruct (p c) eqn:Ec; [| eauto].
    destruct (p c') eqn:Ec'; eauto.
Qed.

(** After [re.sub('[class]+', r, s)] with [r] itself in the class, no
    two neighbours are both in the class. *)
Lemma sub_runs_no_run (p : char -> bool) (r : char) (s : str) :
  has_run p (sub_runs p r s) = false.
Proof.
  induction s as [| c t IH]; [reflexivity |].
  destruct t as [| c' t'].
  - simpl. destruct (p c); reflexivity.
  - change (sub_runs p r (c :: c' :: t'))
      with (if p c then (if p c' then sub_runs p r (c' :: t')
                         else r :: sub_runs p r (c' :: t'))
            else c :: sub_runs p r (c' :: t')).
    destruct (sub_runs_head p r c' t') as [u Hu].
    destruct (p c) eqn:Ec.
    + destruct (p c') eqn:Ec'; [exact IH |].
      rewrite Hu in *.
      change (((p r && p c') || has_run p (c' :: u)) = false).
      rewrite Ec', andb_false_r. exact IH.
    + rewrite Hu in *.
      change (((p c && p (if p c' then r else c')) || has_run p ((if p c' then r else c') :: u)) = false).
      rewrite Ec. exact IH.
Qed.

(** Collapsing the runs of one class does not bring two characters of
    a disjoint class together. *)
Lemma sub_runs_keeps_no_run (q p : char -> bool) (r : char) (s : str) :
  (forall c, p c = true -> q c = false) ->
  q r = false ->
  has_run q s = false -> has_run q (sub_runs p r s) = false.
Proof.
  intros Hdisj Hr. induction s as [| c t IH]; intros Hs; [reflexivity |].
  destruct t as [| c' t'].
  - simpl. destruct (p c); reflexivity.
  - change (((q c && q c') || has_run q (c' :: t')) = false) in Hs.
    apply orb_false_iff in Hs as [Hcc' Ht].
    specialize (IH Ht).
    change (sub_runs p r (c :: c' :: t'))
      with (if p c then (if p c' then sub_runs p r (c' :: t')
                         else r :: sub_runs p r (c' :: t'))
            else c :: sub_runs p r (c' :: t')).
    destruct (sub_runs_head p r c' t') as [u Hu].
    destruct (p c) eqn:Ec.
    + destruct (p c') eqn:Ec'; [exact IH |].
      rewrite Hu in *.
      change (((q r && q c') || has_run q (c' :: u)) = false).
      rewrite Hr. exact IH.
    + rewrite Hu in *.
      change (((q c && q (if p c' then r else c')) || has_run q ((if p c' then r else c') :: u)) = false).
      rewrite IH, orb_false_r.
      destruct (p c') eqn:Ec'.
      * rewrite Hr. apply andb_false_r.
      * exact Hcc'.
Qed.

Lemma no_class_no_run (q : char -> bool) (s : str) :
  Forall (fun c => q c = false) s -> has_run q s = false.
Proof.
  induction s as [| a t IH]; intros Hs; [reflexivity |].
  inversion Hs as [| ? ? Ha Ht]; subst.
  destruct t as [| b t']; [reflexivity |].
  change (((q a && q b) || has_run q (b :: t')) = false).
  rewrite Ha, (IH Ht). reflexivity.
Qed.

Lemma sub_runs_clears (p : char -> bool) (r : char) (s : str) :
  p r = false -> Forall (fun c => p c = false) (sub_runs p r s).
Proof.
  intros Hr. induction s as [| c t IH]; simpl; [constructor |].
  destruct (p c) eqn:Ec.
  - destruct t as [| c' t']; [constructor; [exact Hr | constructor] |].
    destruct (p c'); [exact IH | constructor; [exact Hr | exact IH]].
  - constructor; [exact Ec | exact IH].
Qed.

Lemma remove_clears (p : char -> bool) (s : str) :
  Forall (fun c => p c = false) (remove p s).
Proof.
  apply Forall_forall. intros c Hc. unfold remove in Hc.
  apply filter_In in Hc as [_ Hc]. apply negb_true_iff in Hc. exact Hc.
Qed.

Lemma Forall_remove (Q : char -> Prop) (p : char -> bool) (s : str) :
  Forall Q s -> Forall Q (remove p s).
Proof.
  intros Hs. apply Forall_forall. intros c Hc. unfold remove in Hc.
  apply filter_In in Hc as [Hc _].
  rewrite Forall_forall in Hs. apply Hs. exact Hc.
Qed.

(** Before the length limit no reserved and no control character is
    left. *)
Lemma sanitize_clean_safe (filename : str) :
  Forall (fun c => safe_char c = true) (sanitize_clean filename).
Proof.
  unfold sanitize_clean.
  apply Forall_strip.
  apply Forall_sub_runs; [reflexivity |].
  apply Forall_sub_runs; [reflexivity |].
  apply Forall_sub_runs; [reflexivity |].
  pose proof (remove_clears is_control (remove is_reserved filename)) as Hctl.
  pose proof (Forall_remove _ is_control _ (remove_clears is_reserved filename)) as Hres.
  rewrite Forall_forall in *. intros c Hc. unfold safe_char.
  rewrite (Hctl c Hc), (Hres c Hc). reflexivity.
Qed.

(** Before the length limit every run of white space has become one
    underscore, and dots and underscores come one at a time. *)
Lemma sanitize_clean_collapsed (filename : str) :
  Forall (fun c => is_space c = false) (sanitize_clean filename)
  /\ has_run is_dot (sanitize_clean filename) = false
  /\ has_run is_underscore (sanitize_clean filename) = false.
Proof.
  unfold sanitize_clean.
  set (f2 := remove is_control (remove is_reserved filename)).
  set (f3 := sub_runs is_space underscore f2).
  set (f4 := sub_runs is_dot dot f3).
  set (f5 := sub_runs is_underscore underscore f4).
  split; [| split].
  - apply Forall_strip.
    apply Forall_sub_runs; [reflexivity |].
    apply Forall_sub_runs; [reflexivity |].
    apply sub_runs_clears. reflexivity.
  - apply has_run_strip. subst f5.
    apply sub_runs_keeps_no_run.
    + intros c Hc. unfold is_underscore in Hc. apply N.eqb_eq in Hc. subst c.
      reflexivity.
    + reflexivity.
    + apply sub_runs_no_run.
  - apply has_run_strip. apply sub_runs_no_run.
Qed.


(** [splitext] either finds no extension or splits at a dot. *)
Lemma splitext_shape (p : str) :
  splitext p = (p, [])
  \/ exists a b, p = a ++ dot :: b /\ splitext p = (a, dot :: b).
Proof.
  unfold splitext.
  destruct (rfind dot p >? rfind slash p) eqn:E; [| left; reflexivity].
  destruct (existsb _ _); [| left; reflexivity].
  right. apply Z.gtb_lt in E. pose proof (rfind_lower slash p) as Hsep.
  destruct (rfind_spec dot p) as [[Hr _] | (a & b & Hp & _ & Hr)]; [lia |].
  exists a, b. split; [exact Hp |].
  rewrite Hr. unfold len. rewrite Nat2Z.id. rewrite Hp at 1 2.
  rewrite firstn_app, firstn_all, Nat.sub_diag, skipn_app, skipn_all, Nat.sub_diag.
  cbn [firstn skipn app]. rewrite app_nil_r. reflexivity.
Qed.

(** What the length limit returns: its argument, a prefix of it, or
    a prefix of the stem followed by the extension. *)
Lemma limit_length_shape (p : str) (max_length : Z) :
  limit_length p max_length = p
  \/ (exists k, limit_length p max_length = firstn k p)
  \/ (exists a b k, p = a ++ dot :: b
        /\ limit_length p max_length = firstn k a ++ dot :: b).
Proof.
  unfold limit_length.
  destruct (len p >? max_length); [| left; reflexivity].
  destruct (splitext_shape p) as [-> | (a & b & Hp & ->)].
  - right. left. unfold slice_to. rewrite app_nil_r. eauto.
  - right. right. unfold slice_to. eauto 6.
Qed.

Lemma Forall_firstn (Q : char -> Prop) (k : nat) (l : str) :
  Forall Q l -> Forall Q (firstn k l).
Proof.
  intros Hl. rewrite <- (firstn_skipn k l) in Hl.
  apply Forall_app in Hl as [Hl _]. exact Hl.
Qed.

Lemma Forall_limit_length (Q : char -> Prop) (p : str) (max_length : Z) :
  Forall Q p -> Forall Q (limit_length p max_length).
Proof.
  intros Hp.
  destruct (limit_length_shape p max_length)
    as [-> | [[k ->] | (a & b & k & Hsplit & ->)]].
  - exact Hp.
  - apply Forall_firstn. exact Hp.
  - rewrite Hsplit in Hp. apply Forall_app in Hp as [Ha Hb].
    apply Forall_app. split; [apply Forall_firstn; exact Ha | exact Hb].
Qed.




(** Nothing [sanitize_filename] returns contains a reserved
    character, a control character or white space. *)
Lemma sanitize_filename_safe (filename : str) (max_length : Z) :
  Forall (fun c => is_reserved c = false /\ is_control c = false
                   /\ is_space c = false)
         (sanitize_filename filename max_length).
Proof.
  unfold sanitize_filename.
  destruct (truthy _); [| repeat constructor].
  apply Forall_limit_length.
  pose proof (sanitize_clean_safe filename) as Hsafe.
  destruct (sanitize_clean_collapsed filename) as [Hspace _].
  rewrite Forall_forall in *. intros c Hc.
  specialize (Hsafe c Hc). unfold safe_char in Hsafe.
  apply andb_true_iff in Hsafe as [H1 H2]. apply negb_true_iff in H1, H2.
  auto.
Qed.


(** A cleaned name that already fits is returned as it is. *)
Lemma sanitize_filename_short (filename : str) (max_length : Z) :
  len (sanitize_clean filename) <= max_length ->
  sanitize_filename filename max_length
  = if truthy (sanitize_clean filename) then sanitize_clean filename
    else lit "download".
Proof.
  intros Hlen. unfold sanitize_filename, limit_length.
  destruct (len (sanitize_clean filename) >? max_length) eqn:E;
    [apply Z.gtb_lt in E; lia | reflexivity].
Qed.


















(** White space between two words becomes one underscore, also next
    to an underscore; a tab is a control character and is deleted
    before the white space is looked at; at the two ends nothing is
    left of either. *)
Lemma sanitize_filename_white_space :
  sanitize_filename (lit "my   video _ final.mp4") default_max_length
  = lit "my_video_final.mp4"
  /\ sanitize_filename (lit "a" ++ [9%N] ++ lit "b") default_max_length = lit "ab"
  /\ sanitize_filename (lit "  a b  ") default_max_length = lit "a_b"
  /\ collapsed (lit "  a b  ") = lit "_a_b_".
Proof. repeat split; vm_compute; reflexivity. Qed.


(** A cut that ends on a dot puts that dot next to the one of the
    extension: 97 letters, [.yyy.c] becomes 97 letters, two dots, [c]. *)
Lemma sanitize_filename_double_dot :
  sanitize_filename (repeat 120%N 97 ++ lit ".yyy.c") default_max_length
  = repeat 120%N 97 ++ lit "..c"
  /\ has_run is_dot
       (sanitize_filename (repeat 120%N 97 ++ lit ".yyy.c") default_max_length) = true.
Proof. split; vm_compute; reflexivity. Qed.

(** The fallback name ignores a limit below its own length. *)
Lemma sanitize_filename_fallback_length :
  sanitize_filename [] 3 = lit "download" /\ 3 < len (sanitize_filename [] 3).
Proof. split; vm_compute; reflexivity. Qed.

(* ================================================================== *)
(** * Paths *)
(* ================================================================== *)

Lemma strs_eqb_refl (l : list str) : strs_eqb l l = true.
Proof. induction l as [| x l IH]; simpl; [| rewrite str_eqb_refl, IH]; reflexivity. Qed.

Lemma npath_eqb_refl (p : npath) : npath_eqb p p = true.
Proof.
  unfold npath_eqb.
  rewrite Bool.eqb_reflx, Nat.eqb_refl, strs_eqb_refl. reflexivity.
Qed.

(** [os.path.basename] never returns a name with a separator in it. *)
Lemma basename_slash_free (p : str) : slash_free (basename p).
Proof.
  unfold basename, slash_free.
  destruct (rfind_spec slash p) as [[Hr Hfree] | (a & b & Hs & Hfree & Hr)].
  - rewrite Hr. simpl. exact Hfree.
  - rewrite Hr, Hs. unfold len.
    replace (Z.to_nat (Z.of_nat (List.length a) + 1)) with (S (List.length a)) by lia.
    rewrite skipn_app, skipn_all2 by lia.
    replace (S (List.length a) - List.length a)%nat with 1%nat by lia.
    simpl. exact Hfree.
Qed.

Lemma split_on_free (c : char) (b : str) :
  Forall (fun x => x <> c) b -> split_on c b = [b].
Proof.
  induction 1 as [| x t Hx Ht IH]; simpl; [reflexivity |].
  apply N.eqb_neq in Hx. rewrite Hx, IH. reflexivity.
Qed.

Lemma split_on_nonempty (c : char) (s : str) : split_on c s <> [].
Proof.
  destruct s as [| x t]; simpl; [discriminate |].
  destruct (N.eqb x c); [discriminate |].
  destruct (split_on c t); discriminate.
Qed.

Lemma split_on_app (c : char) (s b : str) :
  Forall (fun x => x <> c) b ->
  split_on c (s ++ c :: b) = split_on c s ++ [b].
Proof.
  intros Hb. induction s as [| x t IH]; simpl.
  - rewrite N.eqb_refl, (split_on_free c b Hb). reflexivity.
  - destruct (N.eqb x c); [rewrite IH; reflexivity |].
    rewrite IH. pose proof (split_on_nonempty c t) as Hne.
    destruct (split_on c t) as [| h r]; [congruence | reflexivity].
Qed.

Lemma startswith_slash_free (b : str) :
  slash_free b -> startswith b [slash] = false.
Proof.
  intros Hb. destruct b as [| x t]; [reflexivity |].
  inversion Hb as [| ? ? Hx _]; subst.
  change (startswith (x :: t) [slash]) with (N.eqb slash x && true).
  destruct (N.eqb slash x) eqn:E; [| reflexivity].
  apply N.eqb_eq in E. congruence.
Qed.

Lemma startswith_app_nonempty (a t u : str) :
  a <> [] -> startswith (a ++ t) [slash] = startswith (a ++ u) [slash].
Proof. destruct a; [congruence | reflexivity]. Qed.

Lemma endswith_slash (a : str) :
  endswith a [slash] = true -> exists a', a = a' ++ [slash].
Proof.
  unfold endswith. change (rev [slash]) with [slash]. intros H.
  destruct (rev a) as [| y r] eqn:E; [discriminate |].
  change (N.eqb slash y && true = true) in H.
  rewrite andb_true_r in H. apply N.eqb_eq in H. subst y.
  exists (rev r). rewrite <- (rev_involutive a), E. reflexivity.
Qed.

Lemma walk_empty (p : npath) : walk p [] = p.
Proof. reflexivity. Qed.

(** Joining a separator-free name onto a folder and walking the
    result is one more step of the walk to the folder. *)
Lemma resolve_join (d b : str) :
  slash_free b -> resolve (join d b) = walk (resolve d) b.
Proof.
  intros Hb. unfold join. rewrite (startswith_slash_free b Hb).
  destruct d as [| x d'].
  - simpl app. unfold resolve.
    rewrite (split_on_free slash b Hb), (startswith_slash_free b Hb).
    reflexivity.
  - destruct (endswith (x :: d') [slash]) eqn:E.
    + destruct (endswith_slash _ E) as [a Ha]. rewrite Ha.
      rewrite <- app_assoc. simpl app. unfold resolve.
      rewrite (split_on_app slash a b Hb).
      rewrite (split_on_app slash a [] (Forall_nil _)).
      rewrite !fold_left_app. simpl fold_left. rewrite walk_empty.
      destruct a; reflexivity.
    + unfold resolve. rewrite (split_on_app slash (x :: d') b Hb).
      rewrite fold_left_app. reflexivity.
Qed.

Lemma above_or_self_refl (d : npath) : above_or_self d d = true.
Proof.
  unfold above_or_self.
  rewrite Bool.eqb_reflx, Nat.eqb_refl, Nat.sub_diag, Nat.leb_refl.
  simpl skipn. rewrite strs_eqb_refl. reflexivity.
Qed.

Lemma above_or_self_parent (d : npath) : above_or_self (parent d) d = true.
Proof.
  destruct d as [a u r]. unfold parent. cbn [rcomps absolute ups].
  destruct r as [| x r].
  - destruct a; [apply above_or_self_refl |].
    unfold above_or_self. cbn [absolute ups rcomps Bool.eqb andb].
    destruct (Nat.eqb (S u) u) eqn:E; [apply Nat.eqb_eq in E; lia |].
    replace (Nat.ltb u (S u)) with true by (symmetry; apply Nat.ltb_lt; lia).
    reflexivity.
  - unfold above_or_self. cbn [absolute ups rcomps].
    rewrite Bool.eqb_reflx, Nat.eqb_refl.
    change (List.length (x :: r)) with (S (List.length r)).
    replace (S (List.length r) - List.length r)%nat with 1%nat by lia.
    cbn [skipn]. rewrite strs_eqb_refl.
    replace (Nat.leb (List.length r) (S (List.length r))) with true
      by (symmetry; apply Nat.leb_le; lia).
    reflexivity.
Qed.

Lemma above_or_self_child (d : npath) (b : str) :
  above_or_self (child d b) d = false.
Proof.
  unfold above_or_self, child. cbn [absolute ups rcomps].
  rewrite Nat.eqb_refl.
  change (List.length (b :: rcomps d)) with (S (List.length (rcomps d))).
  replace (Nat.leb (S (List.length (rcomps d))) (List.length (rcomps d))) with false
    by (symmetry; apply Nat.leb_gt; lia).
  rewrite andb_false_r, andb_false_r. reflexivity.
Qed.

(** Where the folder joined with a separator-free name leads: to an
    entry of the folder under that very name, or, for the empty name,
    [.] and [..], to the folder itself or its parent directory. *)
Lemma locate_join (cfg : config) (b : str) :
  slash_free b ->
  locate cfg (join (DOWNLOAD_FOLDER cfg) b) = if dot_name b then Above else Child b.
Proof.
  intros Hb. unfold locate. rewrite (resolve_join _ b Hb).
  set (d := resolve (DOWNLOAD_FOLDER cfg)).
  unfold walk, dot_name.
  destruct (str_eqb b [] || str_eqb b (lit ".")) eqn:E1.
  - simpl orb. rewrite above_or_self_refl. reflexivity.
  - rewrite orb_false_l.
    destruct (str_eqb b (lit "..")) eqn:E2.
    + rewrite above_or_self_parent. reflexivity.
    + rewrite above_or_self_child. simpl rcomps.
      destruct d as [a u r]. simpl. rewrite npath_eqb_refl. reflexivity.
Qed.

Lemma history_name_slash_free : slash_free HISTORY_NAME.
Proof. unfold slash_free. repeat constructor; discriminate. Qed.

(** The history file is the folder entry named [.history.json]. *)
Lemma locate_history (cfg : config) :
  locate cfg (HISTORY_FILE cfg) = Child HISTORY_NAME.
Proof.
  unfold HISTORY_FILE. rewrite (locate_join cfg _ history_name_slash_free).
  reflexivity.
Qed.

(* ================================================================== *)
(** * Folder listings *)
(* ================================================================== *)

Lemma lookup_app_new (n : str) (x : node) (l : list (str * node)) :
  lookup n l = None -> lookup n (l ++ [(n, x)]) = Some x.
Proof.
  induction l as [| [m y] l IH]; simpl; intros H.
  - rewrite str_eqb_refl. reflexivity.
  - destruct (str_eqb m n); [discriminate | apply IH; exact H].
Qed.

Lemma lookup_app_other (m n : str) (x : node) (l : list (str * node)) :
  n <> m -> lookup m (l ++ [(n, x)]) = lookup m l.
Proof.
  intros Hne. induction l as [| [k y] l IH]; simpl.
  - rewrite (str_eqb_neq _ _ Hne). reflexivity.
  - destruct (str_eqb k m); [reflexivity | exact IH].
Qed.

Lemma lookup_put_same (n : str) (x y : node) (l : list (str * node)) :
  lookup n l = Some y -> lookup n (put n x l) = Some x.
Proof.
  induction l as [| [m z] l IH]; simpl; intros H; [discriminate |].
  destruct (str_eqb m n) eqn:E; simpl; rewrite E; [reflexivity | apply IH; exact H].
Qed.

Lemma lookup_put_other (m n : str) (x : node) (l : list (str * node)) :
  n <> m -> lookup m (put n x l) = lookup m l.
Proof.
  intros Hne. induction l as [| [k z] l IH]; simpl.
  - rewrite (str_eqb_neq _ _ Hne). reflexivity.
  - destruct (str_eqb k n) eqn:E; simpl.
    + apply str_eqb_eq in E. subst k. rewrite (str_eqb_neq _ _ Hne). reflexivity.
    + destruct (str_eqb k m); [reflexivity | exact IH].
Qed.

Lemma lookup_drop_same (n : str) (l : list (str * node)) :
  lookup n (drop n l) = None.
Proof.
  induction l as [| [m z] l IH]; simpl; [reflexivity |].
  destruct (str_eqb m n) eqn:E; simpl; [exact IH |].
  rewrite E. exact IH.
Qed.

Lemma lookup_drop_other (m n : str) (l : list (str * node)) :
  n <> m -> lookup m (drop n l) = lookup m l.
Proof.
  intros Hne. induction l as [| [k z] l IH]; simpl; [reflexivity |].
  destruct (str_eqb k n) eqn:E; simpl.
  - apply str_eqb_eq in E. subst k. rewrite (str_eqb_neq _ _ Hne). exact IH.
  - destruct (str_eqb k m); [reflexivity | exact IH].
Qed.

(* ================================================================== *)
(** * Reading and writing the history file *)
(* ================================================================== *)

Section History.

Variable cfg : config.

Lemma node_at_history (w : world) :
  node_at cfg w (HISTORY_FILE cfg) = history_node w.
Proof. unfold node_at. rewrite locate_history. reflexivity. Qed.

(** [load_history] in terms of the folder entry. *)
Lemma load_history_eq (w : world) :
  load_history cfg w =
  match history_node w with
  | Some (RegularFile f) =>
      if readable f then
        match body f with
        | Doc j => j
        | _ => JList []
        end
      else JList []
  | _ => JList []
  end.
Proof.
  unfold load_history, load_history_try, exists_, read.
  rewrite node_at_history.
  destruct (history_node w) as [[f |] |]; try reflexivity.
  destruct (readable f); [| reflexivity].
  destruct (body f); reflexivity.
Qed.

(** [save_history] in terms of the folder entry. *)
Lemma save_history_eq (now : Z) (history : list json) (w : world) :
  save_history cfg now history w =
  match history_node w with
  | None =>
      {| folder := folder w ++
           [(HISTORY_NAME,
             RegularFile (new_file now
               (json_dump (JList (slice_from (- MAX_HISTORY_ITEMS cfg) history)))))];
         elsewhere := elsewhere w |}
  | Some Directory => w
  | Some (RegularFile f) =>
      if writable f
      then {| folder := put HISTORY_NAME
                (RegularFile (rewrite_file now
                   (json_dump (JList (slice_from (- MAX_HISTORY_ITEMS cfg) history))) f))
                (folder w);
              elsewhere := elsewhere w |}
      else w
  end.
Proof.
  unfold save_history, write. rewrite locate_history.
  unfold history_node.
  destruct (lookup HISTORY_NAME (folder w)) as [[f |] |]; try reflexivity.
  destruct (writable f); reflexivity.
Qed.

(** What a cut-short file and a whole one hold. *)
Lemma json_dump_entries (history : list json) :
  match json_dump (JList history) with
  | Doc (JList entries) => entries
  | _ => []
  end
  = if encodable (JList history) then history else [].
Proof. unfold json_dump. destruct (encodable (JList history)); reflexivity. Qed.

(** [save_history] leaves the world alone, or leaves exactly the
    trimmed list in the history file, or leaves the file cut short. *)
Lemma save_history_stored (now : Z) (history : list json) (w : world) :
  save_history cfg now history w = w
  \/ stored_entries (save_history cfg now history w)
     = if encodable (JList (slice_from (- MAX_HISTORY_ITEMS cfg) history))
       then slice_from (- MAX_HISTORY_ITEMS cfg) history
       else [].
Proof.
  rewrite save_history_eq. unfold stored_entries, history_node.
  destruct (lookup HISTORY_NAME (folder w)) as [[f |] |] eqn:E.
  - destruct (writable f); [| left; reflexivity].
    right. cbn [folder]. rewrite (lookup_put_same _ _ _ _ E).
    cbn [body rewrite_file]. apply json_dump_entries.
  - left. reflexivity.
  - right. cbn [folder]. rewrite (lookup_app_new _ _ _ E).
    cbn [body new_file]. apply json_dump_entries.
Qed.

(** Nothing but the history entry of the folder changes. *)
Lemma save_history_frame (now : Z) (history : list json) (w : world) :
  elsewhere (save_history cfg now history w) = elsewhere w
  /\ forall name, name <> HISTORY_NAME ->
       lookup name (folder (save_history cfg now history w)) = lookup name (folder w).
Proof.
  rewrite save_history_eq. unfold history_node.
  destruct (lookup HISTORY_NAME (folder w)) as [[f |] |] eqn:E.
  - destruct (writable f); [| split; reflexivity].
    split; [reflexivity |]. intros name Hne. cbn [folder].
    apply lookup_put_other. congruence.
  - split; reflexivity.
  - split; [reflexivity |]. intros name Hne. cbn [folder].
    apply lookup_app_other. congruence.
Qed.

(** What [load_history] returns as a list is what the file stores, or
    nothing. *)
Lemma load_history_stored (w : world) (history : list json) :
  load_history cfg w = JList history ->
  history = stored_entries w \/ history = [].
Proof.
  rewrite load_history_eq. unfold stored_entries.
  destruct (history_node w) as [[f |] |];
    try (intros Hl; inversion Hl; right; reflexivity).
  destruct (readable f); [| intros Hl; inversion Hl; right; reflexivity].
  destruct (body f) as [j | b | j];
    try (intros Hl; inversion Hl; right; reflexivity).
  intros ->. left. reflexivity.
Qed.

(** After [save_history] on a usable history file, the file holds
    what [json.dump] made of the trimmed list and is still usable. *)
Lemma save_history_node (now : Z) (history : list json) (w : world) :
  history_usable w ->
  exists f,
    history_node (save_history cfg now history w) = Some (RegularFile f)
    /\ body f = json_dump (JList (slice_from (- MAX_HISTORY_ITEMS cfg) history))
    /\ readable f = true /\ writable f = true.
Proof.
  intros Husable. rewrite save_history_eq.
  destruct Husable as [Hnone | (f & Hf & Hr & Hw)].
  - rewrite Hnone. unfold history_node in *. cbn [folder].
    rewrite (lookup_app_new _ _ _ Hnone). eexists. split; [reflexivity |].
    cbn. auto.
  - rewrite Hf, Hw. unfold history_node in *. cbn [folder].
    rewrite (lookup_put_same _ _ _ _ Hf). eexists. split; [reflexivity |].
    cbn. auto.
Qed.

(* ================================================================== *)
(** * The cap on the history *)
(* ================================================================== *)

(** With a positive cap, [l[-cap:]] has at most [cap] items. *)
Lemma slice_from_last_length {A} (k : Z) (l : list A) :
  0 < k -> len (slice_from (- k) l) <= k.
Proof.
  intros Hk. rewrite (slice_from_last k l Hk). unfold len.
  rewrite length_skipn. lia.
Qed.

Section PositiveCap.

Hypothesis cap_positive : 0 < MAX_HISTORY_ITEMS cfg.

(** X1.  With a positive cap, on a history file that is absent or can
    be read and written, an append whose kept entries can be encoded
    goes through: afterwards the file holds, and [load_history]
    returns, exactly the last [MAX_HISTORY_ITEMS] items of the loaded
    list followed by the new entry, never more than the cap, with the
    new entry last. *)
Lemma add_to_history_capped (t : instant) (data : list (str * json))
  (w : world) (history : list json) :
  history_usable w ->
  load_history cfg w = JList history ->
  encodable (JList (slice_from (- MAX_HISTORY_ITEMS cfg)
                      (history ++ [history_entry t data]))) = true ->
  exists w' older,
    add_to_history cfg t data w = Return w'
    /\ stored_entries w'
       = skipn (List.length (history ++ [history_entry t data])
                - Z.to_nat (MAX_HISTORY_ITEMS cfg))
               (history ++ [history_entry t data])
    /\ load_history cfg w' = JList (stored_entries w')
    /\ len (stored_entries w') <= MAX_HISTORY_ITEMS cfg
    /\ stored_entries w' = older ++ [history_entry t data].
Proof.
  intros Husable Hload Henc. unfold add_to_history. rewrite Hload.
  destruct (save_history_node (micros t) (history ++ [history_entry t data])
              w Husable) as (f & Hf & Hb & Hr & _).
  unfold json_dump in Hb. rewrite Henc in Hb.
  assert (Hstored : stored_entries
                      (save_history cfg (micros t)
                         (history ++ [history_entry t data]) w)
                    = slice_from (- MAX_HISTORY_ITEMS cfg)
                        (history ++ [history_entry t data])).
  { unfold stored_entries. rewrite Hf, Hb. reflexivity. }
  destruct (slice_from_last_snoc _ history (history_entry t data) cap_positive)
    as [older Holder].
  exists (save_history cfg (micros t) (history ++ [history_entry t data]) w), older.
  split; [reflexivity |]. rewrite Hstored.
  split; [apply slice_from_last; exact cap_positive |].
  split; [rewrite load_history_eq, Hf, Hr, Hb; reflexivity |].
  split; [apply slice_from_last_length; exact cap_positive | exact Holder].
Qed.

End PositiveCap.

(** C1.  With [MAX_HISTORY_ITEMS] set to 0 the slice [history[-0:]] is
    the whole list: two appends to an empty folder leave both entries
    in the history file, two more than the cap allows. *)
Theorem add_to_history_zero_cap_keeps_all :
  exists w1 w2,
    add_to_history zero_cap_config first_instant (sample_data "one") empty_world
    = Return w1
    /\ add_to_history zero_cap_config second_instant (sample_data "two") w1
       = Return w2
    /\ load_history zero_cap_config w2 = JList [first_entry; second_entry]
    /\ MAX_HISTORY_ITEMS zero_cap_config < len (stored_entries w2).
Proof.
  eexists. eexists.
  split; [vm_compute; reflexivity |].
  split; [vm_compute; reflexivity |].
  split; vm_compute; reflexivity.
Qed.

(* ================================================================== *)
(** * GET /history *)
(* ================================================================== *)

(** X2.  For a positive limit the response lists the last [limit] stored
    entries, newest first; all of them when there are no more than
    [limit]. *)
Lemma get_history_latest (limit : Z) (w : world) (history : list json) :
  0 < limit ->
  load_history cfg w = JList history ->
  get_history cfg limit w
  = Json (JDict [(lit "history",
                  JList (rev (skipn (List.length history - Z.to_nat limit) history)))])
  /\ (len history <= limit ->
      get_history cfg limit w = Json (JDict [(lit "history", JList (rev history))])).
Proof.
  intros Hlimit Hload. unfold get_history. rewrite Hload. unfold py_latest.
  rewrite (slice_from_last limit history Hlimit).
  split; [reflexivity |].
  intros Hfew. unfold len in Hfew.
  replace (List.length history - Z.to_nat limit)%nat with 0%nat by lia.
  reflexivity.
Qed.

(** C6.  With [limit=0] the slice [history[-0:]] is the whole list:
    the response carries both stored entries, newest first, where the
    most recent zero entries would be none. *)
Theorem get_history_limit_zero_returns_all :
  get_history default_config 0 (history_only [first_entry; second_entry] true)
  = Json (JDict [(lit "history", JList [second_entry; first_entry])]).
Proof. vm_compute. reflexivity. Qed.

(* ================================================================== *)
(** * DELETE /history *)
(* ================================================================== *)

(** X3.  When the history file is absent or can be written, clearing
    leaves an empty history. *)
Lemma clear_history_clears (now : Z) (w : world) :
  history_node w = None
  \/ (exists f, history_node w = Some (RegularFile f) /\ writable f = true) ->
  stored_entries (snd (clear_history cfg now w)) = []
  /\ load_history cfg (snd (clear_history cfg now w)) = JList [].
Proof.
  intros Hnode. unfold clear_history. cbn [snd].
  rewrite load_history_eq. unfold stored_entries.
  rewrite save_history_eq.
  destruct Hnode as [Hnone | (f & Hf & Hw)].
  - rewrite Hnone. unfold history_node in *. cbn [folder].
    rewrite (lookup_app_new _ _ _ Hnone), slice_from_nil. cbn. auto.
  - rewrite Hf, Hw. unfold history_node in *. cbn [folder].
    rewrite (lookup_put_same _ _ _ _ Hf), slice_from_nil. cbn.
    destruct (readable f); auto.
Qed.

(** X4.  Clearing touches no other entry of the folder and nothing
    outside it. *)
Lemma clear_history_frame (now : Z) (w : world) :
  elsewhere (snd (clear_history cfg now w)) = elsewhere w
  /\ forall name, name <> HISTORY_NAME ->
       lookup name (folder (snd (clear_history cfg now w))) = lookup name (folder w).
Proof. unfold clear_history. cbn [snd]. apply save_history_frame. Qed.

(** C7.  On a history file that cannot be written, [save_history]
    swallows the error: DELETE /history still answers with success,
    and a load afterwards returns the entry that was there. *)
Theorem clear_history_reports_success_without_clearing :
  fst (clear_history default_config 0 (history_only [first_entry] false))
  = Json (JDict [(lit "success", JBool true);
                 (lit "message", JStr (lit "History cleared successfully"))])
  /\ load_history default_config
       (snd (clear_history default_config 0 (history_only [first_entry] false)))
     = JList [first_entry].
Proof. split; vm_compute; reflexivity. Qed.

(* ================================================================== *)
(** * A missing or corrupt history file *)
(* ================================================================== *)

(** C10.  When the history file is absent, cannot be read, or does not
    hold JSON (bytes that are no JSON, or a file that a failed write
    left cut short), [load_history] returns the empty list; GET
    /history then answers with no entries for every limit, and the
    statistics count zero entries with no last download. *)
Theorem load_history_total (w : world) :
  exists_ cfg w (HISTORY_FILE cfg) = false
  \/ (exists e, read cfg w (HISTORY_FILE cfg) = Raise e)
  \/ (exists bytes, read cfg w (HISTORY_FILE cfg) = Return (Blob bytes))
  \/ (exists doc, read cfg w (HISTORY_FILE cfg) = Return (Truncated doc)) ->
  load_history cfg w = JList []
  /\ (forall limit,
        get_history cfg limit w = Json (JDict [(lit "history", JList [])]))
  /\ history_count (get_stats cfg w) = 0
  /\ last_download (get_stats cfg w) = JNull.
Proof.
  intros Hstate.
  assert (Hload : load_history cfg w = JList []).
  { unfold load_history, load_history_try.
    destruct Hstate as [Habsent | [[e He] | [[bytes Hb] | [doc Hb]]]].
    - rewrite Habsent. reflexivity.
    - rewrite He. destruct (exists_ cfg w (HISTORY_FILE cfg)); reflexivity.
    - rewrite Hb. destruct (exists_ cfg w (HISTORY_FILE cfg)); reflexivity.
    - rewrite Hb. destruct (exists_ cfg w (HISTORY_FILE cfg)); reflexivity. }
  split; [exact Hload |].
  split.
  - intros limit. unfold get_history. rewrite Hload. unfold py_latest.
    rewrite slice_from_nil. reflexivity.
  - unfold get_stats. rewrite Hload. cbn. split; reflexivity.
Qed.

End History.

(** A folder whose history file holds bytes that are not JSON. *)
Lemma load_history_total_witness :
  load_history default_config
    {| folder := [(HISTORY_NAME, media_file 0 true)]; elsewhere := [] |}
  = JList [].
Proof.
  apply (load_history_total default_config
           {| folder := [(HISTORY_NAME, media_file 0 true)]; elsewhere := [] |}).
  right. right. left. exists [0%N; 1%N; 2%N]. vm_compute. reflexivity.
Defined.

(* ================================================================== *)
(** * The sweep *)
(* ================================================================== *)

(** What one turn of the loop does, in terms of the entry. *)
Lemma sweep_entry_cases (cut : Z) (e : str * node) :
  (sweep_entry cut e = Some true /\ sweepable cut e = true /\ unlink_ok e = true)
  \/ (sweep_entry cut e = Some false /\ sweepable cut e = false /\ undated e = false)
  \/ (sweep_entry cut e = None
      /\ (undated e = true \/ (sweepable cut e = true /\ unlink_ok e = false))).
Proof.
  unfold sweep_entry, sweepable, undated, expired.
  destruct (listed e); cbn [andb]; [| auto 6].
  destruct (file_time e) as [t |]; [| auto 6].
  destruct (t <? cut); [| auto 6].
  destruct (unlink_ok e); auto 8.
Qed.

Lemma sweep_entry_passable (cut : Z) (e : str * node) :
  passable cut e <-> sweep_entry cut e <> None.
Proof.
  unfold passable.
  destruct (sweep_entry_cases cut e)
    as [(-> & Hs & Hu) | [(-> & Hs & Hd) | (-> & [Hd | [Hs Hu]])]].
  - split; [discriminate |]. intros _. split; [| auto].
    unfold undated. unfold sweepable, expired in Hs.
    destruct (listed e); [| reflexivity].
    destruct (file_time e); [reflexivity | discriminate].
  - split; [discriminate |]. intros _. split; [exact Hd |]. congruence.
  - split; [| congruence]. intros [Hd' _]. congruence.
  - split; [| congruence]. intros [_ Hu']. rewrite (Hu' Hs) in Hu. discriminate.
Qed.

(** The loop walks the listing once: up to the first listed file whose
    date or removal raises it drops the expired files it meets, and
    from there on it leaves the listing as it is. *)
Lemma sweep_shape (cut : Z) (entries : list (str * node)) (n : Z) :
  exists pre rest,
    entries = pre ++ rest
    /\ fst (sweep cut entries n)
       = filter (fun e => negb (sweepable cut e)) pre ++ rest
    /\ Forall (passable cut) pre
    /\ (rest = []
        \/ exists e r, rest = e :: r
             /\ (undated e = true
                 \/ (sweepable cut e = true /\ unlink_ok e = false))).
Proof.
  revert n. induction entries as [| e rest0 IH]; intros n.
  - exists [], []. simpl. auto.
  - cbn [sweep].
    pose proof (proj2 (sweep_entry_passable cut e)) as Hpass.
    destruct (sweep_entry_cases cut e)
      as [(E & Hs & Hu) | [(E & Hs & Hd) | (E & Hstop)]]; rewrite E in *.
    + destruct (IH (n + 1)) as (pre & rest & Hsplit & Hfst & Hpre & Hrest).
      exists (e :: pre), rest. cbn [filter]. rewrite Hs. cbn [negb].
      subst rest0. split; [reflexivity |]. split; [exact Hfst |].
      split; [| exact Hrest]. constructor; [apply Hpass; discriminate | exact Hpre].
    + destruct (IH n) as (pre & rest & Hsplit & Hfst & Hpre & Hrest).
      destruct (sweep cut rest0 n) as [kept outcome].
      exists (e :: pre), rest. cbn [filter fst]. rewrite Hs. cbn [negb].
      cbn [fst] in Hfst. subst rest0. rewrite Hfst.
      split; [reflexivity |]. split; [reflexivity |].
      split; [| exact Hrest]. constructor; [apply Hpass; discriminate | exact Hpre].
    + exists [], (e :: rest0). cbn [fst filter app].
      split; [reflexivity |]. split; [reflexivity |]. split; [constructor |].
      right. exists e, rest0. auto.
Qed.

Lemma sweep_keeps (cut : Z) (entries : list (str * node)) (n : Z) (e : str * node) :
  In e entries -> sweepable cut e = false -> In e (fst (sweep cut entries n)).
Proof.
  intros Hin Hs.
  destruct (sweep_shape cut entries n) as (pre & rest & Hsplit & Hfst & _).
  rewrite Hfst. rewrite Hsplit in Hin.
  apply in_app_iff in Hin as [Hin | Hin]; apply in_app_iff.
  - left. apply filter_In. split; [exact Hin |]. rewrite Hs. reflexivity.
  - right. exact Hin.
Qed.

Lemma sweep_sublist (cut : Z) (entries : list (str * node)) (n : Z) (e : str * node) :
  In e (fst (sweep cut entries n)) -> In e entries.
Proof.
  intros Hin.
  destruct (sweep_shape cut entries n) as (pre & rest & Hsplit & Hfst & _).
  rewrite Hfst in Hin. rewrite Hsplit.
  apply in_app_iff in Hin as [Hin | Hin]; apply in_app_iff.
  - left. apply filter_In in Hin as [Hin _]. exact Hin.
  - right. exact Hin.
Qed.

Lemma sweep_complete (cut : Z) (entries : list (str * node)) (n : Z) :
  Forall (passable cut) entries ->
  fst (sweep cut entries n) = filter (fun e => negb (sweepable cut e)) entries.
Proof.
  intros Hok.
  destruct (sweep_shape cut entries n) as (pre & rest & Hsplit & Hfst & _ & Hrest).
  destruct Hrest as [-> | (e & r & -> & Hstop)].
  - rewrite Hfst, Hsplit, !app_nil_r. reflexivity.
  - rewrite Hsplit in Hok. apply Forall_app in Hok as [_ Hok].
    inversion Hok as [| ? ? [Hd Hu] _]; subst.
    destruct Hstop as [Hd' | [Hs Hu']]; [congruence |].
    rewrite (Hu Hs) in Hu'. discriminate.
Qed.

Lemma listed_not_hidden (n : str) (x : node) :
  listed (n, x) = true -> startswith n (lit ".") = false.
Proof.
  unfold listed. cbn [fst snd]. destruct x; [| discriminate].
  intros H. apply negb_true_iff in H. exact H.
Qed.

(** The loop never touches an entry whose name starts with a dot. *)
Lemma sweep_lookup_hidden (cut : Z) (entries : list (str * node)) (n : Z) (name : str) :
  startswith name (lit ".") = true ->
  lookup name (fst (sweep cut entries n)) = lookup name entries.
Proof.
  intros Hdot. revert n. induction entries as [| [m x] rest IH]; intros n.
  - reflexivity.
  - cbn [sweep].
    destruct (sweep_entry_cases cut (m, x))
      as [(E & Hs & _) | [(E & _) | (E & _)]]; rewrite E.
    + unfold sweepable in Hs. apply andb_true_iff in Hs as [Hl _].
      apply listed_not_hidden in Hl.
      assert (Hne : str_eqb m name = false).
      { apply str_eqb_neq. intros ->. congruence. }
      rewrite IH. cbn [lookup]. rewrite Hne. reflexivity.
    + specialize (IH n). destruct (sweep cut rest n) as [kept outcome].
      cbn [fst lookup] in *. rewrite IH. reflexivity.
    + reflexivity.
Qed.

Lemma history_name_hidden : startswith HISTORY_NAME (lit ".") = true.
Proof. reflexivity. Qed.

(** [clean_old_files] in terms of the cutoff. *)
Lemma clean_old_files_eq (cfg : config) (now cut : Z) (w : world) :
  cutoff cfg now = Some cut ->
  clean_old_files cfg now w
  = {| folder := fst (sweep cut (folder w) 0); elsewhere := elsewhere w |}.
Proof. intros H. unfold clean_old_files. rewrite H. reflexivity. Qed.

Lemma clean_old_files_none (cfg : config) (now : Z) (w : world) :
  cutoff cfg now = None -> clean_old_files cfg now w = w.
Proof. intros H. unfold clean_old_files. rewrite H. reflexivity. Qed.

Lemma clean_old_files_history (cfg : config) (now : Z) (w : world) :
  history_node (clean_old_files cfg now w) = history_node w.
Proof.
  unfold history_node, clean_old_files.
  destruct (cutoff cfg now) as [cut |]; [| reflexivity]. cbn [folder].
  apply sweep_lookup_hidden. exact history_name_hidden.
Qed.

Lemma clean_old_files_elsewhere (cfg : config) (now : Z) (w : world) :
  elsewhere (clean_old_files cfg now w) = elsewhere w.
Proof.
  unfold clean_old_files. destruct (cutoff cfg now); reflexivity.
Qed.

(** When the cutoff is a date: the age in days is within the range of
    [timedelta] and [now] less that many days is within the range of
    [datetime]. *)
Lemma cutoff_spec (cfg : config) (now cut : Z) :
  cutoff cfg now = Some cut
  <-> Z.abs (MAX_FILE_AGE_DAYS cfg) <= 999999999
      /\ cut = now - MAX_FILE_AGE_DAYS cfg * microseconds_per_day
      /\ datetime_min <= cut <= datetime_max.
Proof.
  unfold cutoff, timedelta_days, datetime_sub.
  destruct (Z.abs (MAX_FILE_AGE_DAYS cfg) <=? 999999999) eqn:Ed;
    [apply Z.leb_le in Ed | apply Z.leb_gt in Ed].
  - destruct (datetime_min <=? now - MAX_FILE_AGE_DAYS cfg * microseconds_per_day)
      eqn:Elo; [apply Z.leb_le in Elo | apply Z.leb_gt in Elo]; cbn [andb].
    + destruct (now - MAX_FILE_AGE_DAYS cfg * microseconds_per_day <=? datetime_max)
        eqn:Ehi; [apply Z.leb_le in Ehi | apply Z.leb_gt in Ehi].
      * split; [intros H; inversion H; lia | intros (_ & -> & _); reflexivity].
      * split; [discriminate | intros (_ & -> & Hr); lia].
    + split; [discriminate | intros (_ & -> & Hr); lia].
  - split; [discriminate | intros (H & _); lia].
Qed.

(** C4, as the code has it.  The cutoff is [now] less
    [MAX_FILE_AGE_DAYS] days when that is a date the program can
    compute; when it is not, [clean_old_files] deletes nothing.
    Otherwise it walks the folder in listing order and deletes only
    regular files older than the cutoff whose name does not start with
    a dot: all of them up to the first listed file whose modification
    time is no date or whose removal raises, where the sweep stops,
    hence all of them when there is no such file.  Every other entry,
    in particular every file at or newer than the cutoff, stays as it
    is; the history file and everything outside the folder are
    untouched. *)
Theorem clean_old_files_sweep (cfg : config) (now : Z) (w : world) :
  (forall cut,
     cutoff cfg now = Some cut
     <-> Z.abs (MAX_FILE_AGE_DAYS cfg) <= 999999999
         /\ cut = now - MAX_FILE_AGE_DAYS cfg * microseconds_per_day
         /\ datetime_min <= cut <= datetime_max)
  /\ (cutoff cfg now = None -> clean_old_files cfg now w = w)
  /\ (forall cut,
        cutoff cfg now = Some cut ->
        (exists pre rest,
           folder w = pre ++ rest
           /\ folder (clean_old_files cfg now w)
              = filter (fun e => negb (sweepable cut e)) pre ++ rest
           /\ Forall (passable cut) pre
           /\ (rest = []
               \/ exists e r, rest = e :: r
                    /\ (undated e = true
                        \/ (sweepable cut e = true /\ unlink_ok e = false))))
        /\ (Forall (passable cut) (folder w) ->
            folder (clean_old_files cfg now w)
            = filter (fun e => negb (sweepable cut e)) (folder w))
        /\ (forall e, In e (folder w) -> sweepable cut e = false ->
              In e (folder (clean_old_files cfg now w))))
  /\ (forall e, In e (folder (clean_old_files cfg now w)) -> In e (folder w))
  /\ node_at cfg (clean_old_files cfg now w) (HISTORY_FILE cfg)
     = node_at cfg w (HISTORY_FILE cfg)
  /\ elsewhere (clean_old_files cfg now w) = elsewhere w.
Proof.
  split; [intros cut; apply cutoff_spec |].
  split; [apply clean_old_files_none |].
  split.
  { intros cut Hcut. rewrite (clean_old_files_eq _ _ _ _ Hcut). cbn [folder].
    split; [apply sweep_shape |].
    split; [apply sweep_complete |].
    intros e. apply sweep_keeps. }
  split.
  { intros e. unfold clean_old_files.
    destruct (cutoff cfg now) as [cut |]; [| auto]. apply sweep_sublist. }
  split; [| apply clean_old_files_elsewhere].
  rewrite !node_at_history. apply clean_old_files_history.
Qed.

(** On the mixed folder every date is in range and nothing refuses
    removal: the expired file goes, the fresh file, the hidden file
    and the history stay. *)
Lemma clean_old_files_sweep_witness :
  folder (clean_old_files default_config (2 * day) mixed_folder)
  = filter (fun e => negb (sweepable day e)) (folder mixed_folder).
Proof.
  destruct (clean_old_files_sweep default_config (2 * day) mixed_folder)
    as (_ & _ & Hcut & _).
  destruct (Hcut day) as (_ & Hall & _); [reflexivity |].
  apply Hall. repeat constructor; discriminate.
Defined.

(** C4 as stated fails where a removal raises: were every entry gone
    exactly when it is an expired, listed regular file, the expired
    [b.mp4] would be gone; but the sweep stops at [a.mp4], which
    cannot be removed, and [b.mp4] after it is still there. *)
Lemma clean_old_files_stops_at_error :
  ~ (forall cut, cutoff default_config (2 * day) = Some cut ->
     forall e, In e (folder stuck_folder) ->
       (~ In e (folder (clean_old_files default_config (2 * day) stuck_folder))
        <-> sweepable cut e = true)).
Proof.
  intros Hclaim.
  destruct (Hclaim day eq_refl (lit "b.mp4", media_file 0 true)) as [_ Hgone].
  - right. left. reflexivity.
  - apply Hgone; [reflexivity |].
    right. left. reflexivity.
Qed.

(** The sweep also stops at a listed file whose modification time is
    no date: [future.mp4] carries a time stamp in the year 14645, and
    the expired [old.mp4] after it is still there. *)
Lemma clean_old_files_stops_at_undated :
  cutoff default_config (2 * day) = Some day
  /\ undated (lit "future.mp4", media_file (400000000000 * 1000000) true) = true
  /\ sweepable day (lit "old.mp4", media_file 0 true) = true
  /\ clean_old_files default_config (2 * day) undated_folder = undated_folder.
Proof. repeat split; vm_compute; reflexivity. Qed.

(** With an age of minus three million days the cutoff would lie
    after the year 9999: computing it raises and nothing is deleted,
    and nothing either with an age beyond the range of [timedelta]. *)
Lemma clean_old_files_without_cutoff :
  cutoff far_future_config (micros first_instant) = None
  /\ clean_old_files far_future_config (micros first_instant) mixed_folder
     = mixed_folder
  /\ cutoff {| DOWNLOAD_FOLDER := lit "downloads";
               MAX_FILE_AGE_DAYS := 1000000000;
               MAX_HISTORY_ITEMS := 100 |} (micros first_instant) = None.
Proof. repeat split; vm_compute; reflexivity. Qed.

(* ================================================================== *)
(** * Serving and deleting media *)
(* ================================================================== *)

(** The path both handlers use leads to the folder entry named by the
    basename, or to a directory (the folder or its parent). *)
Lemma locate_media (cfg : config) (filename : str) :
  locate cfg (media_path cfg filename)
  = if dot_name (basename filename) then Above else Child (basename filename).
Proof. unfold media_path. apply locate_join, basename_slash_free. Qed.

Lemma node_at_media (cfg : config) (filename : str) (w : world) :
  node_at cfg w (media_path cfg filename)
  = if dot_name (basename filename) then Some Directory
    else lookup (basename filename) (folder w).
Proof.
  unfold node_at. rewrite locate_media.
  destruct (dot_name (basename filename)); reflexivity.
Qed.

(** What [serve_media] sends is the body of a regular file listed in
    the folder under the basename. *)
Lemma serve_media_sends (cfg : config) (filename : str) (w : world)
  (path name : str) (sent : content) :
  serve_media cfg filename w = FileResponse path name sent ->
  exists f, lookup (basename filename) (folder w) = Some (RegularFile f)
            /\ readable f = true /\ sent = body f.
Proof.
  unfold serve_media, exists_, read.
  fold (media_path cfg filename). rewrite node_at_media.
  destruct (dot_name (basename filename)); [discriminate |].
  destruct (lookup (basename filename) (folder w)) as [[f |] |]; try discriminate.
  cbn [negb]. destruct (readable f) eqn:Er; [| discriminate].
  intros H. inversion H. eauto.
Qed.

(** [delete_media] leaves the world alone or removes the folder
    entry named by the basename, a regular file. *)
Lemma delete_media_world (cfg : config) (filename : str) (w : world) :
  snd (delete_media cfg filename w) = w
  \/ (exists f, lookup (basename filename) (folder w) = Some (RegularFile f)
        /\ removable f = true)
     /\ snd (delete_media cfg filename w)
        = {| folder := drop (basename filename) (folder w);
             elsewhere := elsewhere w |}.
Proof.
  unfold delete_media, exists_, remove_path.
  fold (media_path cfg filename). rewrite node_at_media, locate_media.
  destruct (dot_name (basename filename)); [left; reflexivity |].
  destruct (lookup (basename filename) (folder w)) as [[f |] |];
    try (left; reflexivity).
  cbn [negb]. destruct (removable f) eqn:Er; [| left; reflexivity].
  right. cbn [snd]. eauto.
Qed.

Lemma delete_media_frame (cfg : config) (filename : str) (w : world) :
  elsewhere (snd (delete_media cfg filename w)) = elsewhere w
  /\ forall name, name <> basename filename ->
       lookup name (folder (snd (delete_media cfg filename w)))
       = lookup name (folder w).
Proof.
  destruct (delete_media_world cfg filename w) as [-> | [_ ->]].
  - split; reflexivity.
  - split; [reflexivity |]. intros name Hne. cbn [folder].
    apply lookup_drop_other. congruence.
Qed.

Lemma media_not_found (cfg : config) (filename : str) (w : world) :
  exists_ cfg w (media_path cfg filename) = false ->
  serve_media cfg filename w = HTTPException 404 (lit "File not found")
  /\ delete_media cfg filename w = (HTTPException 404 (lit "File not found"), w).
Proof.
  intros Hmissing. unfold serve_media, delete_media.
  fold (media_path cfg filename). rewrite Hmissing. split; reflexivity.
Qed.

(** C9.  For every [filename], both handlers work on the folder
    joined with the basename, which holds no separator; that path leads
    to the folder entry of that name or, for the names [.] and [..]
    and the empty name, to a directory, never to a file outside the
    folder.  What GET sends is the body of a regular file listed in the
    folder; DELETE changes nothing outside the folder and no entry
    under another name; and both answer 404 when the path does not
    exist. *)
Theorem media_confined_to_folder (cfg : config) (filename : str) (w : world) :
  slash_free (basename filename)
  /\ media_path cfg filename = join (DOWNLOAD_FOLDER cfg) (basename filename)
  /\ (locate cfg (media_path cfg filename) = Above
      \/ locate cfg (media_path cfg filename) = Child (basename filename))
  /\ (forall path name sent,
        serve_media cfg filename w = FileResponse path name sent ->
        exists f, lookup (basename filename) (folder w) = Some (RegularFile f)
                  /\ readable f = true /\ sent = body f)
  /\ elsewhere (snd (delete_media cfg filename w)) = elsewhere w
  /\ (forall name, name <> basename filename ->
        lookup name (folder (snd (delete_media cfg filename w)))
        = lookup name (folder w))
  /\ (exists_ cfg w (media_path cfg filename) = false ->
        serve_media cfg filename w = HTTPException 404 (lit "File not found")
        /\ delete_media cfg filename w
           = (HTTPException 404 (lit "File not found"), w)).
Proof.
  split; [apply basename_slash_free |].
  split; [reflexivity |].
  split.
  { rewrite locate_media. destruct (dot_name (basename filename)); auto. }
  split; [intros path name sent; apply serve_media_sends |].
  split; [apply delete_media_frame |].
  split; [apply delete_media_frame |].
  apply media_not_found.
Qed.

(** A traversal attempt: the basename of [../secret.txt] is
    [secret.txt], which the folder does not list, so both handlers
    answer 404 and the file outside stays. *)
Lemma media_confined_to_folder_witness :
  serve_media default_config (lit "../secret.txt") guarded_world
  = HTTPException 404 (lit "File not found")
  /\ delete_media default_config (lit "../secret.txt") guarded_world
     = (HTTPException 404 (lit "File not found"), guarded_world).
Proof.
  destruct (media_confined_to_folder default_config (lit "../secret.txt") guarded_world)
    as (_ & _ & _ & _ & _ & _ & Hmissing).
  apply Hmissing. vm_compute. reflexivity.
Defined.

(** The file system underneath does follow [..]: handed the raw
    value instead of its basename, a read would reach the file outside
    the folder. *)
Lemma raw_path_would_escape :
  read default_config guarded_world
       (join (DOWNLOAD_FOLDER default_config) (lit "../secret.txt"))
  = Return (Blob [7%N]).
Proof. vm_compute. reflexivity. Qed.

(* ================================================================== *)
(** * The history is append-only *)
(* ================================================================== *)

Lemma history_step_same (l : list json) : history_step l l.
Proof.
  exists [], 0%nat. split; [simpl; lia |]. rewrite app_nil_r. reflexivity.
Qed.

Lemma history_step_empty (l : list json) : history_step l [].
Proof.
  exists [], (List.length l). split; [simpl; lia |].
  rewrite app_nil_r, skipn_all. reflexivity.
Qed.

Lemma history_step_tail (before h : list json) (e : json) (k : nat) :
  h = before \/ h = [] -> history_step before (skipn k (h ++ [e])).
Proof.
  intros [-> | ->].
  - exists [e], k. split; [simpl; lia | reflexivity].
  - exists [e], (List.length before + k)%nat. split; [simpl; lia |].
    rewrite (skipn_app _ before), (skipn_all2 before) by lia.
    replace (List.length before + k - List.length before)%nat with k by lia.
    reflexivity.
Qed.

Create HintDb history_steps.
#[local] Hint Resolve history_step_same history_step_empty : history_steps.

(** Case analysis on the call of [add_to_history] in the goal. *)
Ltac case_add_to_history H :=
  match goal with
  | |- context [add_to_history ?c ?t ?entry ?w] =>
      destruct (add_to_history c t entry w) as [w' | e'] eqn:H
  end.

Lemma add_to_history_step (cfg : config) (t : instant) (data : list (str * json))
  (w w' : world) :
  add_to_history cfg t data w = Return w' ->
  history_step (stored_entries w) (stored_entries w').
Proof.
  unfold add_to_history.
  destruct (load_history cfg w) as [| | | | | history |] eqn:Hload; try discriminate.
  intros Hret. inversion Hret as [Hw']. clear Hret.
  destruct (save_history_stored cfg (micros t) (history ++ [history_entry t data]) w)
    as [-> | ->]; [auto with history_steps |].
  destruct (encodable _); [| auto with history_steps].
  destruct (slice_from_tail (- MAX_HISTORY_ITEMS cfg)
              (history ++ [history_entry t data])) as [k ->].
  apply history_step_tail. apply (load_history_stored cfg). exact Hload.
Qed.

Lemma clear_history_step (cfg : config) (now : Z) (w : world) :
  history_step (stored_entries w) (stored_entries (snd (clear_history cfg now w))).
Proof.
  unfold clear_history. cbn [snd].
  destruct (save_history_stored cfg now [] w) as [-> | ->];
    rewrite ?slice_from_nil; cbn; auto with history_steps.
Qed.

Lemma clean_old_files_stored (cfg : config) (now : Z) (w : world) :
  stored_entries (clean_old_files cfg now w) = stored_entries w.
Proof. unfold stored_entries. rewrite clean_old_files_history. reflexivity. Qed.

Lemma delete_media_step (cfg : config) (filename : str) (w : world) :
  history_step (stored_entries w) (stored_entries (snd (delete_media cfg filename w))).
Proof.
  destruct (delete_media_world cfg filename w) as [-> | [_ ->]];
    [auto with history_steps |].
  unfold stored_entries at 2. unfold history_node. cbn [folder].
  destruct (str_eqb (basename filename) HISTORY_NAME) eqn:E.
  - apply str_eqb_eq in E. rewrite E, lookup_drop_same. auto with history_steps.
  - rewrite lookup_drop_other; [auto with history_steps |].
    intros Heq. rewrite Heq, str_eqb_refl in E. discriminate.
Qed.

(** The world [after_extraction] leaves is that of [add_to_history],
    whatever becomes of the answer. *)
Lemma after_extraction_world (cfg : config) (t_done : instant)
  (url format_type platform : str) (i : info) (prepared : str) (w : world) :
  snd (after_extraction cfg t_done url format_type platform i prepared w)
  = match add_to_history cfg t_done
            (download_entry url format_type platform i prepared) w with
    | Return w' => w'
    | Raise _ => w
    end.
Proof.
  unfold after_extraction.
  destruct (add_to_history _ _ _ _); [| reflexivity].
  destruct (render _); reflexivity.
Qed.

(** The world POST /download leaves. *)
Lemma download_media_world (cfg : config) (t_start t_done : instant)
  (ydl : extractor) (url quality format_type : str) (w : world) :
  snd (download_media cfg t_start t_done ydl url quality format_type w)
  = if valid_scheme url then
      match ydl url (make_opts cfg t_start quality format_type) w with
      | (Return (i, prepared), w1) =>
          snd (after_extraction cfg t_done url format_type
                 (get_platform_from_url url) i prepared w1)
      | (Raise _, w1) => w1
      end
    else w.
Proof.
  unfold download_media. fold (valid_scheme url).
  destruct (valid_scheme url); cbn [negb]; [| reflexivity].
  unfold download_try.
  destruct (ydl url (make_opts cfg t_start quality format_type) w)
    as [[[i prepared] | e] w1].
  - destruct (after_extraction _ _ _ _ _ _ _ _) as [[resp | e] w'];
      [reflexivity |]. destruct e; reflexivity.
  - destruct e; reflexivity.
Qed.

(** C8.  Every operation that can change the world takes the stored
    history from [before] to a tail of [before] with at most one entry
    appended: entries are only added at the end or dropped from the
    front (or all at once), and each entry that stays is the value it
    was.  POST /download does the same to the history the extraction
    tool left behind, unless it rejected the URL and changed
    nothing. *)
Theorem history_append_only (cfg : config) :
  (forall op w,
     history_step (stored_entries w) (stored_entries (run cfg op w)))
  /\ (forall t_start t_done ydl url quality format_type w,
        snd (download_media cfg t_start t_done ydl url quality format_type w) = w
        \/ history_step
             (stored_entries
                (snd (ydl url (make_opts cfg t_start quality format_type) w)))
             (stored_entries
                (snd (download_media cfg t_start t_done ydl url quality
                                     format_type w)))).
Proof.
  split.
  - intros [t data | now | now | filename] w; cbn [run].
    + destruct (add_to_history cfg t data w) as [w' | e] eqn:Hadd;
        [| auto with history_steps].
      apply (add_to_history_step cfg t data). exact Hadd.
    + apply clear_history_step.
    + rewrite clean_old_files_stored. auto with history_steps.
    + apply delete_media_step.
  - intros t_start t_done ydl url quality format_type w.
    rewrite download_media_world.
    destruct (valid_scheme url); [| left; reflexivity].
    right.
    destruct (ydl url (make_opts cfg t_start quality format_type) w)
      as [[[i prepared] | e] w1]; cbn [snd]; [| auto with history_steps].
    rewrite after_extraction_world. case_add_to_history Hadd.
    + apply (add_to_history_step cfg t_done _ _ _ Hadd).
    + auto with history_steps.
Qed.

(* ================================================================== *)
(** * Rendering an answer *)
(* ================================================================== *)

(** Induction on JSON values, with the items of a list and the values
    of a dict as premises. *)
Lemma json_induction (P : json -> Prop) :
  P JNull ->
  (forall b, P (JBool b)) ->
  (forall z, P (JInt z)) ->
  (forall m e, P (JFloat m e)) ->
  (forall s, P (JStr s)) ->
  (forall items, Forall P items -> P (JList items)) ->
  (forall fields, Forall (fun kv => P (snd kv)) fields -> P (JDict fields)) ->
  forall x, P x.
Proof.
  intros Hnull Hbool Hint Hfloat Hstr Hlist Hdict.
  fix IH 1. intros [| b | z | m e | s | items | fields].
  - exact Hnull.
  - apply Hbool.
  - apply Hint.
  - apply Hfloat.
  - apply Hstr.
  - apply Hlist. induction items as [| y rest IHrest]; constructor;
      [apply IH | exact IHrest].
  - apply Hdict. induction fields as [| [k v] rest IHrest]; constructor;
      [apply IH | exact IHrest].
Qed.

Lemma no_surrogate_iff (text : str) :
  existsb is_surrogate text = false
  <-> Forall (fun c => is_surrogate c = false) text.
Proof.
  induction text as [| c t IH]; cbn [existsb].
  - split; [constructor | reflexivity].
  - rewrite orb_false_iff, IH. split.
    + intros [Hc Ht]. constructor; assumption.
    + intros H. inversion H. auto.
Qed.

Lemma small_not_surrogate (c : char) : (c < 256)%N -> is_surrogate c = false.
Proof.
  intros Hc. unfold is_surrogate.
  destruct (55296 <=? c)%N eqn:E; [apply N.leb_le in E; lia | reflexivity].
Qed.

Lemma lit_small (s : string) : Forall (fun c => (c < 256)%N) (lit s).
Proof.
  unfold lit. induction s as [| a s IH]; cbn [list_ascii_of_string map];
    constructor; [apply N_ascii_bounded | exact IH].
Qed.

Lemma small_no_surrogate (text : str) :
  Forall (fun c => (c < 256)%N) text -> existsb is_surrogate text = false.
Proof.
  intros H. apply no_surrogate_iff.
  apply (Forall_impl _ small_not_surrogate H).
Qed.

Lemma Forall_skipn (Q : char -> Prop) (k : nat) (l : str) :
  Forall Q l -> Forall Q (skipn k l).
Proof.
  intros Hl. rewrite <- (firstn_skipn k l) in Hl.
  apply Forall_app in Hl as [_ Hl]. exact Hl.
Qed.

Lemma Forall_rstrip (Q : char -> Prop) (p : char -> bool) (s : str) :
  Forall Q s -> Forall Q (rstrip p s).
Proof.
  intros Hs. unfold rstrip. apply Forall_rev.
  apply Forall_rev in Hs.
  destruct (lstrip_tail p (rev s)) as [a Ha]. rewrite Ha in Hs.
  apply Forall_app in Hs as [_ Hs]. exact Hs.
Qed.

Lemma Forall_repeat (Q : char -> Prop) (c : char) (n : nat) :
  Q c -> Forall Q (repeat c n).
Proof. intros Hc. induction n; cbn [repeat]; constructor; assumption. Qed.

Lemma str_of_int_small (z : Z) : Forall (fun c => (c < 256)%N) (str_of_int z).
Proof. apply lit_small. Qed.

Lemma float_repr_small (m e : Z) : Forall (fun c => (c < 256)%N) (float_repr m e).
Proof.
  unfold float_repr.
  destruct (m =? 0); [apply lit_small |].
  pose proof (Forall_rstrip _ (N.eqb 48) _ (str_of_int_small (Z.abs m))) as Hd.
  apply Forall_app. split; [destruct (m <? 0); [apply lit_small | constructor] |].
  destruct ((-4 <? _) && _).
  - destruct (_ <=? 0).
    + apply Forall_app. split; [apply lit_small |].
      apply Forall_app. split; [apply Forall_repeat; reflexivity | exact Hd].
    + destruct (_ <=? _).
      * apply Forall_app. split; [exact Hd |].
        apply Forall_app. split; [apply Forall_repeat; reflexivity | apply lit_small].
      * apply Forall_app. split; [apply Forall_firstn; exact Hd |].
        apply Forall_app. split; [apply lit_small | apply Forall_skipn; exact Hd].
  - apply Forall_app. split; [apply Forall_firstn; exact Hd |].
    apply Forall_app. split.
    { destruct (1 <? _); [| constructor].
      apply Forall_app. split; [apply lit_small | apply Forall_skipn; exact Hd]. }
    apply Forall_app. split; [apply lit_small |].
    apply Forall_app. split; [destruct (_ <? 0); apply lit_small |].
    apply Forall_app. split; [| apply str_of_int_small].
    destruct (_ <? 10); [apply lit_small | constructor].
Qed.

Lemma hex_digit_small (n : N) : (n < 16)%N -> (hex_digit n < 256)%N.
Proof. intros Hn. unfold hex_digit. destruct (n <? 10)%N; lia. Qed.

Lemma hex4_small (c : N) : Forall (fun d => (d < 256)%N) (hex4 c).
Proof.
  unfold hex4.
  repeat constructor; apply hex_digit_small; apply N.mod_lt; discriminate.
Qed.

(** An escape holds a surrogate only when the character is one. *)
Lemma escape_char_surrogate (c : char) :
  existsb is_surrogate (escape_char c) = is_surrogate c.
Proof.
  unfold escape_char.
  repeat match goal with
         | |- context [(c =? ?k)%N] =>
             destruct (c =? k)%N eqn:?;
             [match goal with H : (c =? k)%N = true |- _ =>
                apply N.eqb_eq in H; subst c; reflexivity end |]
         end.
  destruct (c <? 32)%N eqn:E.
  - apply N.ltb_lt in E.
    rewrite (small_not_surrogate c) by lia.
    apply small_no_surrogate. apply Forall_app.
    split; [apply lit_small | apply hex4_small].
  - cbn [existsb]. apply orb_false_r.
Qed.

Lemma dumps_str_surrogate (s : str) :
  existsb is_surrogate (dumps_str s) = negb (encodable_str s).
Proof.
  unfold dumps_str, encodable_str. cbn [existsb].
  change (is_surrogate 34%N) with false. cbn [orb].
  rewrite existsb_app. cbn [existsb]. change (is_surrogate 34%N) with false.
  cbn [orb]. rewrite orb_false_r.
  induction s as [| c t IH]; [reflexivity |].
  cbn [flat_map forallb]. rewrite existsb_app, escape_char_surrogate, IH.
  rewrite negb_andb, negb_involutive. reflexivity.
Qed.

Lemma join_with_surrogate (sep : str) (parts : list str) :
  existsb is_surrogate sep = false ->
  existsb is_surrogate (join_with sep parts)
  = existsb (existsb is_surrogate) parts.
Proof.
  intros Hsep. induction parts as [| part rest IH]; [reflexivity |].
  destruct rest as [| next rest'].
  - cbn [join_with existsb]. rewrite orb_false_r. reflexivity.
  - change (join_with sep (part :: next :: rest'))
      with (part ++ sep ++ join_with sep (next :: rest')).
    rewrite !existsb_app, Hsep, IH. reflexivity.
Qed.

(** The text of a value holds a surrogate exactly when one of its
    strings does. *)
Lemma dumps_surrogate (x : json) :
  existsb is_surrogate (dumps x) = negb (encodable x).
Proof.
  induction x as [| b | z | m e | s | items IH | fields IH] using json_induction.
  - reflexivity.
  - destruct b; reflexivity.
  - apply small_no_surrogate, str_of_int_small.
  - apply small_no_surrogate, float_repr_small.
  - apply dumps_str_surrogate.
  - cbn [dumps encodable]. rewrite !existsb_app.
    rewrite join_with_surrogate by reflexivity.
    change (existsb is_surrogate (lit "[")) with false.
    change (existsb is_surrogate (lit "]")) with false.
    cbn [orb]. rewrite orb_false_r.
    induction IH as [| y rest Hy _ IHrest]; [reflexivity |].
    cbn [map existsb forallb]. rewrite Hy, IHrest, negb_andb. reflexivity.
  - cbn [dumps encodable]. rewrite !existsb_app.
    rewrite join_with_surrogate by reflexivity.
    change (existsb is_surrogate (lit "{")) with false.
    change (existsb is_surrogate (lit "}")) with false.
    cbn [orb]. rewrite orb_false_r.
    induction IH as [| [k v] rest Hv _ IHrest]; [reflexivity |].
    cbn [map existsb forallb fst snd] in *.
    rewrite !existsb_app, dumps_str_surrogate, Hv, IHrest.
    change (existsb is_surrogate (lit ":")) with false.
    cbn [orb]. rewrite !negb_andb. reflexivity.
Qed.


Lemma encode_error_some (text : str) (position : Z) :
  existsb is_surrogate text = true -> exists msg, encode_error text position = Some msg.
Proof.
  revert position. induction text as [| c t IH]; intros position; [discriminate |].
  cbn [existsb encode_error]. destruct (is_surrogate c); [eauto |].
  cbn [orb]. apply IH.
Qed.


Lemma render_raises (body : json) :
  encodable body = false ->
  exists msg, render body = Raise (OtherError (lit "UnicodeEncodeError") msg).
Proof.
  intros Henc. unfold render.
  destruct (encode_error_some (dumps body) 0) as [msg ->]; [| eauto].
  rewrite dumps_surrogate, Henc. reflexivity.
Qed.

(* ================================================================== *)
(** * POST /download: failures *)
(* ================================================================== *)





(** C5.  POST /download can fail after it has written the history
    entry.  The tool returns a download whose uploader name holds a
    lone surrogate; the entry, which does not carry the uploader, is
    written to the history; then [JSONResponse] cannot encode the
    answer, and the request ends with status 500 and the message of
    the codec, while the history that was empty now holds the entry
    of the download. *)
Theorem download_media_fails_after_recording :
  fst (download_media default_config first_instant second_instant
         surrogate_extractor (lit "https://youtu.be/abc") (lit "best")
         (lit "video") empty_world)
  = HTTPException 500
      (lit "An unexpected error occurred: 'utf-8' codec can't encode character '\ud83d' in position 176: surrogates not allowed")
  /\ load_history default_config empty_world = JList []
  /\ load_history default_config
       (snd (download_media default_config first_instant second_instant
               surrogate_extractor (lit "https://youtu.be/abc") (lit "best")
               (lit "video") empty_world))
     = JList [history_entry second_instant
                (download_entry (lit "https://youtu.be/abc") (lit "video")
                   (lit "YouTube") surrogate_info
                   (lit "downloads/1700000000_clip.mp4"))]
  /\ dict_get (lit "filename")
       (download_entry (lit "https://youtu.be/abc") (lit "video")
          (lit "YouTube") surrogate_info (lit "downloads/1700000000_clip.mp4"))
     = Some (JStr (lit "1700000000_clip.mp4")).
Proof. repeat split; vm_compute; reflexivity. Qed.

(** A successful download answers with the metadata and leaves one
    entry in the history. *)
Lemma download_media_success :
  exists body w',
    download_media default_config first_instant second_instant working_extractor
      (lit "https://youtu.be/abc") (lit "best") (lit "video") empty_world
    = (Json body, w')
    /\ dict_get (lit "download_url")
         (match body with JDict fields => fields | _ => [] end)
       = Some (JStr (lit "/media/1700000000_clip.mp4"))
    /\ List.length (stored_entries w') = 1%nat.
Proof.
  eexists. eexists. split; [vm_compute; reflexivity |].
  split; vm_compute; reflexivity.
Qed.

(* ================================================================== *)
(** * Further properties: the history *)
(* ================================================================== *)

(** A second append under the default cap of 100. *)
Lemma add_to_history_capped_witness :
  exists w' older,
    add_to_history default_config second_instant (sample_data "two")
      (history_only [first_entry] true) = Return w'
    /\ stored_entries w' = [first_entry; second_entry]
    /\ load_history default_config w' = JList (stored_entries w')
    /\ len (stored_entries w') <= 100
    /\ stored_entries w' = older ++ [second_entry].
Proof.
  apply (add_to_history_capped default_config eq_refl second_instant
           (sample_data "two") (history_only [first_entry] true) [first_entry]).
  - right. eexists. split; [reflexivity |]. split; reflexivity.
  - reflexivity.
  - reflexivity.
Defined.

(** Two stored entries and a limit of one: the newer one alone. *)
Lemma get_history_latest_witness :
  get_history default_config 1 (history_only [first_entry; second_entry] true)
  = Json (JDict [(lit "history", JList [second_entry])]).
Proof.
  apply (get_history_latest default_config 1
           (history_only [first_entry; second_entry] true)
           [first_entry; second_entry]); reflexivity.
Defined.

(** Clearing a writable history file that holds one entry. *)
Lemma clear_history_clears_witness :
  load_history default_config
    (snd (clear_history default_config 0 (history_only [first_entry] true)))
  = JList [].
Proof.
  apply (clear_history_clears default_config 0 (history_only [first_entry] true)).
  right. eexists. split; reflexivity.
Defined.

Lemma slice_from_fits {A} (k : Z) (l : list A) :
  0 < k -> len l <= k -> slice_from (- k) l = l.
Proof.
  intros Hk Hfit. rewrite (slice_from_last k l Hk). unfold len in Hfit.
  replace (List.length l - Z.to_nat k)%nat with 0%nat by lia. reflexivity.
Qed.

(** X5.  Saving and loading are a round trip up to the trim: on a
    history file that is absent or can be read and written, when the
    kept items can be encoded, [load_history] after [save_history]
    returns the saved list cut to its last [MAX_HISTORY_ITEMS] items,
    the whole list when the cap is positive and the list fits; when
    they cannot, the file is left cut short and [load_history] returns
    the empty list.  The file stays usable either way. *)
Theorem save_history_then_load (cfg : config) (now : Z) (history : list json)
  (w : world) :
  history_usable w ->
  history_usable (save_history cfg now history w)
  /\ (encodable (JList (slice_from (- MAX_HISTORY_ITEMS cfg) history)) = true ->
      load_history cfg (save_history cfg now history w)
      = JList (slice_from (- MAX_HISTORY_ITEMS cfg) history)
      /\ (0 < MAX_HISTORY_ITEMS cfg -> len history <= MAX_HISTORY_ITEMS cfg ->
          load_history cfg (save_history cfg now history w) = JList history))
  /\ (encodable (JList (slice_from (- MAX_HISTORY_ITEMS cfg) history)) = false ->
      load_history cfg (save_history cfg now history w) = JList []
      /\ stored_entries (save_history cfg now history w) = []).
Proof.
  intros Husable.
  destruct (save_history_node cfg now history w Husable) as (f & Hf & Hb & Hr & Hw).
  split; [right; exists f; auto |].
  unfold json_dump in Hb. split; intros Henc; rewrite Henc in Hb.
  - assert (Hload : load_history cfg (save_history cfg now history w)
                    = JList (slice_from (- MAX_HISTORY_ITEMS cfg) history)).
    { rewrite load_history_eq, Hf, Hr, Hb. reflexivity. }
    split; [exact Hload |].
    intros Hcap Hfit. rewrite Hload, (slice_from_fits _ _ Hcap Hfit). reflexivity.
  - split.
    + rewrite load_history_eq, Hf, Hr, Hb. reflexivity.
    + unfold stored_entries. rewrite Hf, Hb. reflexivity.
Qed.

(** Saving two entries into an empty folder and loading them back. *)
Lemma save_history_then_load_witness :
  load_history default_config
    (save_history default_config 0 [first_entry; second_entry] empty_world)
  = JList [first_entry; second_entry].
Proof.
  destruct (save_history_then_load default_config 0 [first_entry; second_entry]
              empty_world) as (_ & Hfit & _).
  - left. reflexivity.
  - apply Hfit; [reflexivity | reflexivity |]. apply Z.leb_le. reflexivity.
Defined.

(** X6.  An entry that was just appended is the first one GET
    /history shows: on a usable history file that loads as a list,
    with a positive cap and a positive limit, when the kept entries
    can be encoded, [add_to_history] returns and the response
    afterwards starts with the new entry. *)
Theorem add_to_history_then_get_history (cfg : config) (t : instant)
  (data : list (str * json)) (limit : Z) (w : world) (history : list json) :
  history_usable w ->
  0 < MAX_HISTORY_ITEMS cfg ->
  0 < limit ->
  load_history cfg w = JList history ->
  encodable (JList (slice_from (- MAX_HISTORY_ITEMS cfg)
                      (history ++ [history_entry t data]))) = true ->
  exists w' older,
    add_to_history cfg t data w = Return w'
    /\ get_history cfg limit w'
       = Json (JDict [(lit "history", JList (history_entry t data :: older))]).
Proof.
  intros Husable Hcap Hlimit Hload Henc. unfold add_to_history. rewrite Hload.
  destruct (save_history_node cfg (micros t)
              (history ++ [history_entry t data]) w Husable)
    as (f & Hf & Hb & Hr & _).
  unfold json_dump in Hb. rewrite Henc in Hb.
  destruct (slice_from_last_snoc _ history (history_entry t data) Hcap)
    as [kept Hkept].
  destruct (slice_from_last_snoc _ kept (history_entry t data) Hlimit)
    as [shown Hshown].
  eexists. exists (rev shown). split; [reflexivity |].
  unfold get_history. rewrite load_history_eq, Hf, Hr, Hb. unfold py_latest.
  rewrite Hkept, Hshown, rev_app_distr. reflexivity.
Qed.

(** The second append to a history that holds the first entry. *)
Lemma add_to_history_then_get_history_witness :
  exists w' older,
    add_to_history default_config second_instant (sample_data "two")
      (history_only [first_entry] true) = Return w'
    /\ get_history default_config 50 w'
       = Json (JDict [(lit "history", JList (second_entry :: older))]).
Proof.
  apply (add_to_history_then_get_history default_config second_instant
           (sample_data "two") 50 (history_only [first_entry] true)
           [first_entry]).
  - right. eexists. split; [reflexivity |]. split; reflexivity.
  - reflexivity.
  - reflexivity.
  - reflexivity.
  - reflexivity.
Defined.

(** X29.  An append that cannot be encoded costs the whole history:
    on a usable history file that loads as a list, when a kept entry
    holds a surrogate, [add_to_history] still returns normally, but
    [json.dump] has raised after the file was emptied; the file is
    left cut short, [load_history] returns the empty list from then
    on, and GET /history shows nothing.  Nothing else changes. *)
Theorem add_to_history_cut_short (cfg : config) (t : instant)
  (data : list (str * json)) (w : world) (history : list json) :
  history_usable w ->
  load_history cfg w = JList history ->
  encodable (JList (slice_from (- MAX_HISTORY_ITEMS cfg)
                      (history ++ [history_entry t data]))) = false ->
  exists w' f,
    add_to_history cfg t data w = Return w'
    /\ history_node w' = Some (RegularFile f)
    /\ body f = Truncated (JList (slice_from (- MAX_HISTORY_ITEMS cfg)
                                    (history ++ [history_entry t data])))
    /\ load_history cfg w' = JList []
    /\ (forall limit,
          get_history cfg limit w' = Json (JDict [(lit "history", JList [])]))
    /\ elsewhere w' = elsewhere w
    /\ (forall name, name <> HISTORY_NAME ->
          lookup name (folder w') = lookup name (folder w)).
Proof.
  intros Husable Hload Henc. unfold add_to_history. rewrite Hload.
  destruct (save_history_node cfg (micros t)
              (history ++ [history_entry t data]) w Husable)
    as (f & Hf & Hb & Hr & _).
  unfold json_dump in Hb. rewrite Henc in Hb.
  assert (Hempty : load_history cfg
                     (save_history cfg (micros t)
                        (history ++ [history_entry t data]) w) = JList []).
  { rewrite load_history_eq, Hf, Hr, Hb. reflexivity. }
  eexists. exists f. split; [reflexivity |].
  split; [exact Hf |]. split; [exact Hb |]. split; [exact Hempty |].
  split.
  { intros limit. unfold get_history. rewrite Hempty. unfold py_latest.
    rewrite slice_from_nil. reflexivity. }
  apply save_history_frame.
Qed.

(** A title with a lone surrogate appended to a history of one entry:
    the entry that was there is gone. *)
Lemma add_to_history_cut_short_witness :
  exists w' f,
    add_to_history default_config second_instant surrogate_data
      (history_only [first_entry] true) = Return w'
    /\ history_node w' = Some (RegularFile f)
    /\ load_history default_config (history_only [first_entry] true)
       = JList [first_entry]
    /\ load_history default_config w' = JList [].
Proof.
  destruct (add_to_history_cut_short default_config second_instant surrogate_data
              (history_only [first_entry] true) [first_entry])
    as (w' & f & Hadd & Hnode & _ & Hload & _).
  - right. eexists. split; [reflexivity |]. split; reflexivity.
  - reflexivity.
  - reflexivity.
  - exists w', f. repeat split; assumption || reflexivity.
Defined.

Lemma add_to_history_only_history (cfg : config) (t : instant)
  (data : list (str * json)) (w w' : world) :
  add_to_history cfg t data w = Return w' ->
  elsewhere w' = elsewhere w
  /\ forall name, name <> HISTORY_NAME ->
       lookup name (folder w') = lookup name (folder w).
Proof.
  unfold add_to_history.
  destruct (load_history cfg w); try discriminate.
  intros Hret. inversion Hret. apply save_history_frame.
Qed.

(** X7.  Recording a download changes nothing but the history file:
    [add_to_history] leaves every other folder entry and everything
    outside the folder as it was, and so does POST /download beyond
    what the extraction tool itself did. *)
Theorem history_writes_touch_only_history (cfg : config) :
  (forall t data w w',
     add_to_history cfg t data w = Return w' ->
     elsewhere w' = elsewhere w
     /\ forall name, name <> HISTORY_NAME ->
          lookup name (folder w') = lookup name (folder w))
  /\ (forall t_start t_done ydl url quality format_type w,
        exists base,
          (base = w
           \/ base = snd (ydl url (make_opts cfg t_start quality format_type) w))
          /\ elsewhere
               (snd (download_media cfg t_start t_done ydl url quality format_type w))
             = elsewhere base
          /\ forall name, name <> HISTORY_NAME ->
               lookup name
                 (folder (snd (download_media cfg t_start t_done ydl url quality
                                              format_type w)))
               = lookup name (folder base)).
Proof.
  split; [apply add_to_history_only_history |].
  intros t_start t_done ydl url quality format_type w.
  rewrite download_media_world.
  destruct (valid_scheme url); [| exists w; auto].
  destruct (ydl url (make_opts cfg t_start quality format_type) w)
    as [[[i prepared] | e] w1]; cbn [snd]; exists w1; [| auto].
  rewrite after_extraction_world. case_add_to_history Hadd.
  - split; [auto |].
    apply (add_to_history_only_history _ _ _ _ _ Hadd).
  - auto.
Qed.

(** The append to an empty folder leaves the outside empty. *)
Lemma history_writes_touch_only_history_witness :
  elsewhere
    (save_history default_config (micros first_instant) [first_entry] empty_world)
  = elsewhere empty_world.
Proof.
  destruct (history_writes_touch_only_history default_config) as [Hadd _].
  apply (Hadd first_instant (sample_data "one") empty_world).
  vm_compute. reflexivity.
Defined.

Lemma dict_get_set_same (k : str) (v : json) (d : list (str * json)) :
  dict_get k (dict_set k v d) = Some v.
Proof.
  induction d as [| [k' v'] d IH]; cbn [dict_set dict_get].
  - rewrite str_eqb_refl. reflexivity.
  - destruct (str_eqb k' k) eqn:E; cbn [dict_get].
    + rewrite str_eqb_refl. reflexivity.
    + rewrite E. exact IH.
Qed.

Lemma dict_get_set_other (k k' : str) (v : json) (d : list (str * json)) :
  k <> k' -> dict_get k' (dict_set k v d) = dict_get k' d.
Proof.
  intros Hne. induction d as [| [k0 v0] d IH]; cbn [dict_set dict_get].
  - rewrite (str_eqb_neq _ _ Hne). reflexivity.
  - destruct (str_eqb k0 k) eqn:E; cbn [dict_get].
    + apply str_eqb_eq in E. subst k0. rewrite !(str_eqb_neq _ _ Hne). reflexivity.
    + destruct (str_eqb k0 k'); [reflexivity | exact IH].
Qed.

(** X8.  The entry [add_to_history] builds always carries the clock's
    [timestamp] and [id], also when the data passed in has fields of
    those names, and every other field of the data as it was. *)
Theorem history_entry_fields (t : instant) (data : list (str * json)) :
  exists fields,
    history_entry t data = JDict fields
    /\ dict_get (lit "timestamp") fields = Some (JStr (isoformat t))
    /\ dict_get (lit "id") fields = Some (JStr (hex_id t))
    /\ forall key, key <> lit "timestamp" -> key <> lit "id" ->
         dict_get key fields = dict_get key data.
Proof.
  eexists. split; [reflexivity |]. split; [| split].
  - rewrite dict_get_set_other by discriminate. apply dict_get_set_same.
  - apply dict_get_set_same.
  - intros key Hts Hid.
    rewrite !dict_get_set_other by congruence. reflexivity.
Qed.

(** The url of the sample data survives in the entry. *)
Lemma history_entry_fields_witness :
  exists fields,
    first_entry = JDict fields
    /\ dict_get (lit "url") fields = Some (JStr (lit "https://youtu.be/one")).
Proof.
  destruct (history_entry_fields first_instant (sample_data "one"))
    as (fields & Hentry & _ & _ & Hother).
  exists fields. split; [exact Hentry |].
  rewrite Hother; [reflexivity | discriminate | discriminate].
Defined.

(** X9.  When the history file holds JSON that is not a list, a
    download whose extraction succeeded is still answered with status
    500: [history.append] raises, nothing is written, and the world is
    the one the tool left, downloaded file included. *)
Theorem download_media_history_not_a_list (cfg : config) (t_start t_done : instant)
  (ydl : extractor) (url quality format_type : str) (w w1 : world)
  (i : info) (prepared : str) :
  valid_scheme url = true ->
  ydl url (make_opts cfg t_start quality format_type) w = (Return (i, prepared), w1) ->
  (forall items, load_history cfg w1 <> JList items) ->
  download_media cfg t_start t_done ydl url quality format_type w
  = (HTTPException 500
       (lit "An unexpected error occurred: '" ++ type_name (load_history cfg w1)
        ++ lit "' object has no attribute 'append'"),
     w1).
Proof.
  intros Hvalid Hydl Hnot. unfold download_media. fold (valid_scheme url).
  rewrite Hvalid. cbn [negb]. unfold download_try. rewrite Hydl.
  unfold after_extraction, add_to_history.
  destruct (load_history cfg w1) as [| b | z | m e | s | items | fields];
    try reflexivity.
  exfalso. apply (Hnot items). reflexivity.
Qed.

(** A history file that holds an object: the download is extracted
    and answered with 500. *)
Lemma download_media_history_not_a_list_witness :
  fst (download_media default_config first_instant second_instant working_extractor
         (lit "https://youtu.be/abc") (lit "best") (lit "video") object_history)
  = HTTPException 500
      (lit "An unexpected error occurred: 'dict' object has no attribute 'append'").
Proof.
  rewrite (download_media_history_not_a_list default_config first_instant
             second_instant working_extractor (lit "https://youtu.be/abc")
             (lit "best") (lit "video") object_history
             (snd (working_extractor [] (make_opts default_config first_instant
                                           (lit "best") (lit "video"))
                     object_history))
             sample_info (lit "downloads/1700000000_clip.mp4")).
  - vm_compute. reflexivity.
  - reflexivity.
  - reflexivity.
  - intros items. vm_compute. discriminate.
Defined.

(** X10.  GET /stats with a history list: when the newest entry is a
    dict with a [timestamp], the answer counts the listed files and
    the entries and reports that timestamp; when the newest entry is a
    dict without one, the lookup raises and the whole answer falls
    back to zeros, the file count included. *)
Theorem get_stats_newest_entry (cfg : config) (w : world) (older : list json)
  (fields : list (str * json)) :
  load_history cfg w = JList (older ++ [JDict fields]) ->
  (forall stamp, dict_get (lit "timestamp") fields = Some stamp ->
     get_stats cfg w
     = {| total_downloads := len (filter listed (folder w));
          history_count := len older + 1;
          last_download := stamp |})
  /\ (dict_get (lit "timestamp") fields = None ->
      get_stats cfg w = stats_on_error).
Proof.
  intros Hload. unfold get_stats. rewrite Hload. cbn [py_len].
  assert (Htruthy : py_truthy (JList (older ++ [JDict fields])) = true)
    by (destruct older; reflexivity).
  rewrite Htruthy. cbn [py_last]. rewrite rev_app_distr. cbn [rev app].
  cbn [py_getitem]. rewrite len_app. change (len [JDict fields]) with 1.
  split.
  - intros stamp ->. reflexivity.
  - intros ->. reflexivity.
Qed.

(** One file and one entry: one download, one entry, its timestamp. *)
Lemma get_stats_newest_entry_witness :
  get_stats default_config
    {| folder := (lit "clip.mp4", media_file 0 true)
                 :: folder (history_only [first_entry] true);
       elsewhere := [] |}
  = {| total_downloads := 1; history_count := 1;
       last_download := JStr (isoformat first_instant) |}.
Proof.
  destruct (get_stats_newest_entry default_config
              {| folder := (lit "clip.mp4", media_file 0 true)
                           :: folder (history_only [first_entry] true);
                 elsewhere := [] |}
              [] (dict_set (lit "id") (JStr (hex_id first_instant))
                    (dict_set (lit "timestamp") (JStr (isoformat first_instant))
                       (sample_data "one"))))
    as [Hstamp _].
  - vm_compute. reflexivity.
  - apply (Hstamp (JStr (isoformat first_instant))). vm_compute. reflexivity.
Defined.

(* ================================================================== *)
(** * Further properties: media files *)
(* ================================================================== *)

Lemma basename_fixed (s : str) : slash_free s -> basename s = s.
Proof.
  intros Hfree. unfold basename.
  destruct (rfind_spec slash s) as [[-> _] | (a & b & Hs & _ & _)].
  - reflexivity.
  - exfalso. rewrite Hs in Hfree. apply Forall_app in Hfree as [_ Hfree].
    inversion Hfree as [| ? ? Hne _]. apply Hne. reflexivity.
Qed.

(** X11.  Both media handlers see only the basename of their
    parameter: whatever directories the value names, the answer and the
    effect are those for the bare file name. *)
Theorem media_handlers_use_basename (cfg : config) (filename : str) (w : world) :
  serve_media cfg filename w = serve_media cfg (basename filename) w
  /\ delete_media cfg filename w = delete_media cfg (basename filename) w.
Proof.
  unfold serve_media, delete_media.
  rewrite (basename_fixed (basename filename) (basename_slash_free filename)).
  split; reflexivity.
Qed.

Lemma exists_media (cfg : config) (filename : str) (w : world) :
  exists_ cfg w (media_path cfg filename)
  = if dot_name (basename filename) then true
    else match lookup (basename filename) (folder w) with
         | Some _ => true
         | None => false
         end.
Proof.
  unfold exists_. rewrite node_at_media.
  destruct (dot_name (basename filename)); reflexivity.
Qed.

(** X12.  A file that DELETE /media removed is gone: after a
    successful answer, GET and DELETE for the same name both answer
    404, and the name was a regular file of the folder before. *)
Theorem delete_media_then_not_found (cfg : config) (filename : str) (w w' : world)
  (body : json) :
  delete_media cfg filename w = (Json body, w') ->
  (exists f, lookup (basename filename) (folder w) = Some (RegularFile f)
             /\ removable f = true)
  /\ serve_media cfg filename w' = HTTPException 404 (lit "File not found")
  /\ delete_media cfg filename w' = (HTTPException 404 (lit "File not found"), w').
Proof.
  unfold delete_media at 1. unfold remove_path.
  fold (media_path cfg filename). rewrite exists_media, locate_media.
  destruct (dot_name (basename filename)) eqn:Hdot; [discriminate |].
  destruct (lookup (basename filename) (folder w)) as [[f |] |]; cbn [negb];
    try discriminate.
  destruct (removable f) eqn:Er; [| discriminate].
  intros Hdel. inversion Hdel as [[Hbody Hw']]. clear Hdel.
  split; [eauto |].
  apply media_not_found. rewrite exists_media, Hdot. cbn [folder].
  rewrite lookup_drop_same. reflexivity.
Qed.

(** Deleting the only media file of the guarded folder. *)
Lemma delete_media_then_not_found_witness :
  serve_media default_config (lit "clip.mp4")
    (snd (delete_media default_config (lit "clip.mp4") guarded_world))
  = HTTPException 404 (lit "File not found").
Proof.
  destruct (delete_media_then_not_found default_config (lit "clip.mp4")
              guarded_world
              (snd (delete_media default_config (lit "clip.mp4") guarded_world))
              (JDict [(lit "success", JBool true);
                      (lit "message", JStr (lit "File deleted successfully"))]))
    as (_ & Hserve & _).
  - vm_compute. reflexivity.
  - exact Hserve.
Defined.



Lemma media_path_history (cfg : config) (filename : str) :
  basename filename = HISTORY_NAME -> media_path cfg filename = HISTORY_FILE cfg.
Proof. intros Hname. unfold media_path, HISTORY_FILE. rewrite Hname. reflexivity. Qed.

(** X14.  The media handlers reach the history file: for a parameter
    whose basename is [.history.json], GET sends the history file when
    it can be read, and DELETE removes it when it can be removed, after
    which the history loads as empty. *)
Theorem media_handlers_reach_history (cfg : config) (filename : str) (w : world)
  (f : file) :
  basename filename = HISTORY_NAME ->
  history_node w = Some (RegularFile f) ->
  (readable f = true ->
   serve_media cfg filename w = FileResponse (HISTORY_FILE cfg) HISTORY_NAME (body f))
  /\ (removable f = true ->
      fst (delete_media cfg filename w)
      = Json (JDict [(lit "success", JBool true);
                     (lit "message", JStr (lit "File deleted successfully"))])
      /\ history_node (snd (delete_media cfg filename w)) = None
      /\ load_history cfg (snd (delete_media cfg filename w)) = JList []).
Proof.
  intros Hname Hnode. unfold history_node in Hnode.
  unfold serve_media, delete_media, read, remove_path.
  fold (media_path cfg filename).
  rewrite exists_media, node_at_media, locate_media, Hname.
  change (dot_name HISTORY_NAME) with false. cbv iota.
  rewrite Hnode. cbn [negb]. rewrite (media_path_history cfg filename Hname).
  split.
  - intros ->. reflexivity.
  - intros ->. cbn [fst snd]. split; [reflexivity |].
    assert (Hgone : history_node
                      {| folder := drop HISTORY_NAME (folder w);
                         elsewhere := elsewhere w |} = None)
      by (unfold history_node; cbn [folder]; apply lookup_drop_same).
    split; [exact Hgone |].
    rewrite load_history_eq, Hgone. reflexivity.
Qed.

(** DELETE /media/.history.json on a folder with one stored entry. *)
Lemma media_handlers_reach_history_witness :
  load_history default_config
    (snd (delete_media default_config HISTORY_NAME (history_only [first_entry] true)))
  = JList [].
Proof.
  destruct (media_handlers_reach_history default_config HISTORY_NAME
              (history_only [first_entry] true)
              {| body := Doc (JList [first_entry]); st_mtime := 0;
                 readable := true; writable := true; removable := true |})
    as [_ Hdel].
  - reflexivity.
  - reflexivity.
  - apply Hdel. reflexivity.
Defined.

Lemma not_reserved_not_slash (c : char) : is_reserved c = false -> c <> slash.
Proof. intros H ->. discriminate. Qed.

Lemma sanitize_filename_slash_free (filename : str) (max_length : Z) :
  slash_free (sanitize_filename filename max_length).
Proof.
  unfold slash_free.
  pose proof (sanitize_filename_safe filename max_length) as Hsafe.
  rewrite Forall_forall in *. intros c Hc.
  apply not_reserved_not_slash. apply (Hsafe c Hc).
Qed.

Lemma dot_name_head (c : char) (t : str) :
  N.eqb c dot = false -> dot_name (c :: t) = false.
Proof.
  intros Hc. unfold dot_name.
  change (str_eqb (c :: t) []) with false.
  change (str_eqb (c :: t) (lit ".")) with (N.eqb c dot && str_eqb t []).
  change (str_eqb (c :: t) (lit "..")) with (N.eqb c dot && str_eqb t [dot]).
  rewrite Hc. reflexivity.
Qed.

Lemma dot_name_last (u : str) (d : char) :
  N.eqb d dot = false -> dot_name (dot :: u ++ [d]) = false.
Proof.
  intros Hd. unfold dot_name.
  change (str_eqb (dot :: u ++ [d]) []) with false.
  change (str_eqb (dot :: u ++ [d]) (lit ".")) with (true && str_eqb (u ++ [d]) []).
  change (str_eqb (dot :: u ++ [d]) (lit "..")) with (true && str_eqb (u ++ [d]) [dot]).
  destruct u as [| x u]; cbn [app str_eqb andb orb].
  - rewrite Hd. reflexivity.
  - destruct (u ++ [d]) eqn:E; [destruct u; discriminate |].
    rewrite andb_false_r. reflexivity.
Qed.

Lemma not_dot_or_underscore (c : char) :
  is_dot_or_underscore c = false -> N.eqb c dot = false.
Proof.
  unfold is_dot_or_underscore, is_dot. intros H.
  apply orb_false_iff in H as [H _]. exact H.
Qed.

Lemma tail_of_split (l : str) (x : char) (b u : str) (d : char) :
  l ++ x :: b = u ++ [d] -> (b = [] /\ x = d) \/ exists v, b = v ++ [d].
Proof.
  intros Heq. induction b as [| y b' _] using rev_ind.
  - left. split; [reflexivity |].
    apply app_inj_tail in Heq as [_ Hx]. exact Hx.
  - right. exists b'.
    assert (Hy : (l ++ x :: b') ++ [y] = u ++ [d])
      by (rewrite <- Heq, <- app_assoc; reflexivity).
    apply app_inj_tail in Hy as [_ ->]. reflexivity.
Qed.

(** The cleaned name is empty, or begins and ends with a character
    that is not a dot. *)
Lemma sanitize_clean_ends (filename : str) :
  sanitize_clean filename = []
  \/ (exists c t, sanitize_clean filename = c :: t /\ N.eqb c dot = false)
     /\ (exists u d, sanitize_clean filename = u ++ [d] /\ N.eqb d dot = false).
Proof.
  unfold sanitize_clean.
  match goal with
  | |- strip ?p ?x = [] \/ _ =>
      destruct (strip_ends p x) as [Hnil | [(c & t & Hp & Hc) (u & d & Hl & Hd)]]
  end.
  - left. exact Hnil.
  - right. apply not_dot_or_underscore in Hc, Hd. split; eauto.
Qed.

Lemma sanitize_filename_not_dot_name (filename : str) (max_length : Z) :
  dot_name (sanitize_filename filename max_length) = false.
Proof.
  unfold sanitize_filename.
  destruct (truthy (limit_length (sanitize_clean filename) max_length)) eqn:Htruthy;
    [| reflexivity].
  destruct (limit_length_shape (sanitize_clean filename) max_length)
    as [E | [[k E] | (a & b & k & Hsplit & E)]];
    rewrite E in *; clear E;
    destruct (sanitize_clean_ends filename)
      as [Hnil | [(c & t & Hp & Hc) (u & d & Hlast & Hd)]].
  - rewrite Hnil in Htruthy. discriminate.
  - rewrite Hp. apply dot_name_head. exact Hc.
  - rewrite Hnil in Htruthy. destruct k; discriminate.
  - rewrite Hp in *. destruct k; [discriminate |].
    cbn [firstn]. apply dot_name_head. exact Hc.
  - rewrite Hnil in Hsplit. destruct a; discriminate.
  - rewrite Hsplit in Hp, Hlast.
    destruct a as [| x a].
    + cbn [app] in Hp. inversion Hp. subst c. discriminate.
    + cbn [app] in Hp. inversion Hp. subst x.
      destruct k; cbn [firstn app]; [| apply dot_name_head; exact Hc].
      destruct (tail_of_split _ _ _ _ _ Hlast) as [[_ Hdd] | [v ->]].
      * subst d. discriminate.
      * apply dot_name_last. exact Hd.
Qed.

(** X15.  Every name [sanitize_filename] returns is a plain entry
    name: it holds no separator and is not empty, [.] or [..], so
    [basename] leaves it as it is and the media path built from it
    leads to the folder entry of exactly that name. *)
Theorem sanitized_name_names_an_entry (cfg : config) (filename : str)
  (max_length : Z) :
  basename (sanitize_filename filename max_length)
  = sanitize_filename filename max_length
  /\ dot_name (sanitize_filename filename max_length) = false
  /\ locate cfg (media_path cfg (sanitize_filename filename max_length))
     = Child (sanitize_filename filename max_length).
Proof.
  pose proof (basename_fixed _ (sanitize_filename_slash_free filename max_length))
    as Hbase.
  pose proof (sanitize_filename_not_dot_name filename max_length) as Hdot.
  split; [exact Hbase |]. split; [exact Hdot |].
  rewrite locate_media, Hbase, Hdot. reflexivity.
Qed.

(* ================================================================== *)
(** * Further properties: the sweep *)
(* ================================================================== *)

Lemma sweep_again (cut : Z) (entries : list (str * node)) (n m : Z) :
  fst (sweep cut (fst (sweep cut entries n)) m) = fst (sweep cut entries n).
Proof.
  revert n m. induction entries as [| e rest IH]; intros n m; [reflexivity |].
  cbn [sweep].
  destruct (sweep_entry cut e) as [[|] |] eqn:E.
  - apply IH.
  - specialize (IH n m). destruct (sweep cut rest n) as [kept outcome].
    cbn [fst] in *. cbn [sweep]. rewrite E.
    destruct (sweep cut kept m) as [kept' outcome']. cbn [fst] in *.
    rewrite IH. reflexivity.
  - cbn [fst sweep]. rewrite E. reflexivity.
Qed.

(** X16.  The sweep is idempotent: POST /cleanup run a second time at
    the same instant leaves the world exactly as the first run left
    it, whether or not the first run was stopped by a file it could
    not remove. *)
Theorem cleanup_old_files_idempotent (cfg : config) (now : Z) (w : world) :
  snd (cleanup_old_files cfg now (snd (cleanup_old_files cfg now w)))
  = snd (cleanup_old_files cfg now w).
Proof.
  unfold cleanup_old_files, clean_old_files. cbn [snd].
  destruct (cutoff cfg now) as [cut |] eqn:Hcut; [| reflexivity].
  cbn [folder elsewhere]. rewrite sweep_again. reflexivity.
Qed.

Lemma filter_filter_length {A} (f g : A -> bool) (l : list A) :
  (List.length (filter f (filter g l)) <= List.length (filter f l))%nat.
Proof.
  induction l as [| x l IH]; cbn [filter]; [lia |].
  destruct (g x); cbn [filter]; destruct (f x); cbn [List.length]; lia.
Qed.

Lemma sweep_listed_count (cut : Z) (entries : list (str * node)) (n : Z) :
  len (filter listed (fst (sweep cut entries n))) <= len (filter listed entries).
Proof.
  destruct (sweep_shape cut entries n) as (pre & rest & -> & -> & _).
  unfold len. rewrite !filter_app, !length_app.
  pose proof (filter_filter_length listed (fun e => negb (sweepable cut e)) pre).
  lia.
Qed.

(** X17.  What the sweep does to GET /stats: the number of downloads
    never grows, and the history count and the last download stay
    what they were. *)
Theorem clean_old_files_stats (cfg : config) (now : Z) (w : world) :
  total_downloads (get_stats cfg (clean_old_files cfg now w))
  <= total_downloads (get_stats cfg w)
  /\ history_count (get_stats cfg (clean_old_files cfg now w))
     = history_count (get_stats cfg w)
  /\ last_download (get_stats cfg (clean_old_files cfg now w))
     = last_download (get_stats cfg w).
Proof.
  unfold get_stats.
  rewrite !load_history_eq, clean_old_files_history.
  set (history := match history_node w with
                  | Some (RegularFile f) =>
                      if readable f
                      then match body f with Doc j => j | _ => JList [] end
                      else JList []
                  | _ => JList []
                  end).
  assert (Hcount : len (filter listed (folder (clean_old_files cfg now w)))
                   <= len (filter listed (folder w))).
  { unfold clean_old_files. destruct (cutoff cfg now) as [cut |]; [| lia].
    apply sweep_listed_count. }
  destruct (py_len history);
    [| cbn; repeat split; reflexivity].
  destruct (if py_truthy history
            then match py_last history with
                 | Return entry => py_getitem entry (lit "timestamp")
                 | Raise e => Raise e
                 end
            else Return JNull);
    cbn [total_downloads history_count last_download stats_on_error];
    repeat split; try reflexivity. exact Hcount.
Qed.

(* ================================================================== *)
(** * Further properties: the options handed to the extraction tool *)
(* ================================================================== *)

(** X18.  [get_format_string]: for the format type [audio] the
    quality is ignored; for any other format type a quality outside
    the four known keys falls back to the bare selector [best], which
    is not the selector the key [best] itself gives; and every selector
    the function returns ends with the catch-all [best]. *)
Theorem get_format_string_fallbacks (quality format_type : str) :
  (format_type = lit "audio" ->
     get_format_string quality format_type = lit "bestaudio/best")
  /\ (format_type <> lit "audio" ->
      quality <> lit "best" -> quality <> lit "high" ->
      quality <> lit "medium" -> quality <> lit "low" ->
      get_format_string quality format_type = lit "best")
  /\ (format_type <> lit "audio" ->
      get_format_string (lit "best") format_type <> lit "best")
  /\ endswith (get_format_string quality format_type) (lit "best") = true.
Proof.
  unfold get_format_string. split; [| split; [| split]].
  - intros ->. reflexivity.
  - intros Ha Hb Hh Hm Hl.
    rewrite !str_eqb_neq by assumption. reflexivity.
  - intros Ha. rewrite (str_eqb_neq _ _ Ha). discriminate.
  - destruct (str_eqb format_type (lit "audio")); [reflexivity |].
    destruct (str_eqb quality (lit "best")); [reflexivity |].
    destruct (str_eqb quality (lit "high")); [reflexivity |].
    destruct (str_eqb quality (lit "medium")); [reflexivity |].
    destruct (str_eqb quality (lit "low")); reflexivity.
Qed.

(** An unknown quality for a video. *)
Lemma get_format_string_fallbacks_witness :
  get_format_string (lit "ultra") (lit "video") = lit "best".
Proof.
  destruct (get_format_string_fallbacks (lit "ultra") (lit "video"))
    as (_ & Hunknown & _).
  apply Hunknown; discriminate.
Defined.

Lemma lit_string_of_uint_slash_free (d : Decimal.uint) :
  slash_free (lit (NilEmpty.string_of_uint d)).
Proof.
  unfold slash_free, lit.
  induction d; cbn [NilEmpty.string_of_uint list_ascii_of_string map];
    constructor; try discriminate; assumption.
Qed.

Lemma str_of_int_slash_free (z : Z) : slash_free (str_of_int z).
Proof.
  unfold str_of_int, NilZero.string_of_int.
  assert (Hu : forall d, slash_free (lit (NilZero.string_of_uint d))).
  { intros d. unfold NilZero.string_of_uint.
    destruct d; try apply lit_string_of_uint_slash_free.
    repeat constructor. discriminate. }
  destruct (Z.to_int z) as [d | d]; [apply Hu |].
  unfold slash_free, lit. cbn [list_ascii_of_string map].
  constructor; [discriminate | apply Hu].
Qed.

Lemma dot_name_short (s : str) : dot_name s = true -> (List.length s <= 2)%nat.
Proof.
  unfold dot_name. intros H.
  apply orb_true_iff in H as [H | H]; [apply orb_true_iff in H as [H | H] |];
    apply str_eqb_eq in H; subst s; cbn; lia.
Qed.

(** X19.  The output template handed to the extraction tool always
    names an entry directly inside the download folder: it is the
    folder joined with a name that holds no separator and is not [.]
    or [..], whatever the clock, the quality and the format type. *)
Theorem make_opts_outtmpl_in_folder (cfg : config) (t : instant)
  (quality format_type : str) :
  exists template,
    opt_outtmpl (make_opts cfg t quality format_type)
    = join (DOWNLOAD_FOLDER cfg) template
    /\ slash_free template
    /\ locate cfg (opt_outtmpl (make_opts cfg t quality format_type))
       = Child template.
Proof.
  exists (str_of_int (Z.quot (micros t) 1000000) ++ lit "_%(title).100s.%(ext)s").
  assert (Hfree : slash_free (str_of_int (Z.quot (micros t) 1000000)
                              ++ lit "_%(title).100s.%(ext)s")).
  { apply Forall_app. split; [apply str_of_int_slash_free |].
    repeat constructor; discriminate. }
  split; [reflexivity |]. split; [exact Hfree |].
  cbn [make_opts opt_outtmpl]. rewrite (locate_join cfg _ Hfree).
  destruct (dot_name _) eqn:Hdot; [| reflexivity].
  apply dot_name_short in Hdot. rewrite length_app in Hdot.
  cbn [lit list_ascii_of_string map List.length] in Hdot. lia.
Qed.

(* ================================================================== *)
(** * Further properties: GET /list *)
(* ================================================================== *)

Lemma str_ltb_asym (a b : str) : str_ltb a b = true -> str_ltb b a = false.
Proof.
  revert b. induction a as [| x a IH]; intros [| y b]; cbn [str_ltb];
    try discriminate; try reflexivity.
  destruct (x <? y)%N eqn:Exy.
  - intros _. apply N.ltb_lt in Exy.
    destruct (y <? x)%N eqn:Eyx; [apply N.ltb_lt in Eyx; lia | reflexivity].
  - destruct (y <? x)%N eqn:Eyx; [discriminate | apply IH].
Qed.

Lemma insert_desc_perm {A} (key : A -> str) (x : A) (l : list A) :
  Permutation (insert_desc key x l) (x :: l).
Proof.
  induction l as [| y l IH]; cbn [insert_desc]; [reflexivity |].
  destruct (str_ltb (key x) (key y)); [| reflexivity].
  rewrite IH. apply perm_swap.
Qed.

Lemma sorted_desc_perm {A} (key : A -> str) (l : list A) :
  Permutation (sorted_desc key l) l.
Proof.
  induction l as [| x l IH]; cbn [sorted_desc fold_right]; [reflexivity |].
  fold (sorted_desc key l). rewrite insert_desc_perm, IH. reflexivity.
Qed.

Lemma insert_desc_sorted {A} (key : A -> str) (x : A) (l : list A) :
  Sorted (fun a b => str_ltb (key a) (key b) = false) l ->
  Sorted (fun a b => str_ltb (key a) (key b) = false) (insert_desc key x l).
Proof.
  induction 1 as [| y l Hl IH Hhd]; cbn [insert_desc].
  - repeat constructor.
  - destruct (str_ltb (key x) (key y)) eqn:E.
    + constructor; [exact IH |].
      destruct l as [| z l']; cbn [insert_desc].
      * constructor. apply str_ltb_asym. exact E.
      * destruct (str_ltb (key x) (key z)).
        -- inversion Hhd. constructor. assumption.
        -- constructor. apply str_ltb_asym. exact E.
    + constructor; [constructor; assumption |]. constructor. exact E.
Qed.

Lemma sorted_desc_sorted {A} (key : A -> str) (l : list A) :
  Sorted (fun a b => str_ltb (key a) (key b) = false) (sorted_desc key l).
Proof.
  induction l as [| x l IH]; cbn [sorted_desc fold_right]; [constructor |].
  apply insert_desc_sorted. exact IH.
Qed.

(** X20.  GET /list answers with one record for every regular file of
    the folder whose name does not start with a dot, and with nothing
    else; the records are ordered by their [created] string, largest
    first. *)
Theorem list_downloads_listing (stat : str * node -> stat_result) (w : world) :
  exists files,
    list_downloads stat w = Json (JDict [(lit "files", JList files)])
    /\ Permutation files (map (file_record stat) (filter listed (folder w)))
    /\ Sorted (fun a b => str_ltb (created_of a) (created_of b) = false) files
    /\ (forall e, In e (folder w) -> listed e = true ->
          In (file_record stat e) files)
    /\ (forall r, In r files ->
          exists e, In e (folder w) /\ listed e = true /\ r = file_record stat e).
Proof.
  eexists. split; [reflexivity |].
  pose proof (sorted_desc_perm created_of
                (map (file_record stat) (filter listed (folder w)))) as Hperm.
  split; [exact Hperm |]. split; [apply sorted_desc_sorted |]. split.
  - intros e Hin Hlisted.
    apply (Permutation_in _ (Permutation_sym Hperm)).
    apply in_map. apply filter_In. auto.
  - intros r Hr. apply (Permutation_in _ Hperm) in Hr.
    apply in_map_iff in Hr as (e & <- & He).
    apply filter_In in He as [Hin Hlisted]. eauto.
Qed.


Lemma not_hidden_not_dot_name (name : str) :
  name <> [] -> startswith name (lit ".") = false -> dot_name name = false.
Proof.
  intros Hne Hdot. destruct name as [| c t]; [congruence |].
  apply dot_name_head.
  change (startswith (c :: t) (lit ".")) with (N.eqb dot c && true) in Hdot.
  rewrite andb_true_r, N.eqb_sym in Hdot. exact Hdot.
Qed.



(** The listing of the mixed folder shows the expired file. *)
Lemma list_downloads_listing_witness :
  exists files,
    list_downloads (fun _ => {| st_size := 3; st_ctime_iso := lit "2023-11-14" |})
      mixed_folder
    = Json (JDict [(lit "files", JList files)])
    /\ In (file_record (fun _ => {| st_size := 3; st_ctime_iso := lit "2023-11-14" |})
             (lit "old.mp4", media_file 0 true))
          files.
Proof.
  destruct (list_downloads_listing
              (fun _ => {| st_size := 3; st_ctime_iso := lit "2023-11-14" |})
              mixed_folder) as (files & Hlist & _ & _ & Hin & _).
  exists files. split; [exact Hlist |].
  apply Hin; [left; reflexivity | reflexivity].
Defined.

(** Clearing the history of the mixed folder leaves its media file. *)
Lemma clear_history_frame_witness :
  lookup (lit "old.mp4") (folder (snd (clear_history default_config 0 mixed_folder)))
  = lookup (lit "old.mp4") (folder mixed_folder).
Proof.
  destruct (clear_history_frame default_config 0 mixed_folder) as [_ Hother].
  apply Hother. discriminate.
Defined.

(* ================================================================== *)
(** * Further properties: a successful download *)
(* ================================================================== *)











(* ================================================================== *)
(** * Further properties: sanitizing twice *)
(* ================================================================== *)

Lemma remove_nothing (p : char -> bool) (s : str) :
  Forall (fun c => p c = false) s -> remove p s = s.
Proof.
  induction 1 as [| c t Hc Ht IH]; cbn [remove filter]; [reflexivity |].
  rewrite Hc. cbn [negb]. f_equal. exact IH.
Qed.

Lemma sub_runs_nothing (p : char -> bool) (r : char) (s : str) :
  Forall (fun c => p c = false) s -> sub_runs p r s = s.
Proof.
  induction 1 as [| c t Hc Ht IH]; cbn [sub_runs]; [reflexivity |].
  rewrite Hc. f_equal. exact IH.
Qed.

(** Collapsing changes nothing where the class has one member and no
    two of them are neighbours. *)
Lemma sub_runs_collapsed (p : char -> bool) (r : char) (s : str) :
  (forall c, p c = true -> c = r) ->
  has_run p s = false -> sub_runs p r s = s.
Proof.
  intros Hone. induction s as [| c t IH]; intros Hrun; [reflexivity |].
  destruct t as [| c' t'].
  - cbn [sub_runs]. destruct (p c) eqn:Ec; [rewrite (Hone c Ec) |]; reflexivity.
  - change (((p c && p c') || has_run p (c' :: t')) = false) in Hrun.
    apply orb_false_iff in Hrun as [Hcc' Ht].
    specialize (IH Ht).
    change (sub_runs p r (c :: c' :: t'))
      with (if p c then (if p c' then sub_runs p r (c' :: t')
                         else r :: sub_runs p r (c' :: t'))
            else c :: sub_runs p r (c' :: t')).
    destruct (p c) eqn:Ec.
    + cbn [andb] in Hcc'. rewrite Hcc', IH, (Hone c Ec). reflexivity.
    + rewrite IH. reflexivity.
Qed.

Lemma strip_twice (p : char -> bool) (s : str) : strip p (strip p s) = strip p s.
Proof.
  destruct (strip_ends p s) as [-> | [(c & t & Hhead & Hc) (u & d & Hlast & Hd)]];
    [reflexivity |].
  unfold strip at 1, rstrip.
  assert (Hl : lstrip p (strip p s) = strip p s)
    by (rewrite Hhead; cbn [lstrip]; rewrite Hc; reflexivity).
  rewrite Hl, Hlast, rev_app_distr. cbn [rev app lstrip]. rewrite Hd.
  cbn [rev]. rewrite rev_involutive. reflexivity.
Qed.

Lemma sanitize_clean_twice (filename : str) :
  sanitize_clean (sanitize_clean filename) = sanitize_clean filename.
Proof.
  pose proof (sanitize_clean_safe filename) as Hsafe.
  destruct (sanitize_clean_collapsed filename) as (Hspace & Hdots & Hunder).
  assert (Hres : Forall (fun c => is_reserved c = false) (sanitize_clean filename)).
  { rewrite Forall_forall in *. intros c Hc. specialize (Hsafe c Hc).
    unfold safe_char in Hsafe. apply andb_true_iff in Hsafe as [H _].
    apply negb_true_iff in H. exact H. }
  assert (Hctl : Forall (fun c => is_control c = false) (sanitize_clean filename)).
  { rewrite Forall_forall in *. intros c Hc. specialize (Hsafe c Hc).
    unfold safe_char in Hsafe. apply andb_true_iff in Hsafe as [_ H].
    apply negb_true_iff in H. exact H. }
  unfold sanitize_clean at 1.
  rewrite (remove_nothing _ _ Hres), (remove_nothing _ _ Hctl).
  rewrite (sub_runs_nothing _ _ _ Hspace).
  rewrite (sub_runs_collapsed is_dot dot _
             (fun c Hc => proj1 (N.eqb_eq c dot) Hc) Hdots).
  rewrite (sub_runs_collapsed is_underscore underscore _
             (fun c Hc => proj1 (N.eqb_eq c underscore) Hc) Hunder).
  unfold sanitize_clean. apply strip_twice.
Qed.

(** X23.  Sanitizing is idempotent below the limit: when the cleaned
    name fits in [max_length] and [max_length] is at least 8, applying
    [sanitize_filename] to its own result returns that result. *)
Theorem sanitize_filename_idempotent (filename : str) (max_length : Z) :
  8 <= max_length ->
  len (sanitize_clean filename) <= max_length ->
  sanitize_filename (sanitize_filename filename max_length) max_length
  = sanitize_filename filename max_length.
Proof.
  intros Hmax Hfit. rewrite (sanitize_filename_short filename max_length Hfit).
  destruct (truthy (sanitize_clean filename)) eqn:Htruthy.
  - rewrite sanitize_filename_short; rewrite sanitize_clean_twice;
      [rewrite Htruthy; reflexivity | exact Hfit].
  - rewrite sanitize_filename_short; [reflexivity |].
    change (len (sanitize_clean (lit "download"))) with 8. exact Hmax.
Qed.

(** A title with reserved characters, blanks and repeated dots. *)
Lemma sanitize_filename_idempotent_witness :
  sanitize_filename
    (sanitize_filename (lit "  My <Best>  Clip...  final__cut.mp4 ") default_max_length)
    default_max_length
  = sanitize_filename (lit "  My <Best>  Clip...  final__cut.mp4 ") default_max_length.
Proof.
  apply sanitize_filename_idempotent.
  - unfold default_max_length. lia.
  - apply Z.leb_le. vm_compute. reflexivity.
Defined.

(* ================================================================== *)
(** * Further properties: refusals and odd inputs *)
(* ================================================================== *)

(** X24.  DELETE /media on an entry that cannot be removed, a
    subdirectory of the folder or a file whose removal raises, is
    answered with status 500 and changes nothing. *)
Theorem delete_media_refused (cfg : config) (filename : str) (w : world) :
  dot_name (basename filename) = false ->
  lookup (basename filename) (folder w) = Some Directory
  \/ (exists f, lookup (basename filename) (folder w) = Some (RegularFile f)
                /\ removable f = false) ->
  exists detail, delete_media cfg filename w = (HTTPException 500 detail, w).
Proof.
  intros Hdot Hentry. unfold delete_media, remove_path.
  fold (media_path cfg filename). rewrite exists_media, locate_media, Hdot.
  destruct Hentry as [-> | (f & -> & Hstuck)]; cbn [negb].
  - eexists. reflexivity.
  - rewrite Hstuck. eexists. reflexivity.
Qed.

(** The file of the stuck folder that cannot be removed. *)
Lemma delete_media_refused_witness :
  exists detail,
    delete_media default_config (lit "a.mp4") stuck_folder
    = (HTTPException 500 detail, stuck_folder).
Proof.
  apply (delete_media_refused default_config (lit "a.mp4") stuck_folder).
  - reflexivity.
  - right. eexists. split; reflexivity.
Defined.

(** X25.  A format type that is neither [audio] nor [video] is
    treated as video when the tool is configured and as audio when the
    quality is reported: the options name the video converter and a
    video selector, while the quality label is that of the MP3
    audio. *)
Theorem other_format_type_is_mixed (cfg : config) (t : instant)
  (quality format_type : str) (i : info) :
  format_type <> lit "audio" ->
  format_type <> lit "video" ->
  opt_postprocessor (make_opts cfg t quality format_type)
  = lit "FFmpegVideoConvertor"
  /\ opt_format (make_opts cfg t quality format_type) <> lit "bestaudio/best"
  /\ quality_info_of format_type i = lit "MP3 Audio (192kbps)".
Proof.
  intros Haudio Hvideo.
  unfold make_opts, quality_info_of, get_format_string.
  cbn [opt_postprocessor opt_format].
  rewrite (str_eqb_neq _ _ Haudio), (str_eqb_neq _ _ Hvideo).
  split; [reflexivity |]. split; [| reflexivity].
  destruct (str_eqb quality (lit "best")); [discriminate |].
  destruct (str_eqb quality (lit "high")); [discriminate |].
  destruct (str_eqb quality (lit "medium")); [discriminate |].
  destruct (str_eqb quality (lit "low")); discriminate.
Qed.

(** The format type [photo]. *)
Lemma other_format_type_is_mixed_witness :
  quality_info_of (lit "photo") sample_info = lit "MP3 Audio (192kbps)".
Proof.
  destruct (other_format_type_is_mixed default_config first_instant (lit "best")
              (lit "photo") sample_info) as (_ & _ & Hlabel).
  - discriminate.
  - discriminate.
  - exact Hlabel.
Defined.

Lemma str_or_nonempty (x : option str) (default : str) :
  default <> [] -> str_or x default <> [].
Proof.
  intros Hd. unfold str_or. destruct x as [s |]; [| exact Hd].
  destruct s; [exact Hd | discriminate].
Qed.

Lemma slice_to_nonempty (k : Z) (s : str) :
  0 < k -> s <> [] -> slice_to k s <> [].
Proof.
  intros Hk Hs. unfold slice_to, clamp.
  destruct (k <? 0) eqn:E; [apply Z.ltb_lt in E; lia |].
  destruct s as [| c t]; [congruence |].
  assert (Hlen : 0 < len (c :: t)) by (unfold len; cbn [List.length]; lia).
  destruct (Z.to_nat (Z.min k (len (c :: t)))) eqn:En; [lia | discriminate].
Qed.

(** X26.  The title a download records is never empty and never
    longer than 150 characters: a missing or empty title becomes
    [Unknown], a long one is cut. *)
Theorem download_media_title_bounds (cfg : config) (t_start t_done : instant)
  (ydl : extractor) (url quality format_type : str) (w w1 : world)
  (i : info) (prepared : str) (items : list json) :
  valid_scheme url = true ->
  ydl url (make_opts cfg t_start quality format_type) w = (Return (i, prepared), w1) ->
  load_history cfg w1 = JList items ->
  exists entry recorded,
    snd (download_media cfg t_start t_done ydl url quality format_type w)
    = save_history cfg (micros t_done) (items ++ [JDict entry]) w1
    /\ dict_get (lit "title") entry = Some (JStr recorded)
    /\ recorded <> []
    /\ len recorded <= 150
    /\ (title i = None -> recorded = lit "Unknown").
Proof.
  intros Hvalid Hydl Hload.
  rewrite download_media_world, Hvalid, Hydl, after_extraction_world.
  unfold add_to_history. rewrite Hload.
  unfold history_entry, download_entry.
  eexists. exists (title_of i).
  split; [reflexivity |]. split; [reflexivity |]. unfold title_of.
  split; [| split].
  - apply slice_to_nonempty; [lia |]. apply str_or_nonempty. discriminate.
  - apply slice_to_length. lia.
  - intros ->. reflexivity.
Qed.

(** The sample download records its title. *)
Lemma download_media_title_bounds_witness :
  exists entry recorded,
    snd (download_media default_config first_instant second_instant
           working_extractor (lit "https://youtu.be/abc") (lit "best")
           (lit "video") empty_world)
    = save_history default_config (micros second_instant) ([] ++ [JDict entry])
        (snd (working_extractor (lit "https://youtu.be/abc")
                (make_opts default_config first_instant (lit "best") (lit "video"))
                empty_world))
    /\ dict_get (lit "title") entry = Some (JStr recorded)
    /\ len recorded <= 150.
Proof.
  destruct (download_media_title_bounds default_config first_instant
              second_instant working_extractor (lit "https://youtu.be/abc")
              (lit "best") (lit "video") empty_world
              (snd (working_extractor (lit "https://youtu.be/abc")
                      (make_opts default_config first_instant (lit "best")
                                 (lit "video"))
                      empty_world))
              sample_info (lit "downloads/1700000000_clip.mp4") [])
    as (entry & recorded & Hw & Htitle & _ & Hlen & _).
  - reflexivity.
  - reflexivity.
  - vm_compute. reflexivity.
  - exists entry, recorded. auto.
Defined.

Lemma lookup_absent (name : str) (entries : list (str * node)) :
  ~ In name (map fst entries) -> lookup name entries = None.
Proof.
  induction entries as [| [n x] rest IH]; cbn [lookup map fst In]; [reflexivity |].
  intros Hnot. destruct (str_eqb n name) eqn:E.
  - apply str_eqb_eq in E. exfalso. apply Hnot. left. exact E.
  - apply IH. intros Hin. apply Hnot. right. exact Hin.
Qed.

(** An expired file whose date can be read is not undated. *)
Lemma sweepable_dated (cut : Z) (e : str * node) :
  sweepable cut e = true -> undated e = false.
Proof.
  unfold sweepable, undated, expired.
  destruct (listed e); [| reflexivity].
  destruct (file_time e); [reflexivity | discriminate].
Qed.

(** The loop reaches every entry that only passable entries precede. *)
Lemma sweep_reaches (cut : Z) (pre : list (str * node)) (e : str * node)
  (post : list (str * node)) (n : Z) :
  Forall (passable cut) pre ->
  sweepable cut e = true ->
  unlink_ok e = true ->
  exists m,
    fst (sweep cut (pre ++ e :: post) n)
    = filter (fun e => negb (sweepable cut e)) pre ++ fst (sweep cut post m).
Proof.
  intros Hpre Hs Hu. revert n.
  induction Hpre as [| a pre Ha Hpre IH]; intros n; cbn [app sweep filter].
  - destruct (sweep_entry_cases cut e)
      as [(E & _) | [(E & Hs' & _) | (E & [Hd | [_ Hu']])]];
      try congruence.
    + rewrite E. eauto.
    + rewrite (sweepable_dated _ _ Hs) in Hd. discriminate.
  - apply sweep_entry_passable in Ha.
    destruct (sweep_entry_cases cut a)
      as [(E & Hsa & _) | [(E & Hsa & _) | (E & _)]]; [| | congruence];
      rewrite E, Hsa; cbn [negb].
    + apply IH.
    + destruct (IH n) as [m Hm].
      destruct (sweep cut (pre ++ e :: post) n) as [kept outcome].
      cbn [fst] in *. rewrite Hm. exists m. reflexivity.
Qed.

(** X27.  A file the sweep removed can no longer be fetched: when the
    cutoff is a date, the folder has no duplicate names, and the loop
    raises at no entry listed before an expired, removable file, GET
    /media for the name of that file answers 404 after the sweep. *)
Theorem swept_file_not_found (cfg : config) (now cut : Z) (w : world)
  (pre : list (str * node)) (name : str) (x : node) (post : list (str * node)) :
  cutoff cfg now = Some cut ->
  folder w = pre ++ (name, x) :: post ->
  NoDup (map fst (folder w)) ->
  Forall (passable cut) pre ->
  sweepable cut (name, x) = true ->
  unlink_ok (name, x) = true ->
  entry_name name ->
  serve_media cfg name (clean_old_files cfg now w)
  = HTTPException 404 (lit "File not found").
Proof.
  intros Hcut Hsplit Hnodup Hpre Hswept Hunlink [Hne Hfree].
  assert (Hshown : startswith name (lit ".") = false).
  { unfold sweepable in Hswept. apply andb_true_iff in Hswept as [Hl _].
    apply (listed_not_hidden name x Hl). }
  unfold serve_media, exists_, node_at.
  rewrite (basename_fixed name Hfree), (locate_join cfg name Hfree).
  rewrite (not_hidden_not_dot_name name Hne Hshown).
  rewrite (clean_old_files_eq _ _ _ _ Hcut). cbn [folder].
  rewrite Hsplit in *.
  destruct (sweep_reaches cut pre (name, x) post 0 Hpre Hswept Hunlink) as [m ->].
  rewrite map_app in Hnodup. cbn [map fst] in Hnodup.
  apply NoDup_remove_2 in Hnodup.
  rewrite lookup_absent; [reflexivity |].
  intros Hin. apply Hnodup. rewrite map_app in Hin.
  apply in_app_iff in Hin as [Hin | Hin]; apply in_app_iff.
  - left. apply in_map_iff in Hin as (e & He & Hein).
    apply filter_In in Hein as [Hein _]. apply in_map_iff. exists e. auto.
  - right. apply in_map_iff in Hin as (e & He & Hein).
    apply sweep_sublist in Hein. apply in_map_iff. exists e. auto.
Qed.

(** A fresh file listed before an expired one: the sweep passes the
    first and removes the second. *)
Lemma swept_file_not_found_witness :
  serve_media default_config (lit "old.mp4")
    (clean_old_files default_config (2 * day)
       {| folder := [(lit "new.mp4", media_file (2 * day) true);
                     (lit "old.mp4", media_file 0 true)];
          elsewhere := [] |})
  = HTTPException 404 (lit "File not found").
Proof.
  apply (swept_file_not_found default_config (2 * day) day
           {| folder := [(lit "new.mp4", media_file (2 * day) true);
                         (lit "old.mp4", media_file 0 true)];
              elsewhere := [] |}
           [(lit "new.mp4", media_file (2 * day) true)]
           (lit "old.mp4") (media_file 0 true) []).
  - reflexivity.
  - reflexivity.
  - repeat constructor; cbn; intuition discriminate.
  - repeat constructor; discriminate.
  - reflexivity.
  - reflexivity.
  - split; [discriminate |]. unfold slash_free. repeat constructor; discriminate.
Defined.
